(** * claude-code-env: provider routing, request forwarding, client sessions

    A shallow embedding of the Go packages [internal/config],
    [internal/provider] and [internal/proxy] (whose LLM routes are shared
    verbatim with [internal/llm_proxy]), followed by the properties of the
    design document that are stated about them.

    Conventions.
    - Go [int] and [time.Duration] are 64-bit: they are integers of [Z] with
      the wrap-around ([wrap_int]) or the saturation ([Time_Sub]) written out.
    - A [time.Time] is the number of nanoseconds since Go's zero instant, so
      that [IsZero] is a test against [0].
    - A [*ProviderState] is an index into [providers]: the slice is built once
      by [NewProviderManager] and never resized, and pointer equality is
      equality of indices.
    - Every reading of [time.Now()] is an explicit argument. *)

From Stdlib Require Import ZArith NArith Lia Bool Ascii String Sorted.
From stdpp Require Import base option list gmap strings.

Local Open Scope string_scope.
Local Open Scope list_scope.
Local Open Scope Z_scope.

(** ** Go primitives *)

Module go.

(** Two's complement wrap-around of the 64-bit [int]. *)
Definition wrap_int (x : Z) : Z := (x + 2 ^ 63) mod 2 ^ 64 - 2 ^ 63.

Definition maxInt64 : Z := 2 ^ 63 - 1.
Definition minInt64 : Z := - 2 ^ 63.

(** [time.Time], in nanoseconds since the zero instant. *)
Definition Time := Z.
(** [time.Duration], a 64-bit count of nanoseconds. *)
Definition Duration := Z.

Definition Second : Duration := 1000000000.
Definition Minute : Duration := 60 * Second.

Definition Time_zero : Time := 0.
Definition Time_IsZero (t : Time) : bool := t =? 0.
(** [t.After(u)] *)
Definition Time_After (t u : Time) : bool := u <? t.
(** [t.Add(d)] *)
Definition Time_Add (t : Time) (d : Duration) : Time := t + d.
(** [t.Sub(u)]: the difference, saturated to the range of [Duration]. *)
Definition Time_Sub (t u : Time) : Duration :=
  if maxInt64 <? t - u then maxInt64
  else if t - u <? minInt64 then minInt64
  else t - u.

(** Reading a [map[string]string]: a missing key reads as the empty string. *)
Definition map_get (m : gmap string string) (k : string) : string :=
  default EmptyString (m !! k).

(** [strings.Repeat(s, count)] *)
Fixpoint Repeat (s : string) (count : nat) : string :=
  match count with
  | O => EmptyString
  | S count' => s +:+ Repeat s count'
  end.

(** [strings.HasPrefix(s, prefix)] *)
Definition HasPrefix (s prefix : string) : bool := String.prefix prefix s.

End go.

(** ** Package [config] *)

Module config.

Record Provider := mkProvider {
  Name  : string;
  State : string;
  Env   : gmap string string
}.

Record Routing := mkRouting { Strategy : string }.

(** The fields of [Config] that the router reads. *)
Record Config := mkConfig {
  Providers : list Provider;
  routing   : Routing
}.

(** The loop of [GetActiveProviders]. *)
Fixpoint activeProviders (l : list Provider) : list Provider :=
  match l with
  | [] => []
  | provider :: l' =>
      if String.eqb (State provider) "on" then provider :: activeProviders l'
      else activeProviders l'
  end.

Definition GetActiveProviders (c : Config) : list Provider :=
  activeProviders (Providers c).

(** The whole [Config] struct as the loader fills it: the fields that only
    the start-up code reads, and under [router] the fields above. *)
Record Settings := mkSettings {
  Version      : string;
  APIKey       : string;
  CCEnvHost    : string;
  CCEnvPort    : Z;
  APIProxy     : string;
  LoggingLevel : string;
  APITimeoutMS : Z;
  router       : Config
}.

Definition SetDefaults (c : Settings) : Settings :=
  let host := if String.eqb (CCEnvHost c) EmptyString then "localhost" else CCEnvHost c in
  let port := if CCEnvPort c =? 0 then 9999 else CCEnvPort c in
  let level := if String.eqb (LoggingLevel c) EmptyString then "INFO" else LoggingLevel c in
  let timeout := if APITimeoutMS c =? 0 then 600000 else APITimeoutMS c in
  let strategy :=
    if negb (String.eqb (Strategy (routing (router c))) "default")
       && negb (String.eqb (Strategy (routing (router c))) "robin")
    then "default" else Strategy (routing (router c)) in
  let apiProxy :=
    if negb (String.eqb (APIProxy c) EmptyString)
    then if negb (go.HasPrefix (APIProxy c) "http://")
            && negb (go.HasPrefix (APIProxy c) "https://")
         then EmptyString else APIProxy c
    else APIProxy c in
  {| Version := Version c; APIKey := APIKey c;
     CCEnvHost := host; CCEnvPort := port; APIProxy := apiProxy;
     LoggingLevel := level; APITimeoutMS := timeout;
     router := {| Providers := Providers (router c);
                  routing := {| Strategy := strategy |} |} |}.

(** [value[:4]], [value[len(value)-4:]] and the like are slices of bytes. *)
Definition maskSensitiveValue (value : string) : string :=
  if String.eqb value EmptyString then EmptyString
  else if (String.length value <=? 8)%nat then go.Repeat "*" (String.length value)
  else substring 0 4 value
       +:+ go.Repeat "*" (String.length value - 8)
       +:+ substring (String.length value - 4) 4 value.

(** *** The configuration watcher *)

(** What one iteration of [watchLoop] receives: an event on the file
    [name], with the two readings of the clock ([time.Since], then
    [time.Now]) and the result of [LoadConfig] that the iteration meets if
    it gets that far; an error of the watcher; the closing of either
    channel of the watcher; the stop signal. *)
Inductive Received :=
| FileEvent (name : string) (write create : bool)
            (now1 now2 : go.Time) (loaded : Settings + string)
| EventsClosed
| WatcherError (err : string)
| ErrorsClosed
| StopSignal.

(** A [ConfigWatcher] and the local variable of its [watchLoop]; a channel
    of capacity one is the value it holds, if any. *)
Record ConfigWatcher := mkConfigWatcher {
  configPath     : string;
  reloadChan     : option Settings;
  errorChan      : option string;
  lastReloadTime : go.Time
}.

(** Where [watchLoop] stands: at its [select], in a send on the full error
    channel, or past its [return]. *)
Inductive Loop :=
| Running (cw : ConfigWatcher)
| Sending (err : string) (cw : ConfigWatcher)
| Returned (cw : ConfigWatcher).

Definition watcherOf (l : Loop) : ConfigWatcher :=
  match l with
  | Running cw | Sending _ cw | Returned cw => cw
  end.

(** [cw.errorChan <- err] *)
Definition sendError (err : string) (cw : ConfigWatcher) : Loop :=
  match errorChan cw with
  | Some _ => Sending err cw
  | None => Running {| configPath := configPath cw; reloadChan := reloadChan cw;
                       errorChan := Some err;
                       lastReloadTime := lastReloadTime cw |}
  end.

(** Whether the iteration that receives [received] gets to [LoadConfig]. *)
Definition reloads (cw : ConfigWatcher) (received : Received) : bool :=
  match received with
  | FileEvent name write create now1 _ _ =>
      String.eqb name (configPath cw) && (write || create)
      && negb (go.Time_Sub now1 (lastReloadTime cw) <? 1 * go.Second)
  | _ => false
  end.

(** One iteration of the loop of [watchLoop]. *)
Definition watchLoopBody (cw : ConfigWatcher) (received : Received) : Loop :=
  match received with
  | EventsClosed | ErrorsClosed | StopSignal => Returned cw
  | WatcherError err => sendError ("文件监控错误: " +:+ err) cw
  | FileEvent name write create now1 now2 loaded =>
      if String.eqb name (configPath cw) && (write || create) then
        if go.Time_Sub now1 (lastReloadTime cw) <? 1 * go.Second then Running cw
        else
          let cw := {| configPath := configPath cw; reloadChan := reloadChan cw;
                       errorChan := errorChan cw; lastReloadTime := now2 |} in
          match loaded with
          | inr err => sendError ("重新加载配置失败: " +:+ err) cw
          | inl newConfig =>
              match reloadChan cw with
              | None =>
                  Running {| configPath := configPath cw;
                             reloadChan := Some newConfig;
                             errorChan := errorChan cw;
                             lastReloadTime := lastReloadTime cw |}
              | Some _ => Running cw
              end
          end
      else Running cw
  end.

(** What happens to the watcher: its loop receives something, or another
    goroutine takes what a channel holds. *)
Inductive Action :=
| Receive (received : Received)
| TakeReload
| TakeError.

Definition takeReload (cw : ConfigWatcher) : ConfigWatcher :=
  {| configPath := configPath cw; reloadChan := None;
     errorChan := errorChan cw; lastReloadTime := lastReloadTime cw |}.

Definition takeError (cw : ConfigWatcher) : ConfigWatcher :=
  {| configPath := configPath cw; reloadChan := reloadChan cw;
     errorChan := None; lastReloadTime := lastReloadTime cw |}.

(** The loop after one action; a loop that is not at its [select] receives
    nothing, and a send that waited goes through once the channel is
    emptied. *)
Definition act (a : Action) (l : Loop) : Loop :=
  match l, a with
  | Running cw, Receive received => watchLoopBody cw received
  | Running cw, TakeReload => Running (takeReload cw)
  | Running cw, TakeError => Running (takeError cw)
  | Sending err cw, TakeReload => Sending err (takeReload cw)
  | Sending err cw, TakeError =>
      Running {| configPath := configPath cw; reloadChan := reloadChan cw;
                 errorChan := Some err; lastReloadTime := lastReloadTime cw |}
  | Sending err cw, Receive _ => Sending err cw
  | Returned cw, Receive _ => Returned cw
  | Returned cw, TakeReload => Returned (takeReload cw)
  | Returned cw, TakeError => Returned (takeError cw)
  end.

(** The clock readings at which the action makes the loop call
    [LoadConfig]: the values it gives to [lastReloadTime]. *)
Definition loadsAt (a : Action) (l : Loop) : list go.Time :=
  match l, a with
  | Running cw, Receive (FileEvent name write create now1 now2 loaded) =>
      if reloads cw (FileEvent name write create now1 now2 loaded) then [now2] else []
  | _, _ => []
  end.

(** The loop after a sequence of actions, and the clock readings of its
    calls of [LoadConfig], oldest first. *)
Fixpoint runLoop (actions : list Action) (l : Loop) : Loop * list go.Time :=
  match actions with
  | [] => (l, [])
  | a :: rest =>
      let '(l', loads) := runLoop rest (act a l) in
      (l', loadsAt a l ++ loads)
  end.

(** The clock does not go back between the two readings of an iteration. *)
Definition clockAdvances (a : Action) : Prop :=
  match a with
  | Receive (FileEvent _ _ _ now1 now2 _) => now1 <= now2
  | _ => True
  end.

(** The configurations that the action makes [LoadConfig] return. *)
Definition loadedAt (a : Action) (l : Loop) : list Settings :=
  match l, a with
  | Running cw, Receive (FileEvent name write create now1 now2 (inl newConfig)) =>
      if reloads cw (FileEvent name write create now1 now2 (inl newConfig))
      then [newConfig] else []
  | _, _ => []
  end.

(** The configurations loaded in a sequence of actions, oldest first. *)
Fixpoint loadedConfigs (actions : list Action) (l : Loop) : list Settings :=
  match actions with
  | [] => []
  | a :: rest => loadedAt a l ++ loadedConfigs rest (act a l)
  end.

End config.

(** ** Package [provider] *)

Module provider.
Import go.

Record ProviderState := mkProviderState {
  Provider        : config.Provider;
  FailureCount    : Z;
  LastFailureTime : Time;
  IsDisabled      : bool;
  DisabledUntil   : Time
}.

Record ProviderManager := mkProviderManager {
  providers       : list ProviderState;
  routingStrategy : string;
  robinIndex      : Z
}.

(** What [GetNextProvider] hands back: a pointer to a provider state, the
    error "no provider available", or a run-time panic of an index
    expression. *)
Inductive Pick :=
| Picked (i : nat)
| NoProviderAvailable
| IndexPanic.

Definition newProviderState (p : config.Provider) : ProviderState :=
  let authToken := map_get (config.Env p) "ANTHROPIC_AUTH_TOKEN" in
  let apiKey := map_get (config.Env p) "ANTHROPIC_API_KEY" in
  let isDisabled := negb (String.eqb (config.State p) "on") in
  let isDisabled :=
    if String.eqb authToken EmptyString && String.eqb apiKey EmptyString then true else isDisabled in
  {| Provider := p; FailureCount := 0; LastFailureTime := Time_zero;
     IsDisabled := isDisabled; DisabledUntil := Time_zero |}.

Definition NewProviderManager (cfg : config.Config) : ProviderManager :=
  {| providers := newProviderState <$> config.Providers cfg;
     routingStrategy := config.Strategy (config.routing cfg);
     robinIndex := 0 |}.

(** The body of the loop of [updateProviderStates]. *)
Definition updateProviderState (now : Time) (ps : ProviderState) : ProviderState :=
  if IsDisabled ps && negb (Time_IsZero (DisabledUntil ps))
     && Time_After now (DisabledUntil ps)
  then {| Provider := Provider ps; FailureCount := 0;
          LastFailureTime := LastFailureTime ps;
          IsDisabled := false; DisabledUntil := Time_zero |}
  else ps.

Definition updateProviderStates (now : Time) (pm : ProviderManager) : ProviderManager :=
  {| providers := updateProviderState now <$> providers pm;
     routingStrategy := routingStrategy pm;
     robinIndex := robinIndex pm |}.

Definition isAvailable (ps : ProviderState) : bool :=
  String.eqb (config.State (Provider ps)) "on" && negb (IsDisabled ps).

(** The pointers collected by the loop of [getAvailableProviders], the
    slice being scanned from index [i] on. *)
Fixpoint availableFrom (i : nat) (l : list ProviderState) : list nat :=
  match l with
  | [] => []
  | ps :: l' =>
      if isAvailable ps then i :: availableFrom (S i) l' else availableFrom (S i) l'
  end.

Definition getAvailableProviders (pm : ProviderManager) : list nat :=
  availableFrom 0 (providers pm).

(** [availableProviders[k]]. *)
Definition index (availableProviders : list nat) (k : Z) : Pick :=
  if k <? 0 then IndexPanic
  else match availableProviders !! Z.to_nat k with
       | Some i => Picked i
       | None => IndexPanic
       end.

(** The nested loops of [getNextDefault]: [ps] ranges over the slice from
    index [i] on, and is returned when it is one of the available pointers. *)
Fixpoint defaultScan (i : nat) (l : list ProviderState)
    (availableProviders : list nat) : option nat :=
  match l with
  | [] => None
  | _ :: l' =>
      if existsb (Nat.eqb i) availableProviders then Some i
      else defaultScan (S i) l' availableProviders
  end.

Definition getNextDefault (pm : ProviderManager) (availableProviders : list nat) : Pick :=
  match defaultScan 0 (providers pm) availableProviders with
  | Some i => Picked i
  | None => index availableProviders 0
  end.

Definition setRobinIndex (pm : ProviderManager) (k : Z) : ProviderManager :=
  {| providers := providers pm; routingStrategy := routingStrategy pm;
     robinIndex := k |}.

Definition getNextRobin (pm : ProviderManager) (availableProviders : list nat)
    : ProviderManager * Pick :=
  if (length availableProviders =? 1)%nat then (pm, index availableProviders 0)
  else
    let k := Z.rem (robinIndex pm) (Z.of_nat (length availableProviders)) in
    match index availableProviders k with
    | Picked i => (setRobinIndex pm (wrap_int (k + 1)), Picked i)
    | other => (setRobinIndex pm k, other)
    end.

Definition GetNextProvider (now : Time) (pm : ProviderManager)
    : ProviderManager * Pick :=
  let pm := updateProviderStates now pm in
  let availableProviders := getAvailableProviders pm in
  if (length availableProviders =? 0)%nat then (pm, NoProviderAvailable)
  else if String.eqb (routingStrategy pm) "robin"
       then getNextRobin pm availableProviders
       else (pm, getNextDefault pm availableProviders).

(** The body of the [if] of [RecordFailure]; [now1] and [now2] are its two
    readings of the clock, in that order. *)
Definition failProviderState (now1 now2 : Time) (ps : ProviderState) : ProviderState :=
  let count := wrap_int (FailureCount ps + 1) in
  if 5 <=? count
  then {| Provider := Provider ps; FailureCount := count; LastFailureTime := now1;
          IsDisabled := true; DisabledUntil := Time_Add now2 (5 * Minute) |}
  else {| Provider := Provider ps; FailureCount := count; LastFailureTime := now1;
          IsDisabled := IsDisabled ps; DisabledUntil := DisabledUntil ps |}.

Definition succeedProviderState (ps : ProviderState) : ProviderState :=
  if 0 <? FailureCount ps
  then {| Provider := Provider ps; FailureCount := 0;
          LastFailureTime := LastFailureTime ps;
          IsDisabled := IsDisabled ps; DisabledUntil := DisabledUntil ps |}
  else ps.

(** [for _, ps := range l { if ps.Provider.Name == providerName { f; break } }] *)
Fixpoint updateFirstNamed (providerName : string) (f : ProviderState -> ProviderState)
    (l : list ProviderState) : list ProviderState :=
  match l with
  | [] => []
  | ps :: l' =>
      if String.eqb (config.Name (Provider ps)) providerName then f ps :: l'
      else ps :: updateFirstNamed providerName f l'
  end.

Definition setProviders (pm : ProviderManager) (l : list ProviderState) : ProviderManager :=
  {| providers := l; routingStrategy := routingStrategy pm;
     robinIndex := robinIndex pm |}.

Definition RecordFailure (providerName : string) (now1 now2 : Time)
    (pm : ProviderManager) : ProviderManager :=
  setProviders pm
    (updateFirstNamed providerName (failProviderState now1 now2) (providers pm)).

Definition RecordSuccess (providerName : string) (pm : ProviderManager)
    : ProviderManager :=
  setProviders pm (updateFirstNamed providerName succeedProviderState (providers pm)).

(** *** Histories of calls on one manager *)

Inductive Call :=
| CallSelect (now : Time)
| CallFailure (providerName : string) (now1 now2 : Time)
| CallSuccess (providerName : string).

(** Runs the calls in order; the picks of the [GetNextProvider] calls are
    collected, oldest first. *)
Fixpoint run (calls : list Call) (pm : ProviderManager)
    : ProviderManager * list Pick :=
  match calls with
  | [] => (pm, [])
  | CallSelect now :: rest =>
      let '(pm1, pick) := GetNextProvider now pm in
      let '(pm2, picks) := run rest pm1 in
      (pm2, pick :: picks)
  | CallFailure name now1 now2 :: rest => run rest (RecordFailure name now1 now2 pm)
  | CallSuccess name :: rest => run rest (RecordSuccess name pm)
  end.

(** The index of the state that [RecordFailure] and [RecordSuccess] act on. *)
Fixpoint firstNamed (providerName : string) (l : list ProviderState) : option nat :=
  match l with
  | [] => None
  | ps :: l' =>
      if String.eqb (config.Name (Provider ps)) providerName then Some 0%nat
      else S <$> firstNamed providerName l'
  end.

(** Consecutive [RecordFailure] calls on one name, oldest first; each pair
    holds the two clock readings of one call. *)
Definition recordFailures (providerName : string) (readings : list (Time * Time))
    (pm : ProviderManager) : ProviderManager :=
  foldl (fun pm r => RecordFailure providerName (fst r) (snd r) pm) pm readings.

(** A call made while a cooldown begun at [start] and ending at [deadline]
    is pending: a selection reads the clock no later than [deadline], a
    failure no earlier than [start]. *)
Definition duringCooldown (start deadline : Time) (c : Call) : Prop :=
  match c with
  | CallSelect now => now <= deadline
  | CallFailure _ _ now2 => start <= now2
  | CallSuccess _ => True
  end.

Definition noFailureOn (providerName : string) (c : Call) : Prop :=
  match c with
  | CallFailure n _ _ => n <> providerName
  | _ => True
  end.

(** *** Predicates of the statements *)

(** Configured "on" and not disabled. *)
Definition ready (ps : ProviderState) : Prop :=
  config.State (Provider ps) = "on" /\ IsDisabled ps = false.

(** [i] is the first index of [l] whose provider is configured "on" and is
    not disabled. *)
Definition firstAvailable (l : list ProviderState) (i : nat) : Prop :=
  (exists ps, l !! i = Some ps /\
              config.State (Provider ps) = "on" /\ IsDisabled ps = false) /\
  (forall j ps, (j < i)%nat -> l !! j = Some ps ->
                ~ (config.State (Provider ps) = "on" /\ IsDisabled ps = false)).

(** A provider can be selected at [now]: it is configured "on" and, once the
    cooldown has been reconciled against [now], it is not disabled. *)
Definition availableAt (now : Time) (ps : ProviderState) : Prop :=
  config.State (Provider ps) = "on" /\
  IsDisabled (updateProviderState now ps) = false.

(** The state that [providerName] designates sits at index [i] and
    satisfies [P]. *)
Definition designated (providerName : string) (i : nat)
    (P : ProviderState -> Prop) (pm : ProviderManager) : Prop :=
  firstNamed providerName (providers pm) = Some i /\
  exists ps, providers pm !! i = Some ps /\ P ps.

(** Disabled, with a deadline that is absent or not before [deadline]. *)
Definition coolingUntil (p : config.Provider) (deadline : Time)
    (ps : ProviderState) : Prop :=
  Provider ps = p /\ IsDisabled ps = true /\
  (DisabledUntil ps = Time_zero \/ deadline <= DisabledUntil ps).

(** Disabled, with the deadline [deadline]. *)
Definition cooledUntil (p : config.Provider) (deadline : Time)
    (ps : ProviderState) : Prop :=
  Provider ps = p /\ IsDisabled ps = true /\ DisabledUntil ps = deadline.

(** The manager after one call. *)
Definition step (c : Call) (pm : ProviderManager) : ProviderManager :=
  fst (run [c] pm).

End provider.

(** ** The part of Go's [encoding/json] that the proxy calls

    The library is not part of the repository; this is a model of its
    documented behaviour (Go 1.22 and later for the short forms of the
    backspace and form-feed escapes).  [Marshal] is modelled in full for the
    values below.  [Unmarshal] is modelled on the JSON texts whose numbers are
    integers of magnitude below [2^53] written without fraction, exponent or
    negative zero (a [float64] holds them exactly and prints them back digit
    for digit) and whose strings have no [\u] escape; on any other text the
    model answers [Unsupported] rather than guess. *)

Module json.

#[local] Set Warnings "-register-all".

(** What [Unmarshal] stores into an [interface{}]: [nil], [bool],
    [float64], [string], [[]interface{}] and [map[string]interface{}].  A
    map is kept as the list of its entries, one per key. *)
Inductive Value :=
| Null
| Bool (b : bool)
| Number (n : Z)
| Str (s : string)
| Array (l : list Value)
| Object (m : list (string * Value)).

(** [m[k]] *)
Fixpoint mapGet (k : string) (m : list (string * Value)) : option Value :=
  match m with
  | [] => None
  | (k', v) :: m' => if String.eqb k' k then Some v else mapGet k m'
  end.

(** [m[k] = v] *)
Fixpoint mapSet (k : string) (v : Value) (m : list (string * Value))
    : list (string * Value) :=
  match m with
  | [] => [(k, v)]
  | (k', v') :: m' =>
      if String.eqb k' k then (k, v) :: m' else (k', v') :: mapSet k v m'
  end.

(** *** Bytes *)

Definition code (c : ascii) : N := N_of_ascii c.
Definition char (n : N) : ascii := ascii_of_N n.
Definition str (c : ascii) : string := String c EmptyString.

Definition quoteChar : ascii := char 34.
Definition backslash : ascii := char 92.

Definition between (lo hi : N) (c : ascii) : bool :=
  ((lo <=? code c) && (code c <=? hi))%N.

(** The length of the UTF-8 sequence that [s] starts with, [0] when [s]
    does not start with a well-formed one ([utf8.DecodeRuneInString]). *)
Definition utf8Size (s : string) : nat :=
  match s with
  | EmptyString => 0
  | String c0 rest =>
      let b := code c0 in
      if (b <? 128)%N then 1
      else if (b <? 194)%N then 0
      else if (b <? 224)%N then
        match rest with
        | String c1 _ => if between 128 191 c1 then 2 else 0
        | _ => 0
        end
      else if (b <? 240)%N then
        let lo := if (b =? 224)%N then 160%N else 128%N in
        let hi := if (b =? 237)%N then 159%N else 191%N in
        match rest with
        | String c1 (String c2 _) =>
            if between lo hi c1 && between 128 191 c2 then 3 else 0
        | _ => 0
        end
      else if (b <? 245)%N then
        let lo := if (b =? 240)%N then 144%N else 128%N in
        let hi := if (b =? 244)%N then 143%N else 191%N in
        match rest with
        | String c1 (String c2 (String c3 _)) =>
            if between lo hi c1 && between 128 191 c2 && between 128 191 c3
            then 4 else 0
        | _ => 0
        end
      else 0
  end%nat.

(** The encoding of U+FFFD, which replaces an ill-formed byte. *)
Definition replacementChar : string :=
  String (char 239) (String (char 191) (String (char 189) EmptyString)).

(** *** Marshal *)

Definition hex (n : N) : ascii :=
  if (n <? 10)%N then char (48 + n) else char (87 + n).

(** Bytes that [Marshal] copies as they are: [htmlSafeSet]. *)
Definition htmlSafe (c : ascii) : bool :=
  between 32 127 c
  && negb (Ascii.eqb c quoteChar) && negb (Ascii.eqb c backslash)
  && negb (Ascii.eqb c "<") && negb (Ascii.eqb c ">") && negb (Ascii.eqb c "&").

Definition escapeByte (c : ascii) : string :=
  if Ascii.eqb c quoteChar || Ascii.eqb c backslash then String backslash (str c)
  else if (code c =? 8)%N then String backslash "b"
  else if (code c =? 12)%N then String backslash "f"
  else if (code c =? 10)%N then String backslash "n"
  else if (code c =? 13)%N then String backslash "r"
  else if (code c =? 9)%N then String backslash "t"
  else String backslash
         ("u00" +:+ str (hex (code c / 16)%N) +:+ str (hex (code c mod 16)%N)).

(** U+2028 and U+2029, which [Marshal] escapes. *)
Definition lineSeparator (s : string) : option ascii :=
  match s with
  | String c0 (String c1 (String c2 _)) =>
      if ((code c0 =? 226) && (code c1 =? 128))%N
      then if (code c2 =? 168)%N then Some "8"%char
           else if (code c2 =? 169)%N then Some "9"%char
           else None
      else None
  | _ => None
  end.

(** The loop of [appendString]; [copy] bytes of a sequence already accepted
    are still to be copied, [drop] bytes of one already escaped are still
    to be passed over. *)
Fixpoint appendString (copy drop : nat) (s : string) : string :=
  match s with
  | EmptyString => EmptyString
  | String c rest =>
      match copy, drop with
      | S copy', _ => String c (appendString copy' drop rest)
      | O, S drop' => appendString O drop' rest
      | O, O =>
          if (code c <? 128)%N then
            if htmlSafe c then String c (appendString O O rest)
            else escapeByte c +:+ appendString O O rest
          else
            match utf8Size s with
            | O => String backslash "ufffd" +:+ appendString O O rest
            | S n =>
                match lineSeparator s with
                | Some d => String backslash ("u202" +:+ str d) +:+ appendString O 2 rest
                | None => String c (appendString n O rest)
                end
            end
      end
  end.

Definition quote (s : string) : string :=
  String quoteChar (appendString 0 0 s +:+ str quoteChar).

Fixpoint digits (fuel : nat) (n : N) (acc : string) : string :=
  match fuel with
  | O => acc
  | S fuel' =>
      let acc' := String (char (48 + n mod 10)) acc in
      if (n <? 10)%N then acc' else digits fuel' (n / 10)%N acc'
  end.

(** An integer in decimal ([strconv]). *)
Definition itoa (n : Z) : string :=
  let d := digits (S (N.to_nat (N.log2 (Z.abs_N n)))) (Z.abs_N n) EmptyString in
  if n <? 0 then String "-" d else d.

Fixpoint insertByKey (e : string * string) (l : list (string * string))
    : list (string * string) :=
  match l with
  | [] => [e]
  | e' :: l' => if String.leb (fst e) (fst e') then e :: l else e' :: insertByKey e l'
  end.

(** The keys of a map are written in increasing order. *)
Definition sortByKey (l : list (string * string)) : list (string * string) :=
  foldr insertByKey [] l.

Fixpoint join (l : list string) : string :=
  match l with
  | [] => EmptyString
  | [x] => x
  | x :: l' => x +:+ "," +:+ join l'
  end.

Fixpoint Marshal (v : Value) : string :=
  match v with
  | Null => "null"
  | Bool true => "true"
  | Bool false => "false"
  | Number n => itoa n
  | Str s => quote s
  | Array l => "[" +:+ join ((fix each l := match l with
                                             | [] => []
                                             | x :: l' => Marshal x :: each l'
                                             end) l) +:+ "]"
  | Object m =>
      let entries := (fix each m := match m with
                                    | [] => []
                                    | (k, x) :: m' => (k, Marshal x) :: each m'
                                    end) m in
      "{" +:+ join ((fun e => quote (fst e) +:+ ":" +:+ snd e) <$> sortByKey entries)
          +:+ "}"
  end.

(** *** Unmarshal *)

Inductive Parse (A : Type) :=
| Parsed (a : A) (rest : string)
| SyntaxError
| Unsupported.
Arguments Parsed {A} a rest.
Arguments SyntaxError {A}.
Arguments Unsupported {A}.

Definition mapParsed {A B : Type} (f : A -> B) (p : Parse A) : Parse B :=
  match p with
  | Parsed a rest => Parsed (f a) rest
  | SyntaxError => SyntaxError
  | Unsupported => Unsupported
  end.

Definition isSpace (c : ascii) : bool :=
  ((code c =? 32) || (code c =? 9) || (code c =? 13) || (code c =? 10))%N.

Fixpoint skipSpace (s : string) : string :=
  match s with
  | EmptyString => s
  | String c rest => if isSpace c then skipSpace rest else s
  end.

Fixpoint stripPrefix (word s : string) : option string :=
  match word, s with
  | EmptyString, _ => Some s
  | String a word', String b s' =>
      if Ascii.eqb a b then stripPrefix word' s' else None
  | String _ _, EmptyString => None
  end.

Definition literal (word : string) (v : Value) (s : string) : Parse Value :=
  match stripPrefix word s with
  | Some rest => Parsed v rest
  | None => SyntaxError
  end.

Definition isDigit (c : ascii) : bool := between 48 57 c.
Definition digitValue (c : ascii) : Z := Z.of_N (code c) - 48.

(** The digits that [s] starts with, appended to the numeral [acc]. *)
Fixpoint readDigits (acc : Z) (s : string) : Z * string :=
  match s with
  | EmptyString => (acc, s)
  | String c rest =>
      if isDigit c then readDigits (10 * acc + digitValue c) rest else (acc, s)
  end.

(** A number whose integer part is [n], negated if [negative], followed by
    [rest]. *)
Definition finishNumber (negative : bool) (n : Z) (rest : string) : Parse Value :=
  let continues :=
    match rest with
    | String c _ => Ascii.eqb c "." || Ascii.eqb c "e" || Ascii.eqb c "E"
    | EmptyString => false
    end in
  if continues then Unsupported
  else if negative && (n =? 0) then Unsupported
  else if 2 ^ 53 <=? n then Unsupported
  else Parsed (Number (if negative then - n else n)) rest.

Definition parseNumber (s : string) : Parse Value :=
  let negative := match s with String c _ => Ascii.eqb c "-" | _ => false end in
  let s1 := match s with String c rest => if Ascii.eqb c "-" then rest else s | _ => s end in
  match s1 with
  | EmptyString => SyntaxError
  | String c rest =>
      if Ascii.eqb c "0" then finishNumber negative 0 rest
      else if isDigit c then
        let '(n, rest') := readDigits (digitValue c) rest in
        finishNumber negative n rest'
      else SyntaxError
  end.

(** The character that a one-letter escape stands for. *)
Definition simpleEscape (c : ascii) : option ascii :=
  if Ascii.eqb c quoteChar then Some quoteChar
  else if Ascii.eqb c backslash then Some backslash
  else if Ascii.eqb c "/" then Some "/"%char
  else if Ascii.eqb c "b" then Some (char 8)
  else if Ascii.eqb c "f" then Some (char 12)
  else if Ascii.eqb c "n" then Some (char 10)
  else if Ascii.eqb c "r" then Some (char 13)
  else if Ascii.eqb c "t" then Some (char 9)
  else None.

(** A string literal past its opening quote; [copy] bytes of a UTF-8
    sequence already accepted are still to be copied. *)
Fixpoint parseString (copy : nat) (s : string) : Parse string :=
  match s with
  | EmptyString => SyntaxError
  | String c rest =>
      match copy with
      | S copy' => mapParsed (String c) (parseString copy' rest)
      | O =>
          if Ascii.eqb c quoteChar then Parsed EmptyString rest
          else if Ascii.eqb c backslash then
            match rest with
            | EmptyString => SyntaxError
            | String e rest' =>
                match simpleEscape e with
                | Some d => mapParsed (String d) (parseString O rest')
                | None => if Ascii.eqb e "u" then Unsupported else SyntaxError
                end
            end
          else if (code c <? 32)%N then SyntaxError
          else if (code c <? 128)%N then mapParsed (String c) (parseString O rest)
          else
            match utf8Size s with
            | O => mapParsed (String.append replacementChar) (parseString O rest)
            | S n => mapParsed (String c) (parseString n rest)
            end
      end
  end.

(** The scanner refuses a text nested deeper than this. *)
Definition maxNestingDepth : N := 10000.

(** A value, the elements of an array past its bracket, the members of an
    object past its brace.  [depth] counts the enclosing arrays and
    objects; [first] tells that no element or member has been read yet. *)
Fixpoint parseValue (fuel : nat) (depth : N) (s : string) : Parse Value :=
  match fuel with
  | O => Unsupported
  | S fuel' =>
      match skipSpace s with
      | EmptyString => SyntaxError
      | String c rest =>
          if Ascii.eqb c "{" then
            if (maxNestingDepth <=? depth)%N then SyntaxError
            else parseMembers fuel' (N.succ depth) true [] rest
          else if Ascii.eqb c "[" then
            if (maxNestingDepth <=? depth)%N then SyntaxError
            else parseElements fuel' (N.succ depth) true [] rest
          else if Ascii.eqb c quoteChar then mapParsed Str (parseString O rest)
          else if Ascii.eqb c "t" then literal "true" (Bool true) (String c rest)
          else if Ascii.eqb c "f" then literal "false" (Bool false) (String c rest)
          else if Ascii.eqb c "n" then literal "null" Null (String c rest)
          else if Ascii.eqb c "-" || isDigit c then parseNumber (String c rest)
          else SyntaxError
      end
  end
with parseElements (fuel : nat) (depth : N) (first : bool) (acc : list Value)
    (s : string) : Parse Value :=
  match fuel with
  | O => Unsupported
  | S fuel' =>
      let element (s : string) :=
        match parseValue fuel' depth s with
        | Parsed v rest => parseElements fuel' depth false (acc ++ [v]) rest
        | SyntaxError => SyntaxError
        | Unsupported => Unsupported
        end in
      match skipSpace s with
      | EmptyString => SyntaxError
      | String c rest =>
          if Ascii.eqb c "]" then Parsed (Array acc) rest
          else if first then element (String c rest)
          else if Ascii.eqb c "," then element rest
          else SyntaxError
      end
  end
with parseMembers (fuel : nat) (depth : N) (first : bool)
    (acc : list (string * Value)) (s : string) : Parse Value :=
  match fuel with
  | O => Unsupported
  | S fuel' =>
      let member (s : string) :=
        match skipSpace s with
        | EmptyString => SyntaxError
        | String q afterQuote =>
            if Ascii.eqb q quoteChar then
              match parseString O afterQuote with
              | Parsed key afterKey =>
                  match skipSpace afterKey with
                  | EmptyString => SyntaxError
                  | String colon afterColon =>
                      if Ascii.eqb colon ":" then
                        match parseValue fuel' depth afterColon with
                        | Parsed v rest =>
                            parseMembers fuel' depth false (mapSet key v acc) rest
                        | SyntaxError => SyntaxError
                        | Unsupported => Unsupported
                        end
                      else SyntaxError
                  end
              | SyntaxError => SyntaxError
              | Unsupported => Unsupported
              end
            else SyntaxError
        end in
      match skipSpace s with
      | EmptyString => SyntaxError
      | String c rest =>
          if Ascii.eqb c "}" then Parsed (Object acc) rest
          else if first then member (String c rest)
          else if Ascii.eqb c "," then member rest
          else SyntaxError
      end
  end.

(** What [Unmarshal(data, &m)] does to a nil [m] of type
    [map[string]interface{}]: it stores a map, leaves [m] nil on [null],
    or returns an error. *)
Inductive Unmarshalled :=
| StoredMap (m : list (string * Value))
| LeftNil
| UnmarshalError
| UnmarshalUnsupported.

Definition Unmarshal (data : string) : Unmarshalled :=
  match parseValue (2 * String.length data + 2) 0 data with
  | Parsed v rest =>
      match skipSpace rest with
      | EmptyString =>
          match v with
          | Object m => StoredMap m
          | Null => LeftNil
          | _ => UnmarshalError
          end
      | String _ _ => UnmarshalError
      end
  | SyntaxError => UnmarshalError
  | Unsupported => UnmarshalUnsupported
  end.

(** The entries of a map, each value marshalled, in the order of the list;
    the text of one entry; the order of the keys. *)
Definition marshalEntries (m : list (string * Value)) : list (string * string) :=
  (fun kv => (fst kv, Marshal (snd kv))) <$> m.

Definition entryText (e : string * string) : string :=
  quote (fst e) +:+ ":" +:+ snd e.

Definition keyLe (a b : string * string) : Prop :=
  String.leb (fst a) (fst b) = true.

(** A JSON text written with apostrophes in the place of its double
    quotes, for the statements below. *)
Fixpoint text (s : string) : string :=
  match s with
  | EmptyString => EmptyString
  | String c rest => String (if Ascii.eqb c "'" then quoteChar else c) (text rest)
  end.

End json.

(** ** The part of Go's [net/http] and [io] that the proxy calls *)

Module http.

(** A header map; its keys are in canonical form. *)
Definition Header_Set (k v : string) (h : gmap string (list string))
    : gmap string (list string) :=
  <[k := [v]]> h.

Definition Header_Add (k v : string) (h : gmap string (list string))
    : gmap string (list string) :=
  <[k := default [] (h !! k) ++ [v]]> h.

Inductive ReadError := EOF | ReadFailure.

(** [data[:n]] and [data[n:]], for [n] up to [len(data)]. *)
Fixpoint takeBytes (n : nat) (data : string) : string :=
  match n, data with
  | S n', String c data' => String c (takeBytes n' data')
  | _, _ => EmptyString
  end.

Fixpoint dropBytes (n : nat) (data : string) : string :=
  match n, data with
  | S n', String _ data' => dropBytes n' data'
  | _, _ => data
  end.

(** A stream, as the script of what its successive [Read] calls deliver:
    some bytes, and possibly the error that ends the stream.  A stream
    whose script is exhausted reports [EOF]. *)
Definition Reader := list (string * option ReadError).

(** [n, err := r.Read(buffer)] with [len(buffer) = size]: what does not fit
    the buffer stays in the stream. *)
Definition Read (size : nat) (r : Reader) : string * option ReadError * Reader :=
  match r with
  | [] => (EmptyString, Some EOF, [])
  | (data, err) :: r' =>
      if (String.length data <=? size)%nat then (data, err, r')
      else (takeBytes size data, None, (dropBytes size data, err) :: r')
  end.

(** [io.ReadAll]: everything up to the end of the stream, and the error
    that interrupted the reading if one did. *)
Fixpoint ReadAll (r : Reader) : string * option ReadError :=
  match r with
  | [] => (EmptyString, None)
  | (data, None) :: r' => let '(more, err) := ReadAll r' in (data +:+ more, err)
  | (data, Some EOF) :: _ => (data, None)
  | (data, Some ReadFailure) :: _ => (data, Some ReadFailure)
  end.

Record Request := mkRequest {
  Method   : string;
  Path     : string;     (* r.URL.Path *)
  RawQuery : string;     (* r.URL.RawQuery *)
  Header   : gmap string (list string);
  Body     : option Reader
}.

Record Response := mkResponse {
  StatusCode : Z;
  RespHeader : gmap string (list string);
  RespBody   : Reader
}.

(** What the response writer is asked to send. *)
Inductive WriterEvent :=
| EvWrite (data : string)
| EvFlush.

(** A response writer: the header map, the status line once it is written,
    and the writes and flushes so far. *)
Record ResponseWriter := mkResponseWriter {
  header : gmap string (list string);
  status : option Z;
  events : list WriterEvent
}.

Definition newResponseWriter : ResponseWriter :=
  {| header := ∅; status := None; events := [] |}.

Definition setHeader (k v : string) (w : ResponseWriter) : ResponseWriter :=
  {| header := Header_Set k v (header w); status := status w; events := events w |}.

Definition addHeader (k v : string) (w : ResponseWriter) : ResponseWriter :=
  {| header := Header_Add k v (header w); status := status w; events := events w |}.

(** Only the first [WriteHeader] counts. *)
Definition WriteHeader (statusCode : Z) (w : ResponseWriter) : ResponseWriter :=
  {| header := header w;
     status := match status w with Some c => Some c | None => Some statusCode end;
     events := events w |}.

Definition StatusOK : Z := 200.
Definition StatusBadRequest : Z := 400.
Definition StatusNotFound : Z := 404.
Definition StatusMethodNotAllowed : Z := 405.
Definition StatusInternalServerError : Z := 500.
Definition StatusBadGateway : Z := 502.
Definition StatusServiceUnavailable : Z := 503.

(** A write before any [WriteHeader] sends the status 200 first. *)
Definition Write (data : string) (w : ResponseWriter) : ResponseWriter :=
  let w := WriteHeader StatusOK w in
  {| header := header w; status := status w; events := events w ++ [EvWrite data] |}.

Definition Flush (w : ResponseWriter) : ResponseWriter :=
  let w := WriteHeader StatusOK w in
  {| header := header w; status := status w; events := events w ++ [EvFlush] |}.

(** The bytes handed to [Write], in order. *)
Fixpoint written (l : list WriterEvent) : string :=
  match l with
  | [] => EmptyString
  | EvWrite data :: l' => data +:+ written l'
  | EvFlush :: l' => written l'
  end.

(** The bytes that a stream delivers before it ends or fails. *)
Fixpoint delivered (r : Reader) : string :=
  match r with
  | [] => EmptyString
  | (data, None) :: r' => data +:+ delivered r'
  | (data, Some _) :: _ => data
  end.

(** Every write carries between one byte and [size] bytes and is followed
    at once by a flush. *)
Fixpoint flushedWrites (size : nat) (l : list WriterEvent) : Prop :=
  match l with
  | [] => True
  | EvWrite data :: EvFlush :: l' =>
      (0 < String.length data <= size)%nat /\ flushedWrites size l'
  | _ => False
  end.

(** A bound on the number of [Read] calls that exhaust a stream. *)
Fixpoint readerSize (r : Reader) : nat :=
  match r with
  | [] => 0
  | (data, _) :: r' => S (String.length data + readerSize r')
  end.

Definition copyBufferSize : nat := 32 * 1024.

(** The loop of [io.Copy], which reads through a buffer of 32 KiB and
    writes what it reads until the source reports an error; [None] when
    [fuel] iterations do not reach that point. *)
Fixpoint Copy (fuel : nat) (src : Reader) (w : ResponseWriter)
    : option ResponseWriter :=
  match fuel with
  | O => None
  | S fuel' =>
      let '(data, err, src') := Read copyBufferSize src in
      let w := if (0 <? String.length data)%nat then Write data w else w in
      match err with
      | Some _ => Some w
      | None => Copy fuel' src' w
      end
  end.

End http.

(** ** Package [proxy] *)

Module proxy.
Import go http.

Record AnthropicErrorResponse := mkAnthropicErrorResponse {
  Type_        : string;     (* Type *)
  ErrorType    : string;     (* Error.Type *)
  ErrorMessage : string      (* Error.Message *)
}.

(** [json.Marshal] of the struct: its fields in declaration order, under
    their tags. *)
Definition marshalAnthropicErrorResponse (e : AnthropicErrorResponse) : string :=
  "{" +:+ json.quote "type" +:+ ":" +:+ json.quote (Type_ e) +:+ ","
      +:+ json.quote "error" +:+ ":{"
      +:+ json.quote "type" +:+ ":" +:+ json.quote (ErrorType e) +:+ ","
      +:+ json.quote "message" +:+ ":" +:+ json.quote (ErrorMessage e) +:+ "}}".

(** Marshalling a struct of three strings cannot fail, so the fallback of
    the source is not reached. *)
Definition writeAnthropicError (statusCode : Z) (errorType message : string)
    (w : ResponseWriter) : ResponseWriter :=
  let errorResp :=
    {| Type_ := "error"; ErrorType := errorType;
       ErrorMessage := "CCENV " +:+ message |} in
  let w := setHeader "Content-Type" "application/json" w in
  let w := WriteHeader statusCode w in
  Write (marshalAnthropicErrorResponse errorResp) w.

(** *** Client sessions *)

Record ClientInfo := mkClientInfo {
  ID         : string;
  RegisterAt : Time;
  LastPing   : Time;
  PID        : Z;
  Hostname   : string
}.

(** A callback is known by a name; [None] is the nil func. *)
Definition Callback := string.

Record ClientManager := mkClientManager {
  clients : gmap string ClientInfo;
  onEmpty : option Callback
}.

Definition NewClientManager : ClientManager :=
  {| clients := ∅; onEmpty := None |}.

Definition SetOnEmptyCallback (callback : option Callback) (cm : ClientManager)
    : ClientManager :=
  {| clients := clients cm; onEmpty := callback |}.

Definition RegisterClient (clientID : string) (pid : Z) (hostname : string)
    (now : Time) (cm : ClientManager) : ClientManager :=
  {| clients := <[clientID := {| ID := clientID; RegisterAt := now; LastPing := now;
                                 PID := pid; Hostname := hostname |}]> (clients cm);
     onEmpty := onEmpty cm |}.

Definition UpdateHeartbeat (clientID : string) (now : Time) (cm : ClientManager)
    : ClientManager * bool :=
  match clients cm !! clientID with
  | Some client =>
      ({| clients := <[clientID := {| ID := ID client; RegisterAt := RegisterAt client;
                                      LastPing := now; PID := PID client;
                                      Hostname := Hostname client |}]> (clients cm);
          onEmpty := onEmpty cm |}, true)
  | None => (cm, false)
  end.

(** [go cm.onEmpty()] when [spawn] holds and a callback is set: the
    goroutines started. *)
Definition goOnEmpty (spawn : bool) (cm : ClientManager) : list Callback :=
  match onEmpty cm with
  | Some callback => if spawn then [callback] else []
  | None => []
  end.

(** The manager afterwards, the result, and the goroutines started. *)
Definition UnregisterClient (clientID : string) (cm : ClientManager)
    : ClientManager * bool * list Callback :=
  match clients cm !! clientID with
  | Some _ =>
      let cm' := {| clients := delete clientID (clients cm); onEmpty := onEmpty cm |} in
      let remainingCount := size (clients cm') in
      (cm', true, goOnEmpty (remainingCount =? 0)%nat cm')
  | None => (cm, false, [])
  end.

Definition GetClientCount (cm : ClientManager) : nat := size (clients cm).

(** The copies that [GetAllClients] and [GetClientInfo] hand out; [None] is
    the nil pointer. *)
Definition GetAllClients (cm : ClientManager) : gmap string ClientInfo := clients cm.

Definition GetClientInfo (clientID : string) (cm : ClientManager) : option ClientInfo :=
  clients cm !! clientID.

Definition inactive (now : Time) (timeout : Duration) (client : ClientInfo) : bool :=
  timeout <? Time_Sub now (LastPing client).

(** The manager afterwards, the number of clients removed, and the
    goroutines started. *)
Definition CleanupInactiveClients (timeout : Duration) (now : Time)
    (cm : ClientManager) : ClientManager * nat * list Callback :=
  let toRemove :=
    fst <$> map_to_list (filter (fun kv => inactive now timeout (snd kv) = true)
                                (clients cm)) in
  let cm' := {| clients := foldr delete (clients cm) toRemove;
                onEmpty := onEmpty cm |} in
  (cm', length toRemove,
   goOnEmpty ((size (clients cm') =? 0)%nat && (0 <? length toRemove)%nat) cm').

(** *** Forwarding *)

Record UpstreamRequest := mkUpstreamRequest {
  reqMethod : string;
  reqURL    : string;
  reqHeader : gmap string (list string);
  reqBody   : string
}.

Record ClientRequest := mkClientRequest {
  ClientID    : string;
  reqPID      : Z;
  reqHostname : string
}.

(** What one request meets outside the server: the clock readings of the
    calls on the provider manager, and the answers of the libraries. *)
Record Env := mkEnv {
  selectedAt          : Time;          (* time.Now() in GetNextProvider *)
  failedAt            : Time * Time;   (* time.Now(), twice, in RecordFailure *)
  registeredAt        : Time;          (* time.Now() in the client manager *)
  newRequestFails     : string -> string -> bool;  (* http.NewRequest(method, url, _) *)
  Do                  : UpstreamRequest -> option Response;  (* httpClient.Do *)
  isFlusher           : bool;          (* w.(http.Flusher) *)
  decodeClientRequest : option Reader -> ClientRequest + string
                                       (* json.NewDecoder(r.Body).Decode(&req) *)
}.

(** The state behind a [ProxyServer], with the record of what its handlers
    did to the provider manager, to the upstream and to the scheduler. *)
Record ProxyServer := mkProxyServer {
  providerManager : provider.ProviderManager;
  clientManager   : ClientManager;
  history         : list provider.Call;
  sent            : list UpstreamRequest;
  goroutines      : list Callback
}.

Inductive Outcome :=
| Done (w : ResponseWriter) (p : ProxyServer)
| Panicked (w : ResponseWriter) (p : ProxyServer)
| Unmodelled.

Definition GetNextProvider (env : Env) (p : ProxyServer) : ProxyServer * provider.Pick :=
  let '(pm, pick) := provider.GetNextProvider (selectedAt env) (providerManager p) in
  ({| providerManager := pm; clientManager := clientManager p;
      history := history p ++ [provider.CallSelect (selectedAt env)];
      sent := sent p; goroutines := goroutines p |}, pick).

Definition RecordFailure (env : Env) (providerName : string) (p : ProxyServer)
    : ProxyServer :=
  {| providerManager :=
       provider.RecordFailure providerName (fst (failedAt env)) (snd (failedAt env))
         (providerManager p);
     clientManager := clientManager p;
     history := history p ++ [provider.CallFailure providerName
                                (fst (failedAt env)) (snd (failedAt env))];
     sent := sent p; goroutines := goroutines p |}.

Definition RecordSuccess (providerName : string) (p : ProxyServer) : ProxyServer :=
  {| providerManager := provider.RecordSuccess providerName (providerManager p);
     clientManager := clientManager p;
     history := history p ++ [provider.CallSuccess providerName];
     sent := sent p; goroutines := goroutines p |}.

Definition send (req : UpstreamRequest) (p : ProxyServer) : ProxyServer :=
  {| providerManager := providerManager p; clientManager := clientManager p;
     history := history p; sent := sent p ++ [req]; goroutines := goroutines p |}.

Inductive Modified :=
| ModifiedBody (modifiedBytes : string)
| ModifyError
| ModifyPanic          (* assignment to an entry of a nil map *)
| ModifyUnmodelled.

Definition modifyRequestModel (bodyBytes targetModel : string) : Modified :=
  match json.Unmarshal bodyBytes with
  | json.UnmarshalError => ModifyError
  | json.UnmarshalUnsupported => ModifyUnmodelled
  | json.LeftNil => ModifyPanic
  | json.StoredMap requestBody =>
      ModifiedBody
        (json.Marshal (json.Object (json.mapSet "model" (json.Str targetModel) requestBody)))
  end.

(** The loop of [copyResponse] for a writer that can flush; [None] when
    [fuel] iterations do not reach the end of the body. *)
Fixpoint copyLoop (fuel : nat) (body : Reader) (w : ResponseWriter)
    : option ResponseWriter :=
  match fuel with
  | O => None
  | S fuel' =>
      let '(data, err, body') := Read 1024 body in
      let w := if (0 <? String.length data)%nat then Flush (Write data w) else w in
      match err with
      | Some _ => Some w
      | None => copyLoop fuel' body' w
      end
  end.

Definition copyHeaders (h : gmap string (list string)) (w : ResponseWriter)
    : ResponseWriter :=
  map_fold (fun key values w => foldl (fun w value => addHeader key value w) w values)
           w h.

Definition copyResponse (flusher : bool) (resp : Response) (w : ResponseWriter)
    : option ResponseWriter :=
  let w := copyHeaders (RespHeader resp) w in
  let w := WriteHeader (StatusCode resp) w in
  if flusher then copyLoop (S (readerSize (RespBody resp))) (RespBody resp) w
  else Copy (S (readerSize (RespBody resp))) (RespBody resp) w.

(** The credential header of the selected provider. *)
Definition setCredential (providerEnv : gmap string string)
    (h : gmap string (list string)) : gmap string (list string) :=
  let authToken := map_get providerEnv "ANTHROPIC_AUTH_TOKEN" in
  let apiKey := map_get providerEnv "ANTHROPIC_API_KEY" in
  if negb (String.eqb authToken EmptyString) then
    Header_Set "Authorization" ("Bearer " +:+ authToken) h
  else if negb (String.eqb apiKey EmptyString) then Header_Set "X-Api-Key" apiKey h
  else h.

(** From [httpClient.Do] to the end of [handleMessages] and of
    [forwardRequest], which are alike. *)
Definition doAndRelay (env : Env) (proxyReq : UpstreamRequest) (providerName : string)
    (w : ResponseWriter) (p : ProxyServer) : Outcome :=
  let p := send proxyReq p in
  match Do env proxyReq with
  | None =>
      let w := writeAnthropicError StatusBadGateway "api_error" "请求转发失败" w in
      Done w (RecordFailure env providerName p)
  | Some resp =>
      let p := if 500 <=? StatusCode resp then RecordFailure env providerName p
               else RecordSuccess providerName p in
      match copyResponse (isFlusher env) resp w with
      | Some w => Done w p
      | None => Unmodelled
      end
  end.

(** [handleMessages] once the provider is selected. *)
Definition forwardMessages (env : Env) (r : Request)
    (providerState : provider.ProviderState) (body : Reader)
    (w : ResponseWriter) (p : ProxyServer) : Outcome :=
  let cfg := provider.Provider providerState in
  match ReadAll body with
  | (_, Some _) =>
      let w := writeAnthropicError StatusBadRequest "invalid_request_error"
                 "读取请求体失败" w in
      Done w (RecordFailure env (config.Name cfg) p)
  | (bodyBytes, None) =>
      let targetModel := map_get (config.Env cfg) "ANTHROPIC_MODEL" in
      (* without a target model the body is only parsed for the log *)
      let modified :=
        if negb (String.eqb targetModel EmptyString)
        then modifyRequestModel bodyBytes targetModel
        else ModifiedBody bodyBytes in
      match modified with
      | ModifyError =>
          let w := writeAnthropicError StatusInternalServerError "api_error"
                     "修改请求模型失败" w in
          Done w (RecordFailure env (config.Name cfg) p)
      | ModifyPanic => Panicked w p
      | ModifyUnmodelled => Unmodelled
      | ModifiedBody modifiedBody =>
          let baseURL := map_get (config.Env cfg) "ANTHROPIC_BASE_URL" in
          let targetURL := baseURL +:+ "/v1/messages" in
          if newRequestFails env "POST" targetURL then
            let w := writeAnthropicError StatusInternalServerError "api_error"
                       "创建请求失败" w in
            Done w (RecordFailure env (config.Name cfg) p)
          else
            let h := setCredential (config.Env cfg) (Header r) in
            let h := Header_Set "Content-Length"
                       (json.itoa (Z.of_nat (String.length modifiedBody))) h in
            doAndRelay env
              {| reqMethod := "POST"; reqURL := targetURL;
                 reqHeader := h; reqBody := modifiedBody |}
              (config.Name cfg) w p
      end
  end.

(** Reading a nil body, like following a pointer that is not there, is a
    panic. *)
Definition handleMessages (env : Env) (r : Request) (w : ResponseWriter)
    (p : ProxyServer) : Outcome :=
  if negb (String.eqb (Method r) "POST") then
    Done (writeAnthropicError StatusMethodNotAllowed "invalid_request_error"
            "仅支持 POST 请求" w) p
  else
    let '(p, pick) := GetNextProvider env p in
    match pick with
    | provider.NoProviderAvailable =>
        Done (writeAnthropicError StatusServiceUnavailable "overloaded_error"
                "无可用的服务提供商" w) p
    | provider.IndexPanic => Panicked w p
    | provider.Picked i =>
        match provider.providers (providerManager p) !! i, Body r with
        | Some providerState, Some body => forwardMessages env r providerState body w p
        | _, _ => Panicked w p
        end
    end.

Definition forwardRequest (env : Env) (r : Request) (targetURL : string)
    (providerState : provider.ProviderState) (w : ResponseWriter) (p : ProxyServer)
    : Outcome :=
  let cfg := provider.Provider providerState in
  match match Body r with
        | Some body => ReadAll body
        | None => (EmptyString, None)
        end with
  | (_, Some _) =>
      let w := writeAnthropicError StatusBadRequest "invalid_request_error"
                 "读取请求体失败" w in
      Done w (RecordFailure env (config.Name cfg) p)
  | (bodyBytes, None) =>
      if newRequestFails env (Method r) targetURL then
        let w := writeAnthropicError StatusInternalServerError "api_error"
                   "创建请求失败" w in
        Done w (RecordFailure env (config.Name cfg) p)
      else
        let h := setCredential (config.Env cfg) (Header r) in
        let h := if (0 <? String.length bodyBytes)%nat
                 then Header_Set "Content-Length"
                        (json.itoa (Z.of_nat (String.length bodyBytes))) h
                 else h in
        doAndRelay env
          {| reqMethod := Method r; reqURL := targetURL;
             reqHeader := h; reqBody := bodyBytes |}
          (config.Name cfg) w p
  end.

(** The steps that [handleV1Routes] and [handleHealth] share: select a
    provider, then forward to the URL that [target] builds from its base
    URL. *)
Definition selectAndForward (env : Env) (r : Request) (target : string -> string)
    (w : ResponseWriter) (p : ProxyServer) : Outcome :=
  let '(p, pick) := GetNextProvider env p in
  match pick with
  | provider.NoProviderAvailable =>
      Done (writeAnthropicError StatusServiceUnavailable "overloaded_error"
              "无可用的服务提供商" w) p
  | provider.IndexPanic => Panicked w p
  | provider.Picked i =>
      match provider.providers (providerManager p) !! i with
      | None => Panicked w p
      | Some providerState =>
          let baseURL :=
            map_get (config.Env (provider.Provider providerState)) "ANTHROPIC_BASE_URL" in
          forwardRequest env r (target baseURL) providerState w p
      end
  end.

Definition handleV1Routes (env : Env) (r : Request) (w : ResponseWriter)
    (p : ProxyServer) : Outcome :=
  if String.eqb (Path r) "/v1/messages" then handleMessages env r w p
  else
    selectAndForward env r
      (fun baseURL =>
         let targetURL := baseURL +:+ Path r in
         if negb (String.eqb (RawQuery r) EmptyString) then targetURL +:+ "?" +:+ RawQuery r
         else targetURL)
      w p.

Definition handleHealth (env : Env) (r : Request) (w : ResponseWriter)
    (p : ProxyServer) : Outcome :=
  selectAndForward env r (fun baseURL => baseURL +:+ "/health") w p.

Definition handleCatchAll (env : Env) (r : Request) (w : ResponseWriter)
    (p : ProxyServer) : Outcome :=
  Done (writeAnthropicError StatusNotFound "invalid_request_error"
          ("路径 '" +:+ Path r +:+ "' 不存在或不被支持") w) p.

(** *** The client session endpoints *)

Record ClientResponse := mkClientResponse {
  Success : bool;
  Message : string;
  Count   : Z
}.

(** [json.NewEncoder(w).Encode(resp)]: the fields under their tags, the
    count left out when it is zero, and a line feed. *)
Definition encodeClientResponse (resp : ClientResponse) (w : ResponseWriter)
    : ResponseWriter :=
  Write ("{" +:+ json.quote "success" +:+ ":"
             +:+ (if Success resp then "true" else "false") +:+ ","
             +:+ json.quote "message" +:+ ":" +:+ json.quote (Message resp)
             +:+ (if Count resp =? 0 then EmptyString
                  else "," +:+ json.quote "count" +:+ ":" +:+ json.itoa (Count resp))
             +:+ "}" +:+ json.str (json.char 10)) w.

Definition refuse (statusCode : Z) (message : string) (w : ResponseWriter)
    : ResponseWriter :=
  let w := setHeader "Content-Type" "application/json" w in
  let w := WriteHeader statusCode w in
  encodeClientResponse {| Success := false; Message := message; Count := 0 |} w.

Definition setClientManager (cm : ClientManager) (spawned : list Callback)
    (p : ProxyServer) : ProxyServer :=
  {| providerManager := providerManager p; clientManager := cm;
     history := history p; sent := sent p;
     goroutines := goroutines p ++ spawned |}.

Definition handleClientRegister (env : Env) (r : Request) (w : ResponseWriter)
    (p : ProxyServer) : Outcome :=
  if negb (String.eqb (Method r) "POST") then
    Done (refuse StatusMethodNotAllowed "仅支持 POST 请求" w) p
  else
    match decodeClientRequest env (Body r) with
    | inr err => Done (refuse StatusBadRequest ("请求数据格式错误: " +:+ err) w) p
    | inl req =>
        let cm := RegisterClient (ClientID req) (reqPID req) (reqHostname req)
                    (registeredAt env) (clientManager p) in
        let p := setClientManager cm [] p in
        let w := setHeader "Content-Type" "application/json" w in
        Done (encodeClientResponse
                {| Success := true; Message := "客户端注册成功";
                   Count := Z.of_nat (GetClientCount cm) |} w) p
    end.

Definition handleClientUnregister (env : Env) (r : Request) (w : ResponseWriter)
    (p : ProxyServer) : Outcome :=
  if negb (String.eqb (Method r) "POST") then
    Done (refuse StatusMethodNotAllowed "仅支持 POST 请求" w) p
  else
    match decodeClientRequest env (Body r) with
    | inr err => Done (refuse StatusBadRequest ("请求数据格式错误: " +:+ err) w) p
    | inl req =>
        let '(cm, success, spawned) := UnregisterClient (ClientID req) (clientManager p) in
        let p := setClientManager cm spawned p in
        let w := setHeader "Content-Type" "application/json" w in
        if success then
          Done (encodeClientResponse
                  {| Success := true; Message := "客户端注销成功";
                     Count := Z.of_nat (GetClientCount cm) |} w) p
        else
          Done (encodeClientResponse
                  {| Success := false; Message := "客户端未找到或已注销";
                     Count := 0 |} w) p
    end.

Definition handleClientHeartbeat (env : Env) (r : Request) (w : ResponseWriter)
    (p : ProxyServer) : Outcome :=
  if negb (String.eqb (Method r) "POST") then
    Done (refuse StatusMethodNotAllowed "仅支持 POST 请求" w) p
  else
    match decodeClientRequest env (Body r) with
    | inr err => Done (refuse StatusBadRequest ("请求数据格式错误: " +:+ err) w) p
    | inl req =>
        let '(cm, success) := UpdateHeartbeat (ClientID req) (registeredAt env)
                                (clientManager p) in
        let p := setClientManager cm [] p in
        let w := setHeader "Content-Type" "application/json" w in
        if success then
          Done (encodeClientResponse
                  {| Success := true; Message := "心跳更新成功";
                     Count := Z.of_nat (GetClientCount cm) |} w) p
        else
          Done (encodeClientResponse
                  {| Success := false; Message := "客户端未注册，请先注册";
                     Count := 0 |} w) p
    end.

(** One tick of the cleanup ticker of [startClientCleanupTask], the clock
    reading [now]. *)
Definition cleanupTick (now : Time) (p : ProxyServer) : ProxyServer :=
  let '(cm, _, spawned) := CleanupInactiveClients (300 * Second) now (clientManager p) in
  setClientManager cm spawned p.

(** *** The routes *)

(** The handlers that [NewProxyServer] registers. *)
Inductive Route :=
| RouteClientRegister        (* "/ccenv/register" *)
| RouteClientUnregister      (* "/ccenv/unregister" *)
| RouteClientHeartbeat       (* "/ccenv/heartbeat" *)
| RouteClientStatus          (* "/ccenv/status" *)
| RouteClientInfo            (* "/ccenv/client/" *)
| RouteMessages              (* "/v1/messages" *)
| RouteV1                    (* "/v1/" *)
| RouteHealth                (* "/health" *)
| RouteUI                    (* "/ui/" *)
| RouteCatchAll              (* "/" *)
| RouteRedirect.             (* the multiplexer's own redirection to a subtree *)

Definition hasPrefix (prefix s : string) : bool :=
  match json.stripPrefix prefix s with
  | Some _ => true
  | None => false
  end.

(** The choice of [http.ServeMux] among these patterns, for a path in clean
    form: a pattern without final slash matches the path that equals it, one
    with a final slash matches the paths that start with it, the longest
    match wins, and a path that equals a subtree pattern short of its final
    slash is redirected to it. *)
Definition route (path : string) : Route :=
  if String.eqb path "/ccenv/register" then RouteClientRegister
  else if String.eqb path "/ccenv/unregister" then RouteClientUnregister
  else if String.eqb path "/ccenv/heartbeat" then RouteClientHeartbeat
  else if String.eqb path "/ccenv/status" then RouteClientStatus
  else if String.eqb path "/v1/messages" then RouteMessages
  else if String.eqb path "/health" then RouteHealth
  else if String.eqb path "/ccenv/client" || String.eqb path "/v1"
          || String.eqb path "/ui" then RouteRedirect
  else if hasPrefix "/ccenv/client/" path then RouteClientInfo
  else if hasPrefix "/v1/" path then RouteV1
  else if hasPrefix "/ui/" path then RouteUI
  else RouteCatchAll.

(** The server on one request, where the handler is one of those above; the
    status page, the queries on the sessions and the redirections are left
    out. *)
Definition ServeHTTP (env : Env) (r : Request) (w : ResponseWriter)
    (p : ProxyServer) : Outcome :=
  match route (Path r) with
  | RouteClientRegister => handleClientRegister env r w p
  | RouteClientUnregister => handleClientUnregister env r w p
  | RouteClientHeartbeat => handleClientHeartbeat env r w p
  | RouteMessages => handleMessages env r w p
  | RouteV1 => handleV1Routes env r w p
  | RouteHealth => handleHealth env r w p
  | RouteCatchAll => handleCatchAll env r w p
  | RouteClientStatus | RouteClientInfo | RouteUI | RouteRedirect => Unmodelled
  end.

(** The routes of the LLM API and the catch-all, which report their errors
    through [writeAnthropicError]. *)
Definition apiRoute (path : string) : bool :=
  match route path with
  | RouteMessages | RouteV1 | RouteHealth | RouteCatchAll => true
  | _ => false
  end.

(** *** Predicates of the statements *)

(** The body of an error that the proxy reports under [errorType] with the
    description [text]. *)
Definition errorEnvelope (errorType text : string) : string :=
  marshalAnthropicErrorResponse
    {| Type_ := "error"; ErrorType := errorType; ErrorMessage := "CCENV " +:+ text |}.

(** The call on the provider manager that follows an upstream response. *)
Definition recording (env : Env) (providerName : string) (resp : Response)
    : provider.Call :=
  if 500 <=? StatusCode resp
  then provider.CallFailure providerName (fst (failedAt env)) (snd (failedAt env))
  else provider.CallSuccess providerName.

(** What the three forwarding handlers have in common when the upstream
    has answered: the provider that the selection picked, and the relay
    and the recording that follow. *)
Definition responded (env : Env) (w w' : ResponseWriter) (p p' : ProxyServer)
    (resp : Response) : Prop :=
  exists i providerState,
    snd (provider.GetNextProvider (selectedAt env) (providerManager p))
      = provider.Picked i /\
    provider.providers
      (fst (provider.GetNextProvider (selectedAt env) (providerManager p))) !! i
      = Some providerState /\
    copyResponse (isFlusher env) resp w = Some w' /\
    history p' = history p
      ++ [provider.CallSelect (selectedAt env);
          recording env (config.Name (provider.Provider providerState)) resp] /\
    providerManager p' =
      provider.step
        (recording env (config.Name (provider.Provider providerState)) resp)
        (fst (provider.GetNextProvider (selectedAt env) (providerManager p))).

(** The answer is an error of the proxy's own. *)
Definition proxyError (w w' : ResponseWriter) : Prop :=
  exists statusCode errorType text,
    statusCode ∈ [400; 404; 405; 500; 502; 503] /\
    w' = writeAnthropicError statusCode errorType text w.

(** The answer is the relay of the response to the last request sent. *)
Definition upstreamRelay (env : Env) (w w' : ResponseWriter) (p' : ProxyServer) : Prop :=
  exists req resp,
    last (sent p') = Some req /\ Do env req = Some resp /\
    copyResponse (isFlusher env) resp w = Some w'.

(** How a request ends once the provider [providerName] is selected: the
    proxy rejects it before anything is sent, or the request is sent and
    either the upstream cannot be reached or it answers. *)
Definition attempted (env : Env) (providerName : string)
    (w w' : ResponseWriter) (p p' : ProxyServer) : Prop :=
  (exists statusCode errorType text,
     statusCode ∈ [400; 500] /\
     w' = writeAnthropicError statusCode errorType text w /\
     p' = RecordFailure env providerName p) \/
  (exists req,
     Do env req = None /\
     w' = writeAnthropicError StatusBadGateway "api_error" "请求转发失败" w /\
     p' = RecordFailure env providerName (send req p)) \/
  (exists req resp,
     Do env req = Some resp /\
     copyResponse (isFlusher env) resp w = Some w' /\
     p' = if 500 <=? StatusCode resp
          then RecordFailure env providerName (send req p)
          else RecordSuccess providerName (send req p)).

Definition writerOf (o : Outcome) : ResponseWriter :=
  match o with
  | Done w _ | Panicked w _ => w
  | Unmodelled => newResponseWriter
  end.

Definition serverOf (o : Outcome) (p : ProxyServer) : ProxyServer :=
  match o with
  | Done _ p' | Panicked _ p' => p'
  | Unmodelled => p
  end.

End proxy.

(** ** Sample configurations *)

Module examples.
Import go.

Definition env (bindings : list (string * string)) : gmap string string :=
  list_to_map bindings.

(** A provider that is "on" and holds a bearer token. *)
Definition tokenProvider (name : string) : config.Provider :=
  {| config.Name := name; config.State := "on";
     config.Env := env [("ANTHROPIC_BASE_URL", "https://api.example.com");
                        ("ANTHROPIC_AUTH_TOKEN", "sk-1")] |}.

(** A provider that is "on" and holds neither a token nor a key. *)
Definition bareProvider (name : string) : config.Provider :=
  {| config.Name := name; config.State := "on";
     config.Env := env [("ANTHROPIC_BASE_URL", "https://api.example.com")] |}.

Definition offProvider (name : string) : config.Provider :=
  {| config.Name := name; config.State := "off";
     config.Env := env [("ANTHROPIC_BASE_URL", "https://api.example.com");
                        ("ANTHROPIC_API_KEY", "sk-2")] |}.

Definition configOf (strategy : string) (l : list config.Provider) : config.Config :=
  {| config.Providers := l; config.routing := {| config.Strategy := strategy |} |}.

(** Five failures of one provider, all read off the clock at [t]. *)
Definition fiveFailures (name : string) (t : Time) (pm : provider.ProviderManager)
    : provider.ProviderManager :=
  provider.RecordFailure name t t
    (provider.recordFailures name [(t, t); (t, t); (t, t); (t, t)] pm).

(** One provider with a token, failover strategy. *)
Definition soloManager : provider.ProviderManager :=
  provider.NewProviderManager (configOf "default" [tokenProvider "A"]).

(** The clock reading of the failures of the samples, and the deadline of
    the cooldown they start. *)
Definition tFail : Time := 1000.
Definition tDeadline : Time := Time_Add tFail (5 * Minute).

(** [A] is "off", [B] and [C] are "on" with a credential. *)
Definition trioManager (strategy : string) : provider.ProviderManager :=
  provider.NewProviderManager
    (configOf strategy [offProvider "A"; tokenProvider "B"; tokenProvider "C"]).

Definition robinConfig : config.Config :=
  configOf "robin" [tokenProvider "A"; tokenProvider "B"; tokenProvider "C"].

(** A provider without credentials, alone. *)
Definition bareManager : provider.ProviderManager :=
  provider.NewProviderManager (configOf "default" [bareProvider "x"]).

(** A provider without credentials that shares its name with a provider
    that has a token; the configuration loader accepts this. *)
Definition sharedNameManager : provider.ProviderManager :=
  provider.NewProviderManager
    (configOf "default" [bareProvider "x"; tokenProvider "x"]).

(** One upstream answer, delivered in one piece and in two. *)
Definition wholeResponse : http.Response :=
  {| http.StatusCode := 200; http.RespHeader := ∅;
     http.RespBody := [("abcdef", Some http.EOF)] |}.

Definition splitResponse : http.Response :=
  {| http.StatusCode := 200; http.RespHeader := ∅;
     http.RespBody := [("abc", None); ("def", None)] |}.

(** A session "X" whose last heartbeat dates from [tFail], with a callback
    registered. *)
Definition sweepManager : proxy.ClientManager :=
  proxy.SetOnEmptyCallback (Some "shutdown")
    (proxy.RegisterClient "X" 4242 "localhost" tFail proxy.NewClientManager).

(** An environment whose upstream cannot be reached. *)
Definition deafEnv : proxy.Env :=
  {| proxy.selectedAt := tFail; proxy.failedAt := (tFail, tFail);
     proxy.registeredAt := tFail;
     proxy.newRequestFails := fun _ _ => false;
     proxy.Do := fun _ => None;
     proxy.isFlusher := true;
     proxy.decodeClientRequest := fun _ => inr "EOF" |}.

(** An environment whose upstream answers every request with [resp]. *)
Definition answeringEnv (resp : http.Response) : proxy.Env :=
  {| proxy.selectedAt := tFail; proxy.failedAt := (tFail, tFail);
     proxy.registeredAt := tFail;
     proxy.newRequestFails := fun _ _ => false;
     proxy.Do := fun _ => Some resp;
     proxy.isFlusher := true;
     proxy.decodeClientRequest := fun _ => inr "EOF" |}.

Definition freshServer (pm : provider.ProviderManager) : proxy.ProxyServer :=
  {| proxy.providerManager := pm; proxy.clientManager := proxy.NewClientManager;
     proxy.history := []; proxy.sent := []; proxy.goroutines := [] |}.

Definition request (method path body : string) : http.Request :=
  {| http.Method := method; http.Path := path; http.RawQuery := EmptyString;
     http.Header := ∅; http.Body := Some [(body, Some http.EOF)] |}.

(** Every provider is "off". *)
Definition offManager : provider.ProviderManager :=
  provider.NewProviderManager (configOf "default" [offProvider "A"; offProvider "B"]).

(** An upstream failure. *)
Definition failureResponse : http.Response :=
  {| http.StatusCode := 503; http.RespHeader := ∅;
     http.RespBody := [("upstream is down", Some http.EOF)] |}.

(** The body of the primary example of the design document, its target
    model, and the body it expects upstream. *)
Definition chatBody : string :=
  json.text "{'model':'claude-3-5-sonnet','messages':[]}".
Definition targetModel : string := "deepseek-ai/DeepSeek-V3".
Definition expectedBody : string :=
  json.text "{'model':'deepseek-ai/DeepSeek-V3','messages':[]}".

(** The same request with another layout and a larger payload. *)
Definition spacedBody : string :=
  json.text "{ 'model': 'claude-3-5-sonnet', 'max_tokens': 1024, 'stream': true }".

(** A provider that rewrites the model. *)
Definition rewritingProvider : config.Provider :=
  {| config.Name := "siliconflow"; config.State := "on";
     config.Env := env [("ANTHROPIC_BASE_URL", "https://api.siliconflow.cn");
                        ("ANTHROPIC_AUTH_TOKEN", "sk-1");
                        ("ANTHROPIC_MODEL", targetModel)] |}.

(** An environment in which the body of a session request decodes to
    [req]. *)
Definition sessionEnv (req : proxy.ClientRequest) : proxy.Env :=
  {| proxy.selectedAt := tFail; proxy.failedAt := (tFail, tFail);
     proxy.registeredAt := tFail;
     proxy.newRequestFails := fun _ _ => false;
     proxy.Do := fun _ => None;
     proxy.isFlusher := true;
     proxy.decodeClientRequest := fun _ => inl req |}.

(** The request of the session "X" of [sweepManager]. *)
Definition sessionRequest : proxy.ClientRequest :=
  {| proxy.ClientID := "X"; proxy.reqPID := 4242; proxy.reqHostname := "localhost" |}.

Definition settingsOf (version : string) : config.Settings :=
  config.mkSettings version EmptyString "localhost" 9999 EmptyString "INFO" 600000
                    examples.robinConfig.

Definition settingsPath : string := "/home/user/.claude-code-env/settings.json".

Definition freshWatcher : config.ConfigWatcher :=
  config.mkConfigWatcher settingsPath None None Time_zero.

(** The file is written at [now], and read as version [version]. *)
Definition written (now : Time) (version : string) : config.Action :=
  config.Receive
    (config.FileEvent settingsPath true false now (now + 1) (inl (settingsOf version))).

End examples.

(** * Properties of the provider router *)

Module provider_theory.
Import go provider.

(** ** The available set *)

Lemma availableFrom_spec l : forall i k,
  k ∈ availableFrom i l <->
  exists j ps, k = (i + j)%nat /\ l !! j = Some ps /\ isAvailable ps = true.
Proof.
  induction l as [|ps l IH]; intros i k; simpl.
  - split; [intros H; inversion H | intros (j & ps & _ & H & _); discriminate].
  - destruct (isAvailable ps) eqn:Hav.
    + rewrite elem_of_cons, IH. split.
      * intros [-> | (j & ps' & -> & Hj & Hps)].
        -- exists 0%nat, ps. split; [lia | done].
        -- exists (S j), ps'. split; [lia | done].
      * intros (j & ps' & -> & Hj & Hps). destruct j as [|j]; simpl in Hj.
        -- left. lia.
        -- right. exists j, ps'. split; [lia | done].
    + rewrite IH. split.
      * intros (j & ps' & -> & Hj & Hps). exists (S j), ps'. split; [lia | done].
      * intros (j & ps' & -> & Hj & Hps). destruct j as [|j]; simpl in Hj.
        -- congruence.
        -- exists j, ps'. split; [lia | done].
Qed.

Lemma elem_of_getAvailableProviders pm k :
  k ∈ getAvailableProviders pm <->
  exists ps, providers pm !! k = Some ps /\ isAvailable ps = true.
Proof.
  unfold getAvailableProviders. rewrite availableFrom_spec. split.
  - intros (j & ps & -> & H1 & H2). eauto.
  - intros (ps & H1 & H2). exists k, ps. done.
Qed.

Lemma existsb_eqb_elem_of (i : nat) (l : list nat) :
  existsb (Nat.eqb i) l = true <-> i ∈ l.
Proof.
  rewrite existsb_exists, list_elem_of_In. split.
  - intros (x & Hin & Heq). apply Nat.eqb_eq in Heq. by subst.
  - intros Hin. exists i. split; [done | apply Nat.eqb_refl].
Qed.

Lemma isAvailable_true ps :
  isAvailable ps = true <->
  config.State (Provider ps) = "on" /\ IsDisabled ps = false.
Proof.
  unfold isAvailable. rewrite andb_true_iff, negb_true_iff, String.eqb_eq. done.
Qed.

Lemma firstAvailable_unique l i j :
  firstAvailable l i -> firstAvailable l j -> i = j.
Proof.
  intros [(ps & Hi & Hps) Hlt] [(ps' & Hj & Hps') Hlt'].
  destruct (Nat.lt_trichotomy i j) as [H | [H | H]]; [|done|].
  - exfalso. by apply (Hlt' i ps).
  - exfalso. by apply (Hlt j ps').
Qed.

(** The scan of [getNextDefault] over the tail of the slice that starts at
    index [i], against the available pointers of the whole slice. *)
Lemma defaultScan_spec (whole : list ProviderState) : forall l i,
  whole = take i whole ++ l -> i = length (take i whole) ->
  match defaultScan i l (availableFrom 0 whole) with
  | Some k =>
      (i <= k)%nat /\
      (exists ps, whole !! k = Some ps /\ isAvailable ps = true) /\
      (forall j ps, (i <= j < k)%nat -> whole !! j = Some ps -> isAvailable ps = false)
  | None => forall j ps, (i <= j)%nat -> whole !! j = Some ps -> isAvailable ps = false
  end.
Proof.
  induction l as [|ps l IH]; intros i Hw Hi; simpl.
  - intros j ps Hj Hlk. apply lookup_lt_Some in Hlk.
    rewrite Hw, length_app, <- Hi in Hlk. simpl in Hlk. lia.
  - assert (Hlk : whole !! i = Some ps).
    { rewrite Hw at 1. rewrite lookup_app_r by lia.
      replace (i - length (take i whole))%nat with 0%nat by lia. done. }
    destruct (existsb (Nat.eqb i) (availableFrom 0 whole)) eqn:Hex.
    + apply existsb_eqb_elem_of, availableFrom_spec in Hex.
      destruct Hex as (j & ps' & -> & H1 & H2). simpl in *.
      split; [lia|]. split; [eauto|]. intros; lia.
    + assert (Hna : isAvailable ps = false).
      { destruct (isAvailable ps) eqn:Hav; [|done].
        assert (i ∈ availableFrom 0 whole) as Hin.
        { apply availableFrom_spec. exists i, ps. done. }
        apply existsb_eqb_elem_of in Hin. congruence. }
      assert (Hlen : (i < length whole)%nat) by (by apply lookup_lt_Some in Hlk).
      specialize (IH (S i)).
      assert (Htk : take (S i) whole = take i whole ++ [ps]).
      { by apply take_S_r. }
      assert (HS : whole = take (S i) whole ++ l).
      { rewrite Htk, <- app_assoc. simpl. done. }
      assert (HSl : S i = length (take (S i) whole)).
      { rewrite length_take. lia. }
      specialize (IH HS HSl).
      destruct (defaultScan (S i) l (availableFrom 0 whole)) as [k|].
      * destruct IH as (Hk & Hex' & Hbefore). split; [lia|]. split; [done|].
        intros j ps' Hj Hj'. destruct (decide (j = i)) as [->|Hne].
        -- congruence.
        -- apply (Hbefore j ps'); [lia | done].
      * intros j ps' Hj Hj'. destruct (decide (j = i)) as [->|Hne].
        -- congruence.
        -- apply (IH j ps'); [lia | done].
Qed.

Lemma getNextDefault_spec pm :
  match getNextDefault pm (getAvailableProviders pm) with
  | Picked k => firstAvailable (providers pm) k
  | _ => forall ps, ps ∈ providers pm -> isAvailable ps = false
  end.
Proof.
  unfold getNextDefault, getAvailableProviders.
  pose proof (defaultScan_spec (providers pm) (providers pm) 0%nat) as H.
  rewrite take_0 in H. specialize (H eq_refl eq_refl).
  destruct (defaultScan 0 (providers pm) (availableFrom 0 (providers pm))) as [k|].
  - destruct H as (_ & (ps & Hk & Hav) & Hbefore). split.
    + exists ps. split; [done|]. by apply isAvailable_true.
    + intros j ps' Hj Hlk Hon. apply isAvailable_true in Hon.
      rewrite (Hbefore j ps') in Hon; [done | lia | done].
  - assert (Hnone : forall ps, ps ∈ providers pm -> isAvailable ps = false).
    { intros ps Hin. apply list_elem_of_lookup in Hin as [j Hj].
      apply (H j ps); [lia | done]. }
    unfold index. change (Z.to_nat 0) with 0%nat. simpl (0 <? 0).
    destruct (availableFrom 0 (providers pm) !! 0%nat) as [k|] eqn:Hk; [|exact Hnone].
    apply list_elem_of_lookup_2, availableFrom_spec in Hk.
    destruct Hk as (j & ps & _ & Hj & Hav).
    rewrite (Hnone ps) in Hav; [done|]. by eapply list_elem_of_lookup_2.
Qed.

Lemma length_getAvailableProviders_0 pm :
  (length (getAvailableProviders pm) =? 0)%nat = true <->
  forall ps, ps ∈ providers pm -> isAvailable ps = false.
Proof.
  rewrite Nat.eqb_eq, length_zero_iff_nil. split.
  - intros Hnil ps Hin. apply list_elem_of_lookup in Hin as [j Hj].
    destruct (isAvailable ps) eqn:Hav; [|done].
    assert (j ∈ getAvailableProviders pm) as Hin'.
    { apply elem_of_getAvailableProviders. eauto. }
    rewrite Hnil in Hin'. inversion Hin'.
  - intros Hnone. destruct (getAvailableProviders pm) as [|k l] eqn:Heq; [done|].
    assert (k ∈ getAvailableProviders pm) as Hin by (rewrite Heq; apply list_elem_of_here).
    apply elem_of_getAvailableProviders in Hin as (ps & Hk & Hav).
    rewrite (Hnone ps) in Hav; [done|]. by eapply list_elem_of_lookup_2.
Qed.

(** ** Failover *)

Lemma Provider_updateProviderState now ps :
  Provider (updateProviderState now ps) = Provider ps.
Proof. unfold updateProviderState. by destruct (_ && _). Qed.

Lemma isAvailable_updateProviderState now ps :
  isAvailable (updateProviderState now ps) = true <-> availableAt now ps.
Proof.
  rewrite isAvailable_true, Provider_updateProviderState. done.
Qed.

Lemma GetNextProvider_default now pm :
  routingStrategy pm <> "robin" ->
  GetNextProvider now pm =
    (updateProviderStates now pm,
     if (length (getAvailableProviders (updateProviderStates now pm)) =? 0)%nat
     then NoProviderAvailable
     else getNextDefault (updateProviderStates now pm)
            (getAvailableProviders (updateProviderStates now pm))).
Proof.
  intros Hs. unfold GetNextProvider.
  destruct (length _ =? 0)%nat; [done|].
  simpl. apply String.eqb_neq in Hs. by rewrite Hs.
Qed.

Lemma firstAvailable_updated now l i :
  firstAvailable (updateProviderState now <$> l) i <->
  (exists ps, l !! i = Some ps /\ availableAt now ps) /\
  (forall j ps, (j < i)%nat -> l !! j = Some ps -> ~ availableAt now ps).
Proof.
  unfold firstAvailable, availableAt. split.
  - intros [(ps & Hi & Hon & Hdis) Hlt].
    rewrite list_lookup_fmap in Hi.
    destruct (l !! i) as [ps0|] eqn:Hi0; [|done]. simpl in Hi.
    injection Hi as <-. rewrite Provider_updateProviderState in Hon. split.
    + by exists ps0.
    + intros j ps Hj Hlk [Hon' Hdis'].
      apply (Hlt j (updateProviderState now ps) Hj).
      * by rewrite list_lookup_fmap, Hlk.
      * by rewrite Provider_updateProviderState.
  - intros [(ps & Hi & Hon & Hdis) Hlt]. split.
    + exists (updateProviderState now ps). rewrite list_lookup_fmap, Hi.
      by rewrite Provider_updateProviderState.
    + intros j ps' Hj Hlk [Hon' Hdis'].
      rewrite list_lookup_fmap in Hlk.
      destruct (l !! j) as [ps0|] eqn:Hj0; [|done]. simpl in Hlk.
      injection Hlk as <-. rewrite Provider_updateProviderState in Hon'.
      by apply (Hlt j ps0).
Qed.

Lemma GetNextProvider_default_pick now pm :
  routingStrategy pm <> "robin" ->
  forall i, snd (GetNextProvider now pm) = Picked i <->
     (exists ps, providers pm !! i = Some ps /\ availableAt now ps) /\
     (forall j ps, (j < i)%nat -> providers pm !! j = Some ps ->
                   ~ availableAt now ps).
Proof.
  intros Hs.
  intros i. rewrite GetNextProvider_default by done. simpl.
    rewrite <- firstAvailable_updated.
    pose proof (getNextDefault_spec (updateProviderStates now pm)) as Hd.
    pose proof (length_getAvailableProviders_0 (updateProviderStates now pm)) as H0.
    simpl in Hd, H0.
    assert (Hsome : forall i, firstAvailable (updateProviderState now <$> providers pm) i ->
              exists ps, ps ∈ updateProviderState now <$> providers pm /\
                         isAvailable ps = true).
    { intros k [(ps & Hk & Hon) _]. exists ps. split.
      - by eapply list_elem_of_lookup_2.
      - by apply isAvailable_true. }
    destruct (length _ =? 0)%nat.
    - split; [done|]. intros (ps & Hin & Hav)%Hsome.
      rewrite (proj1 H0 eq_refl ps Hin) in Hav. done.
    - destruct (getNextDefault _ _) as [k| |].
      + split; [by intros [= <-] | intros Hi; f_equal; by eapply firstAvailable_unique].
      + split; [done|]. intros (ps & Hin & Hav)%Hsome.
        rewrite (Hd ps Hin) in Hav. done.
      + split; [done|]. intros (ps & Hin & Hav)%Hsome.
        rewrite (Hd ps Hin) in Hav. done.
Qed.

(** C3 (failover determinism).  Under any strategy other than "robin" (the
    [default] branch of the switch, which "default" takes), a selection at
    time [now] reconciles the cooldowns and returns the first provider, in
    configuration order, that is configured "on" and not disabled at [now];
    it fails exactly when there is none.  The pick is a function of the
    provider states alone: two managers with the same states pick alike
    whatever their cursors, and the cursor is left as it was.  With three
    providers of which the first is not available and the third is, the
    pick is the second as long as it is available and the third once it is
    not. *)
Theorem failover_determinism (now : Time) (pm : ProviderManager) :
  routingStrategy pm <> "robin" ->
  (forall i, snd (GetNextProvider now pm) = Picked i <->
     (exists ps, providers pm !! i = Some ps /\ availableAt now ps) /\
     (forall j ps, (j < i)%nat -> providers pm !! j = Some ps ->
                   ~ availableAt now ps)) /\
  (snd (GetNextProvider now pm) = NoProviderAvailable <->
     forall ps, ps ∈ providers pm -> ~ availableAt now ps) /\
  snd (GetNextProvider now pm) <> IndexPanic /\
  (forall pm2, routingStrategy pm2 <> "robin" -> providers pm2 = providers pm ->
     snd (GetNextProvider now pm2) = snd (GetNextProvider now pm)) /\
  robinIndex (fst (GetNextProvider now pm)) = robinIndex pm /\
  (forall a b c, providers pm = [a; b; c] ->
     ~ availableAt now a -> availableAt now c ->
     (availableAt now b -> snd (GetNextProvider now pm) = Picked 1) /\
     (~ availableAt now b -> snd (GetNextProvider now pm) = Picked 2)).
Proof.
  intros Hs.
  pose proof (GetNextProvider_default_pick now pm Hs) as Hpick.
  assert (Hnone : snd (GetNextProvider now pm) = NoProviderAvailable <->
     forall ps, ps ∈ providers pm -> ~ availableAt now ps).
  { rewrite GetNextProvider_default by done. simpl.
    pose proof (getNextDefault_spec (updateProviderStates now pm)) as Hd.
    pose proof (length_getAvailableProviders_0 (updateProviderStates now pm)) as H0.
    simpl in Hd, H0.
    assert (Hall : (forall ps, ps ∈ updateProviderState now <$> providers pm ->
                      isAvailable ps = false) <->
                   (forall ps, ps ∈ providers pm -> ~ availableAt now ps)).
    { split.
      - intros H ps Hin Hav. apply isAvailable_updateProviderState in Hav.
        rewrite H in Hav; [done|]. by apply list_elem_of_fmap_2.
      - intros H ps (ps0 & -> & Hin)%list_elem_of_fmap.
        destruct (isAvailable _) eqn:Hav; [|done].
        apply isAvailable_updateProviderState in Hav. by apply H in Hav. }
    rewrite <- Hall.
    destruct (length _ =? 0)%nat eqn:Hlen.
    - split; [intros _; by apply H0 | done].
    - destruct (getNextDefault _ _) as [k| |] eqn:Hg.
      + split; [done|]. intros H. apply H0 in H. done.
      + done.
      + split; [done|]. intros H. apply H0 in H. done. }
  assert (Hpanic : snd (GetNextProvider now pm) <> IndexPanic).
  { rewrite GetNextProvider_default by done. simpl.
    pose proof (getNextDefault_spec (updateProviderStates now pm)) as Hd.
    pose proof (length_getAvailableProviders_0 (updateProviderStates now pm)) as H0.
    simpl in Hd, H0.
    destruct (length _ =? 0)%nat eqn:Hlen; [done|].
    destruct (getNextDefault _ _) as [k| |]; [done|done|].
    apply H0 in Hd. done. }
  split; [exact Hpick|]. split; [exact Hnone|]. split; [exact Hpanic|].
  split; [|split].
  - intros pm2 Hs2 Hp. rewrite !GetNextProvider_default by done. simpl.
    unfold getAvailableProviders, getNextDefault. simpl. by rewrite Hp.
  - rewrite GetNextProvider_default by done. done.
  - intros a b c Hp Ha Hc. split.
    + intros Hb. apply Hpick. rewrite Hp. split.
      * by exists b.
      * intros j ps Hj Hlk. destruct j as [|j]; [|lia].
        simpl in Hlk. by injection Hlk as <-.
    + intros Hb. apply Hpick. rewrite Hp. split.
      * by exists c.
      * intros j ps Hj Hlk. destruct j as [|[|j]]; [| |lia].
        -- simpl in Hlk. by injection Hlk as <-.
        -- simpl in Hlk. by injection Hlk as <-.
Qed.

(** ** Round robin *)

Lemma updateProviderState_enabled now ps :
  IsDisabled ps = false -> updateProviderState now ps = ps.
Proof. intros H. unfold updateProviderState. by rewrite H. Qed.

Lemma updateProviderStates_ready now pm :
  Forall ready (providers pm) -> updateProviderStates now pm = pm.
Proof.
  intros Hall. destruct pm as [l s k]. unfold updateProviderStates. simpl in *.
  f_equal. induction Hall as [|ps l [_ Hps] _ IH]; [done|].
  rewrite fmap_cons. by rewrite updateProviderState_enabled, IH.
Qed.

Lemma availableFrom_ready l : forall i,
  Forall ready l -> availableFrom i l = seq i (length l).
Proof.
  induction l as [|ps l IH]; intros i Hall; [done|].
  inversion Hall as [|? ? Hps Hl]; subst. simpl.
  apply isAvailable_true in Hps. rewrite Hps. by rewrite IH.
Qed.

Lemma wrap_int_small x : minInt64 <= x <= maxInt64 -> wrap_int x = x.
Proof.
  unfold wrap_int, minInt64, maxInt64. intros H.
  rewrite Z.mod_small by lia. lia.
Qed.

(** One selection of the rotation: with every provider ready and the cursor
    at [k], the pick is provider [k] and the cursor moves to [k + 1]. *)
Lemma GetNextProvider_robin_ready now pm (k : nat) :
  routingStrategy pm = "robin" ->
  Forall ready (providers pm) ->
  (2 <= length (providers pm))%nat ->
  Z.of_nat (length (providers pm)) <= maxInt64 ->
  robinIndex pm = Z.of_nat k ->
  (k < length (providers pm))%nat ->
  GetNextProvider now pm = (setRobinIndex pm (Z.of_nat (S k)), Picked k).
Proof.
  intros Hs Hall HN Hmax Hk Hlt. unfold GetNextProvider.
  rewrite updateProviderStates_ready by done.
  unfold getAvailableProviders. rewrite availableFrom_ready by done.
  rewrite length_seq.
  destruct (length (providers pm) =? 0)%nat eqn:H0;
    [apply Nat.eqb_eq in H0; lia|].
  rewrite Hs. simpl (String.eqb _ _). cbv iota.
  unfold getNextRobin. rewrite length_seq.
  destruct (length (providers pm) =? 1)%nat eqn:H1;
    [apply Nat.eqb_eq in H1; lia|].
  rewrite Hk, Z.rem_small by lia.
  unfold index. destruct (Z.of_nat k <? 0) eqn:Hneg; [lia|].
  rewrite Nat2Z.id, lookup_seq_lt by done. simpl.
  rewrite wrap_int_small by (unfold minInt64, maxInt64 in *; lia).
  do 2 f_equal. lia.
Qed.

Lemma run_selects_robin_ready times : forall pm (k : nat),
  routingStrategy pm = "robin" ->
  Forall ready (providers pm) ->
  (2 <= length (providers pm))%nat ->
  Z.of_nat (length (providers pm)) <= maxInt64 ->
  robinIndex pm = Z.of_nat k ->
  (k + length times <= length (providers pm))%nat ->
  snd (run (CallSelect <$> times) pm) = Picked <$> seq k (length times).
Proof.
  induction times as [|now times IH]; intros pm k Hs Hall HN Hmax Hk Hlen; [done|].
  simpl in *.
  rewrite (GetNextProvider_robin_ready now pm k) by (done || lia).
  specialize (IH (setRobinIndex pm (Z.of_nat (S k))) (S k)).
  simpl in IH. destruct (run _ _) as [pm2 picks]. simpl in *.
  f_equal. apply IH; try done. lia.
Qed.

Lemma newProviderState_ready p :
  config.State p = "on" ->
  map_get (config.Env p) "ANTHROPIC_AUTH_TOKEN" <> EmptyString \/
  map_get (config.Env p) "ANTHROPIC_API_KEY" <> EmptyString ->
  ready (newProviderState p).
Proof.
  intros Hon Hcred. unfold ready, newProviderState. simpl. split; [done|].
  rewrite Hon. simpl.
  destruct Hcred as [H | H]; apply String.eqb_neq in H; rewrite H; simpl.
  - done.
  - by rewrite andb_false_r.
Qed.

(** C2 (round-robin fairness).  A router freshly built from a configuration
    with strategy "robin" whose [N >= 2] providers are all "on" and carry a
    credential answers [N] consecutive selections, made at any times, with
    the providers [0], [1], ..., [N-1] in that order, hence each exactly
    once.  And whenever a single provider is available, a selection returns
    it and leaves the cursor alone. *)
Theorem round_robin_fairness (cfg : config.Config) (times : list Time) :
  config.Strategy (config.routing cfg) = "robin" ->
  Forall (fun p => config.State p = "on" /\
                   (map_get (config.Env p) "ANTHROPIC_AUTH_TOKEN" <> EmptyString \/
                    map_get (config.Env p) "ANTHROPIC_API_KEY" <> EmptyString))
         (config.Providers cfg) ->
  (2 <= length (config.Providers cfg))%nat ->
  Z.of_nat (length (config.Providers cfg)) <= maxInt64 ->
  length times = length (config.Providers cfg) ->
  snd (run (CallSelect <$> times) (NewProviderManager cfg))
    = Picked <$> seq 0 (length (config.Providers cfg)) /\
  (forall now pm i,
     routingStrategy pm = "robin" ->
     getAvailableProviders (updateProviderStates now pm) = [i] ->
     GetNextProvider now pm = (updateProviderStates now pm, Picked i) /\
     robinIndex (fst (GetNextProvider now pm)) = robinIndex pm).
Proof.
  intros Hs Hall HN Hmax Hlen. split.
  - rewrite <- Hlen. apply run_selects_robin_ready; simpl.
    + done.
    + apply Forall_fmap. eapply Forall_impl; [exact Hall|].
      intros p [Hon Hcred]. by apply newProviderState_ready.
    + by rewrite length_fmap.
    + by rewrite length_fmap.
    + done.
    + rewrite length_fmap. lia.
  - intros now pm i Hr Hav. unfold GetNextProvider. rewrite Hav. simpl.
    rewrite Hr. simpl. done.
Qed.

(** ** Recording outcomes *)

Lemma firstNamed_Name name l : forall i ps,
  firstNamed name l = Some i -> l !! i = Some ps ->
  config.Name (Provider ps) = name.
Proof.
  induction l as [|ps0 l IH]; intros i ps Hf Hl; [done|]. simpl in Hf.
  destruct (String.eqb _ _) eqn:Hn.
  - injection Hf as <-. simpl in Hl. injection Hl as <-. by apply String.eqb_eq.
  - destruct (firstNamed name l) as [k|] eqn:Hk; [|done]. simpl in Hf.
    injection Hf as <-. simpl in Hl. by eapply IH.
Qed.

Lemma firstNamed_lt name l i :
  firstNamed name l = Some i -> (i < length l)%nat.
Proof.
  revert i. induction l as [|ps0 l IH]; intros i Hf; [done|]. simpl in *.
  destruct (String.eqb _ _).
  - injection Hf as <-. lia.
  - destruct (firstNamed name l) as [k|]; [|done]. simpl in Hf.
    injection Hf as <-. specialize (IH k eq_refl). lia.
Qed.

Lemma updateFirstNamed_lookup name f l : forall i,
  firstNamed name l = Some i ->
  updateFirstNamed name f l !! i = f <$> l !! i.
Proof.
  induction l as [|ps0 l IH]; intros i Hf; [done|]. simpl in *.
  destruct (String.eqb _ _).
  - by injection Hf as <-.
  - destruct (firstNamed name l) as [k|]; [|done]. simpl in Hf.
    injection Hf as <-. simpl. by apply IH.
Qed.

Lemma updateFirstNamed_lookup_ne name f l : forall j,
  firstNamed name l <> Some j ->
  updateFirstNamed name f l !! j = l !! j.
Proof.
  induction l as [|ps0 l IH]; intros j Hf; [done|]. simpl in *.
  destruct (String.eqb _ _).
  - destruct j as [|j]; [done|]. done.
  - destruct j as [|j]; [done|]. simpl. apply IH. intros Hk.
    rewrite Hk in Hf. done.
Qed.

(** Neither the reconciliation nor a recording changes a configuration, so
    the state a name designates stays the same. *)
Lemma firstNamed_fmap name f l :
  (forall ps, Provider (f ps) = Provider ps) ->
  firstNamed name (f <$> l) = firstNamed name l.
Proof.
  intros Hf. induction l as [|ps0 l IH]; [done|].
  rewrite fmap_cons. simpl. by rewrite Hf, IH.
Qed.

Lemma firstNamed_updateFirstNamed name name' f l :
  (forall ps, Provider (f ps) = Provider ps) ->
  firstNamed name (updateFirstNamed name' f l) = firstNamed name l.
Proof.
  intros Hf. induction l as [|ps0 l IH]; [done|]. simpl.
  destruct (String.eqb (config.Name (Provider ps0)) name') eqn:Hn; simpl.
  - by rewrite Hf.
  - by rewrite IH.
Qed.

Lemma Provider_failProviderState now1 now2 ps :
  Provider (failProviderState now1 now2 ps) = Provider ps.
Proof. unfold failProviderState. by destruct (5 <=? _). Qed.

Lemma Provider_succeedProviderState ps :
  Provider (succeedProviderState ps) = Provider ps.
Proof. unfold succeedProviderState. by destruct (0 <? _). Qed.

Lemma providers_GetNextProvider now pm :
  providers (fst (GetNextProvider now pm)) = updateProviderState now <$> providers pm.
Proof.
  unfold GetNextProvider. destruct (length _ =? 0)%nat; [done|].
  simpl. destruct (String.eqb _ _); [|done].
  unfold getNextRobin. destruct (length _ =? 1)%nat; [done|].
  by destruct (index _ _).
Qed.

Lemma routingStrategy_GetNextProvider now pm :
  routingStrategy (fst (GetNextProvider now pm)) = routingStrategy pm.
Proof.
  unfold GetNextProvider. destruct (length _ =? 0)%nat; [done|].
  simpl. destruct (String.eqb _ _); [|done].
  unfold getNextRobin. destruct (length _ =? 1)%nat; [done|].
  by destruct (index _ _).
Qed.

Lemma index_Picked av k i : index av k = Picked i -> i ∈ av.
Proof.
  unfold index. destruct (k <? 0); [done|].
  destruct (av !! Z.to_nat k) as [j|] eqn:Hj; [|done].
  intros [= <-]. by eapply list_elem_of_lookup_2.
Qed.

(** Whatever the strategy, a pick is drawn from the available set of the
    reconciled states. *)
Lemma GetNextProvider_Picked now pm i :
  snd (GetNextProvider now pm) = Picked i ->
  exists ps, providers pm !! i = Some ps /\ availableAt now ps.
Proof.
  intros Hp.
  assert (i ∈ getAvailableProviders (updateProviderStates now pm)) as Hin.
  { revert Hp. unfold GetNextProvider.
    destruct (length _ =? 0)%nat; [done|]. simpl.
    destruct (String.eqb _ _).
    - unfold getNextRobin. destruct (length _ =? 1)%nat; simpl.
      + apply index_Picked.
      + destruct (index _ _) eqn:Hi; simpl; [|done|done].
        intros [= <-]. by apply index_Picked in Hi.
    - simpl. intros Hd.
      pose proof (getNextDefault_spec (updateProviderStates now pm)) as Hs.
      rewrite Hd in Hs. destruct Hs as [(ps & Hi & Hon) _].
      apply elem_of_getAvailableProviders. exists ps. split; [done|].
      by apply isAvailable_true. }
  apply elem_of_getAvailableProviders in Hin as (ps & Hi & Hav). simpl in Hi.
  rewrite list_lookup_fmap in Hi.
  destruct (providers pm !! i) as [ps0|]; [|done]. simpl in Hi.
  injection Hi as <-. exists ps0. split; [done|].
  by apply isAvailable_updateProviderState.
Qed.

Lemma index_not_NoProviderAvailable av k : index av k <> NoProviderAvailable.
Proof. unfold index. destruct (k <? 0); [done|]. by destruct (av !! _). Qed.

(** The error is reported exactly when the available set is empty. *)
Lemma GetNextProvider_NoProviderAvailable now pm :
  snd (GetNextProvider now pm) = NoProviderAvailable <->
  getAvailableProviders (updateProviderStates now pm) = [].
Proof.
  unfold GetNextProvider.
  destruct (length _ =? 0)%nat eqn:H0.
  - apply Nat.eqb_eq, length_zero_iff_nil in H0. done.
  - apply Nat.eqb_neq in H0. rewrite length_zero_iff_nil in H0.
    split; [|done]. intros Hp. exfalso. revert Hp. simpl.
    destruct (String.eqb _ _).
    + unfold getNextRobin. destruct (length _ =? 1)%nat; simpl.
      * apply index_not_NoProviderAvailable.
      * destruct (index _ _) eqn:Hi; simpl; [done| |done].
        by apply index_not_NoProviderAvailable in Hi.
    + simpl. unfold getNextDefault. destruct (defaultScan _ _ _); [done|].
      apply index_not_NoProviderAvailable.
Qed.

(** ** Histories *)

Lemma run_cons c calls pm :
  run (c :: calls) pm =
    (fst (run calls (step c pm)), snd (run [c] pm) ++ snd (run calls (step c pm))).
Proof.
  unfold step. destruct c as [now | n a b | n]; simpl.
  - destruct (GetNextProvider now pm) as [pm1 pick]. simpl.
    by destruct (run calls pm1).
  - by destruct (run calls _).
  - by destruct (run calls _).
Qed.

Lemma step_select now pm : step (CallSelect now) pm = fst (GetNextProvider now pm).
Proof. unfold step. simpl. by destruct (GetNextProvider now pm). Qed.

Lemma run_select now pm : snd (run [CallSelect now] pm) = [snd (GetNextProvider now pm)].
Proof. simpl. by destruct (GetNextProvider now pm). Qed.

(** A property of the designated state that every call preserves is an
    invariant of the manager. *)
Lemma designated_step name i (P : ProviderState -> Prop) c pm :
  (forall ps, P ps ->
     match c with
     | CallSelect now => P (updateProviderState now ps)
     | CallFailure n a b => n = name -> P (failProviderState a b ps)
     | CallSuccess n => n = name -> P (succeedProviderState ps)
     end) ->
  designated name i P pm -> designated name i P (step c pm).
Proof.
  intros HP [Hf (ps & Hi & Hps)]. unfold designated.
  destruct c as [now | n a b | n].
  - rewrite step_select, providers_GetNextProvider.
    rewrite firstNamed_fmap by apply Provider_updateProviderState.
    split; [done|]. exists (updateProviderState now ps).
    rewrite list_lookup_fmap, Hi. split; [done|]. by apply HP.
  - unfold step. simpl.
    rewrite firstNamed_updateFirstNamed by apply Provider_failProviderState.
    split; [done|]. destruct (decide (n = name)) as [->|Hne].
    + exists (failProviderState a b ps).
      rewrite updateFirstNamed_lookup, Hi by done. split; [done|]. by apply HP.
    + exists ps. split; [|done]. rewrite updateFirstNamed_lookup_ne; [done|].
      intros Hn. apply Hne.
      rewrite <- (firstNamed_Name n _ i ps Hn Hi).
      by apply (firstNamed_Name name (providers pm) i ps).
  - unfold step. simpl.
    rewrite firstNamed_updateFirstNamed by apply Provider_succeedProviderState.
    split; [done|]. destruct (decide (n = name)) as [->|Hne].
    + exists (succeedProviderState ps).
      rewrite updateFirstNamed_lookup, Hi by done. split; [done|]. by apply HP.
    + exists ps. split; [|done]. rewrite updateFirstNamed_lookup_ne; [done|].
      intros Hn. apply Hne.
      rewrite <- (firstNamed_Name n _ i ps Hn Hi).
      by apply (firstNamed_Name name (providers pm) i ps).
Qed.

(** ** Cooldown *)

Lemma updateProviderState_pending now ps :
  IsDisabled ps = true ->
  DisabledUntil ps = Time_zero \/ now <= DisabledUntil ps ->
  updateProviderState now ps = ps.
Proof.
  intros Hd Hu. unfold updateProviderState, Time_IsZero, Time_After, Time_zero in *.
  rewrite Hd. simpl. destruct Hu as [-> | Hu]; [done|].
  destruct (DisabledUntil ps =? 0); [done|]. simpl.
  destruct (DisabledUntil ps <? now) eqn:Hlt; [lia|done].
Qed.

Lemma updateProviderState_expired now ps :
  IsDisabled ps = true -> DisabledUntil ps <> Time_zero -> DisabledUntil ps < now ->
  updateProviderState now ps =
    {| Provider := Provider ps; FailureCount := 0;
       LastFailureTime := LastFailureTime ps;
       IsDisabled := false; DisabledUntil := Time_zero |}.
Proof.
  intros Hd Hz Hlt. unfold updateProviderState, Time_IsZero, Time_After, Time_zero in *.
  rewrite Hd. simpl.
  destruct (DisabledUntil ps =? 0) eqn:H0; [lia|]. simpl.
  destruct (DisabledUntil ps <? now) eqn:H1; [done|lia].
Qed.

Lemma coolingUntil_call p start c ps :
  duringCooldown start (Time_Add start (5 * Minute)) c ->
  coolingUntil p (Time_Add start (5 * Minute)) ps ->
  match c with
  | CallSelect now => coolingUntil p (Time_Add start (5 * Minute)) (updateProviderState now ps)
  | CallFailure _ a b => coolingUntil p (Time_Add start (5 * Minute)) (failProviderState a b ps)
  | CallSuccess _ => coolingUntil p (Time_Add start (5 * Minute)) (succeedProviderState ps)
  end.
Proof.
  intros Hc (Hp & Hd & Hu). destruct c as [now | n a b | n]; simpl in Hc.
  - rewrite updateProviderState_pending; [done | done |].
    destruct Hu as [Hu | Hu]; [by left | right; lia].
  - unfold coolingUntil, failProviderState. destruct (5 <=? _); simpl.
    + split; [done|]. split; [done|]. right. unfold Time_Add in *. lia.
    + done.
  - unfold coolingUntil, succeedProviderState. by destruct (0 <? _).
Qed.

Lemma cooledUntil_call p start name c ps :
  duringCooldown start (Time_Add start (5 * Minute)) c ->
  noFailureOn name c ->
  cooledUntil p (Time_Add start (5 * Minute)) ps ->
  match c with
  | CallSelect now => cooledUntil p (Time_Add start (5 * Minute)) (updateProviderState now ps)
  | CallFailure n a b =>
      n = name -> cooledUntil p (Time_Add start (5 * Minute)) (failProviderState a b ps)
  | CallSuccess _ => cooledUntil p (Time_Add start (5 * Minute)) (succeedProviderState ps)
  end.
Proof.
  intros Hc Hn (Hp & Hd & Hu). destruct c as [now | n a b | n]; simpl in Hc, Hn.
  - rewrite updateProviderState_pending; [done | done |]. right. lia.
  - done.
  - unfold cooledUntil, succeedProviderState. by destruct (0 <? _).
Qed.

(** While the cooldown is pending the designated provider is never picked,
    and it is still cooling down afterwards. *)
Lemma run_coolingUntil name i p start calls : forall pm,
  designated name i (coolingUntil p (Time_Add start (5 * Minute))) pm ->
  Forall (duringCooldown start (Time_Add start (5 * Minute))) calls ->
  (Picked i ∉ snd (run calls pm)) /\
  designated name i (coolingUntil p (Time_Add start (5 * Minute)))
    (fst (run calls pm)).
Proof.
  induction calls as [|c calls IH]; intros pm Hinv Hall.
  - simpl. split; [apply not_elem_of_nil | done].
  - inversion Hall as [|? ? Hc Hrest]; subst.
    assert (Hstep : designated name i (coolingUntil p (Time_Add start (5 * Minute)))
                      (step c pm)).
    { apply designated_step; [|done]. intros ps Hps.
      pose proof (coolingUntil_call p start c ps Hc Hps) as H.
      destruct c; done. }
    destruct (IH _ Hstep Hrest) as [Hnot Hfin].
    rewrite run_cons. cbn [fst snd]. split; [|done].
    rewrite elem_of_app. intros [Hin | Hin]; [|done].
    destruct c as [now | n a b | n]; [|inversion Hin|inversion Hin].
    rewrite run_select in Hin. apply list_elem_of_singleton in Hin.
    symmetry in Hin. apply GetNextProvider_Picked in Hin as (ps & Hi & _ & Hdis).
    destruct Hinv as [_ (ps' & Hi' & Hp & Hd & Hu)].
    rewrite Hi in Hi'. injection Hi' as ->. simpl in Hc.
    rewrite updateProviderState_pending in Hdis; [congruence | done |].
    destruct Hu as [Hu | Hu]; [by left | right; lia].
Qed.

Lemma run_cooledUntil name i p start calls : forall pm,
  designated name i (cooledUntil p (Time_Add start (5 * Minute))) pm ->
  Forall (duringCooldown start (Time_Add start (5 * Minute))) calls ->
  Forall (noFailureOn name) calls ->
  designated name i (cooledUntil p (Time_Add start (5 * Minute)))
    (fst (run calls pm)).
Proof.
  induction calls as [|c calls IH]; intros pm Hinv Hall Hno; [done|].
  inversion Hall as [|? ? Hc Hrest]; subst.
  inversion Hno as [|? ? Hn Hnrest]; subst.
  rewrite run_cons. cbn [fst]. apply IH; [|done|done].
  apply designated_step; [|done]. intros ps Hps.
  pose proof (cooledUntil_call p start name c ps Hc Hn Hps) as H.
  destruct c; done.
Qed.

Lemma designated_RecordFailure name i (P Q : ProviderState -> Prop) a b pm :
  (forall ps, P ps -> Q (failProviderState a b ps)) ->
  designated name i P pm -> designated name i Q (RecordFailure name a b pm).
Proof.
  intros HPQ [Hf (ps & Hi & Hps)]. unfold designated, RecordFailure. simpl.
  rewrite firstNamed_updateFirstNamed by apply Provider_failProviderState.
  split; [done|]. exists (failProviderState a b ps).
  rewrite updateFirstNamed_lookup, Hi by done. split; [done|]. by apply HPQ.
Qed.

Lemma recordFailures_count name i p readings : forall pm k,
  0 <= k -> k + Z.of_nat (length readings) <= 4 ->
  designated name i (fun ps => Provider ps = p /\ FailureCount ps = k) pm ->
  designated name i
    (fun ps => Provider ps = p /\ FailureCount ps = k + Z.of_nat (length readings))
    (recordFailures name readings pm).
Proof.
  induction readings as [|[a b] readings IH]; intros pm k Hk Hle Hinv.
  - simpl. by rewrite Z.add_0_r.
  - rewrite length_cons, Nat2Z.inj_succ in *.
    change (recordFailures name ((a, b) :: readings) pm)
      with (recordFailures name readings (RecordFailure name a b pm)).
    replace (k + Z.succ (Z.of_nat (length readings)))
      with ((k + 1) + Z.of_nat (length readings)) by lia.
    apply IH; [lia | lia |].
    eapply designated_RecordFailure; [|exact Hinv]. simpl. intros ps [Hp Hc].
    unfold failProviderState. rewrite Hc.
    rewrite wrap_int_small by (unfold minInt64, maxInt64; lia).
    destruct (5 <=? k + 1) eqn:H5; [lia|]. done.
Qed.

(** The failure that brings the count to five disables the provider for five
    minutes from its second clock reading. *)
Lemma recordFailures_five name i pm ps0 earlier t5a t5 :
  firstNamed name (providers pm) = Some i ->
  providers pm !! i = Some ps0 ->
  0 <= FailureCount ps0 ->
  FailureCount ps0 + Z.of_nat (length earlier) = 4 ->
  designated name i
    (fun ps => FailureCount ps = 5 /\
               cooledUntil (Provider ps0) (Time_Add t5 (5 * Minute)) ps)
    (RecordFailure name t5a t5 (recordFailures name earlier pm)).
Proof.
  intros Hf Hi Hc Hlen.
  assert (H4 : designated name i
                 (fun ps => Provider ps = Provider ps0 /\ FailureCount ps = 4)
                 (recordFailures name earlier pm)).
  { rewrite <- Hlen.
    apply recordFailures_count; [lia | lia |]. split; [done|]. by exists ps0. }
  eapply designated_RecordFailure; [|exact H4].
  simpl. intros ps [Hp Hcount]. unfold failProviderState, cooledUntil.
  rewrite Hcount. by vm_compute.
Qed.

Lemma routingStrategy_run calls : forall pm,
  routingStrategy (fst (run calls pm)) = routingStrategy pm.
Proof.
  induction calls as [|c calls IH]; intros pm; [done|].
  rewrite run_cons. cbn [fst]. rewrite IH.
  destruct c as [now | n a b | n]; [|done|done].
  rewrite step_select. apply routingStrategy_GetNextProvider.
Qed.

Lemma routingStrategy_recordFailures name readings : forall pm,
  routingStrategy (recordFailures name readings pm) = routingStrategy pm.
Proof.
  induction readings as [|[a b] readings IH]; intros pm; [done|].
  change (recordFailures name ((a, b) :: readings) pm)
    with (recordFailures name readings (RecordFailure name a b pm)).
  by rewrite IH.
Qed.

Lemma designated_weaken name i (P Q : ProviderState -> Prop) pm :
  (forall ps, P ps -> Q ps) -> designated name i P pm -> designated name i Q pm.
Proof. intros HPQ [Hf (ps & Hi & Hps)]. split; [done|]. exists ps. auto. Qed.

(** C1 (cooldown and recovery), with the deadline excluded.  Let [name]
    designate the provider at index [i] and let a run of failures recorded
    on it end with the one that brings its count to 5 (five failures from a
    count of 0, or one from a count of 4), read off the clock at [t5].  Then
    the provider is disabled with the deadline [t5 + 5 min].  Through any
    calls that follow while the cooldown is pending (selections up to and
    including the deadline, further failures not before [t5], successes) no
    selection returns it.  And if no further failure is recorded on it
    meanwhile, the first selection made strictly after the deadline
    re-enables it, clears its deadline and resets its failure count to 0; if
    it is configured "on" it is then in the available set, the selection
    does not fail, and under the failover strategy the selection returns it
    when no earlier provider is available. *)
Theorem cooldown_and_recovery
    (pm : ProviderManager) (name : string) (i : nat) (ps0 : ProviderState)
    (earlier : list (Time * Time)) (t5a t5 : Time) :
  firstNamed name (providers pm) = Some i ->
  providers pm !! i = Some ps0 ->
  0 <= FailureCount ps0 ->
  FailureCount ps0 + Z.of_nat (length earlier) = 4 ->
  Time_Add t5 (5 * Minute) <> Time_zero ->
  let pm5 := RecordFailure name t5a t5 (recordFailures name earlier pm) in
  let deadline := Time_Add t5 (5 * Minute) in
  (exists ps5, providers pm5 !! i = Some ps5 /\
               FailureCount ps5 = 5 /\ IsDisabled ps5 = true /\
               DisabledUntil ps5 = deadline) /\
  (forall calls, Forall (duringCooldown t5 deadline) calls ->
                 Picked i ∉ snd (run calls pm5)) /\
  (forall calls now,
     Forall (duringCooldown t5 deadline) calls ->
     Forall (noFailureOn name) calls ->
     deadline < now ->
     let pm6 := fst (run calls pm5) in
     let pm7 := fst (GetNextProvider now pm6) in
     (exists ps7, providers pm7 !! i = Some ps7 /\
                  IsDisabled ps7 = false /\ DisabledUntil ps7 = Time_zero /\
                  FailureCount ps7 = 0) /\
     (config.State (Provider ps0) = "on" ->
        i ∈ getAvailableProviders pm7 /\
        snd (GetNextProvider now pm6) <> NoProviderAvailable /\
        (routingStrategy pm <> "robin" ->
         (forall j ps, (j < i)%nat -> providers pm6 !! j = Some ps ->
                       ~ availableAt now ps) ->
         snd (GetNextProvider now pm6) = Picked i))).
Proof.
  intros Hf Hi Hc Hlen Hnz pm5 deadline.
  pose proof (recordFailures_five name i pm ps0 earlier t5a t5 Hf Hi Hc Hlen) as H5.
  fold pm5 in H5. fold deadline in H5.
  split; [|split].
  - destruct H5 as [_ (ps5 & Hi5 & Hc5 & _ & Hd5 & Hu5)]. by exists ps5.
  - intros calls Hall.
    apply (run_coolingUntil name i (Provider ps0) t5); [|done].
    eapply designated_weaken; [|exact H5].
    intros ps (_ & Hp & Hd & Hu). split; [done|]. split; [done|].
    right. fold deadline. lia.
  - intros calls now Hall Hno Hlt pm6 pm7.
    assert (H6 : designated name i (cooledUntil (Provider ps0) deadline) pm6).
    { apply (run_cooledUntil name i (Provider ps0) t5); [|done|done].
      eapply designated_weaken; [|exact H5]. by intros ps (_ & H). }
    destruct H6 as [Hf6 (ps6 & Hi6 & Hp6 & Hd6 & Hu6)].
    assert (Hi7 : providers pm7 !! i = Some (updateProviderState now ps6)).
    { unfold pm7. by rewrite providers_GetNextProvider, list_lookup_fmap, Hi6. }
    assert (Hup : updateProviderState now ps6 =
              {| Provider := Provider ps6; FailureCount := 0;
                 LastFailureTime := LastFailureTime ps6;
                 IsDisabled := false; DisabledUntil := Time_zero |}).
    { apply updateProviderState_expired; [done | by rewrite Hu6 | by rewrite Hu6]. }
    split.
    + exists (updateProviderState now ps6). split; [done|]. by rewrite Hup.
    + intros Hon.
      assert (Hav : availableAt now ps6).
      { split; [congruence | by rewrite Hup]. }
      assert (Hin : i ∈ getAvailableProviders pm7).
      { apply elem_of_getAvailableProviders.
        exists (updateProviderState now ps6). split; [done|].
        by apply isAvailable_updateProviderState. }
      split; [done|]. split.
      * rewrite GetNextProvider_NoProviderAvailable. intros Hnil.
        unfold pm7 in Hin.
        assert (providers (fst (GetNextProvider now pm6))
                = providers (updateProviderStates now pm6)) as Heq
          by apply providers_GetNextProvider.
        unfold getAvailableProviders in Hin, Hnil. rewrite Heq, Hnil in Hin.
        inversion Hin.
      * intros Hs Hbefore. apply GetNextProvider_default_pick.
        -- unfold pm6, pm5. rewrite routingStrategy_run. simpl.
           by rewrite routingStrategy_recordFailures.
        -- split; [by exists ps6 | done].
Qed.

(** Witness of [cooldown_and_recovery]: one provider, five failures at
    [tFail], a selection one nanosecond after the deadline. *)
Lemma cooldown_and_recovery_witness :
  (Picked 0 ∉ snd (run [CallSelect examples.tDeadline]
                       (examples.fiveFailures "A" examples.tFail examples.soloManager))) /\
  snd (GetNextProvider (examples.tDeadline + 1)
         (examples.fiveFailures "A" examples.tFail examples.soloManager)) = Picked 0.
Proof.
  destruct (cooldown_and_recovery examples.soloManager "A" 0
              (newProviderState (examples.tokenProvider "A"))
              [(examples.tFail, examples.tFail); (examples.tFail, examples.tFail);
               (examples.tFail, examples.tFail); (examples.tFail, examples.tFail)]
              examples.tFail examples.tFail)
    as (_ & Hcool & Hrec).
  - vm_compute. reflexivity.
  - vm_compute. reflexivity.
  - simpl. lia.
  - reflexivity.
  - vm_compute. discriminate.
  - split.
    + apply Hcool. constructor; [|constructor]. simpl.
      unfold examples.tDeadline. lia.
    + specialize (Hrec [] (examples.tDeadline + 1)).
      destruct Hrec as [_ Hrec].
      * constructor.
      * constructor.
      * unfold examples.tDeadline. lia.
      * destruct Hrec as (_ & _ & Hpick); [reflexivity|].
        apply Hpick; [vm_compute; discriminate|]. intros j ps Hj. lia.
Defined.

(** C1 as stated fails at the deadline itself: a selection made exactly five
    minutes after the fifth failure leaves the provider, otherwise eligible,
    disabled with its five failures, and reports that no provider is
    available; [updateProviderStates] asks for [now.After(DisabledUntil)].
    It also fails after the deadline when a sixth failure has been recorded
    in between, here one minute after the fifth: the deadline has moved. *)
Lemma cooldown_at_deadline_counterexample :
  let pm5 := examples.fiveFailures "A" examples.tFail examples.soloManager in
  let pm6 := RecordFailure "A" (examples.tFail + Minute) (examples.tFail + Minute) pm5 in
  (DisabledUntil <$> providers pm5 !! 0%nat) = Some examples.tDeadline /\
  (config.State <$> (Provider <$> providers pm5 !! 0%nat)) = Some "on" /\
  GetNextProvider examples.tDeadline pm5 = (pm5, NoProviderAvailable) /\
  (IsDisabled <$> providers (fst (GetNextProvider examples.tDeadline pm5)) !! 0%nat)
    = Some true /\
  (FailureCount <$> providers (fst (GetNextProvider examples.tDeadline pm5)) !! 0%nat)
    = Some 5 /\
  GetNextProvider (examples.tDeadline + 1) pm6 = (pm6, NoProviderAvailable).
Proof. vm_compute. repeat split; reflexivity. Qed.

(** Witness of [failover_determinism]: [A] off, [B] and [C] available. *)
Lemma failover_determinism_witness :
  snd (GetNextProvider examples.tFail (examples.trioManager "default")) = Picked 1.
Proof.
  destruct (failover_determinism examples.tFail (examples.trioManager "default"))
    as (_ & _ & _ & _ & _ & Habc).
  - vm_compute. discriminate.
  - destruct (Habc (newProviderState (examples.offProvider "A"))
                   (newProviderState (examples.tokenProvider "B"))
                   (newProviderState (examples.tokenProvider "C"))) as [Hb _].
    + reflexivity.
    + intros [Hon _]. vm_compute in Hon. discriminate.
    + split; vm_compute; reflexivity.
    + apply Hb. split; vm_compute; reflexivity.
Defined.

(** Witness of [round_robin_fairness]: three providers, three selections. *)
Lemma round_robin_fairness_witness :
  snd (run [CallSelect 5; CallSelect 6; CallSelect 7]
           (NewProviderManager examples.robinConfig))
  = [Picked 0; Picked 1; Picked 2].
Proof.
  destruct (round_robin_fairness examples.robinConfig [5; 6; 7]) as [H _].
  - reflexivity.
  - repeat constructor; vm_compute; discriminate.
  - simpl. lia.
  - vm_compute. discriminate.
  - reflexivity.
  - exact H.
Defined.

(** ** Providers without credentials *)

Lemma newProviderState_bare p :
  map_get (config.Env p) "ANTHROPIC_AUTH_TOKEN" = EmptyString ->
  map_get (config.Env p) "ANTHROPIC_API_KEY" = EmptyString ->
  IsDisabled (newProviderState p) = true /\
  DisabledUntil (newProviderState p) = Time_zero.
Proof. intros Ht Hk. unfold newProviderState. rewrite Ht, Hk. done. Qed.

(** As long as no failure is recorded under its name, a provider built
    without credentials stays disabled and is never picked. *)
Lemma bare_provider_never_picked cfg i p calls :
  config.Providers cfg !! i = Some p ->
  map_get (config.Env p) "ANTHROPIC_AUTH_TOKEN" = EmptyString ->
  map_get (config.Env p) "ANTHROPIC_API_KEY" = EmptyString ->
  firstNamed (config.Name p) (providers (NewProviderManager cfg)) = Some i ->
  Forall (noFailureOn (config.Name p)) calls ->
  Picked i ∉ snd (run calls (NewProviderManager cfg)).
Proof.
  intros Hi Ht Hk Hf Hno.
  set (P := fun ps => IsDisabled ps = true /\ DisabledUntil ps = Time_zero).
  assert (Hinv : designated (config.Name p) i P (NewProviderManager cfg)).
  { split; [done|]. exists (newProviderState p). simpl.
    rewrite list_lookup_fmap, Hi. split; [done|]. by apply newProviderState_bare. }
  clear Hi Hf. revert Hinv. generalize (NewProviderManager cfg).
  induction calls as [|c calls IH]; intros pm Hinv; [apply not_elem_of_nil|].
  inversion Hno as [|? ? Hc Hrest]; subst.
  rewrite run_cons. cbn [snd]. rewrite elem_of_app. intros [Hin | Hin].
  - destruct c as [now | n a b | n]; [|inversion Hin|inversion Hin].
    rewrite run_select in Hin. apply list_elem_of_singleton in Hin.
    symmetry in Hin. apply GetNextProvider_Picked in Hin as (ps & Hlk & _ & Hdis).
    destruct Hinv as [_ (ps' & Hlk' & Hd & Hu)].
    rewrite Hlk in Hlk'. injection Hlk' as ->.
    rewrite updateProviderState_pending in Hdis; [congruence | done | by left].
  - revert Hin. apply IH; [done|]. apply designated_step; [|done].
    intros ps [Hd Hu]. destruct c as [now | n a b | n]; simpl in Hc.
    + rewrite updateProviderState_pending; [done | done | by left].
    + done.
    + intros _. unfold P, succeedProviderState. by destruct (0 <? _).
Qed.

(** C9 on the code.  A provider without credentials is disabled by
    [NewProviderManager] and a selection then finds no provider.  But five
    failures recorded under its name give it a deadline, and the first
    selection after that deadline re-enables and returns it.  The proxy
    itself produces these recordings when the provider shares its name with
    one that is being selected: the failures of the latter land on the
    former, which the selection returns once the cooldown is over. *)
Theorem bare_provider_reenabled_after_cooldown :
  (IsDisabled <$> providers examples.bareManager !! 0%nat) = Some true /\
  snd (GetNextProvider examples.tFail examples.bareManager) = NoProviderAvailable /\
  snd (GetNextProvider (examples.tDeadline + 1)
         (examples.fiveFailures "x" examples.tFail examples.bareManager)) = Picked 0 /\
  snd (GetNextProvider examples.tFail examples.sharedNameManager) = Picked 1 /\
  snd (GetNextProvider (examples.tDeadline + 1)
         (examples.fiveFailures "x" examples.tFail examples.sharedNameManager))
    = Picked 0.
Proof. vm_compute. repeat split; reflexivity. Qed.

End provider_theory.

(** * Properties of the forwarder *)

Module proxy_theory.
Import go http proxy.

(** ** Byte strings *)

Lemma append_cons (c : ascii) (s t : string) :
  String c s +:+ t = String c (s +:+ t).
Proof. reflexivity. Qed.

Lemma append_nil_l (s : string) : EmptyString +:+ s = s.
Proof. reflexivity. Qed.

Lemma append_nil_r (s : string) : s +:+ EmptyString = s.
Proof. induction s as [|c s IH]; [done | by rewrite append_cons, IH]. Qed.

Lemma append_assoc (a b c : string) : (a +:+ b) +:+ c = a +:+ (b +:+ c).
Proof.
  induction a as [|x a IH]; [done | by rewrite !append_cons, IH].
Qed.

Lemma takeBytes_dropBytes n : forall data, takeBytes n data +:+ dropBytes n data = data.
Proof.
  induction n as [|n IH]; intros [|c data]; simpl; try done.
  by rewrite append_cons, IH.
Qed.

Lemma length_takeBytes n : forall data,
  (n <= String.length data)%nat -> String.length (takeBytes n data) = n.
Proof.
  induction n as [|n IH]; intros [|c data] H; simpl in *; try done; try lia.
  all: rewrite IH; lia.
Qed.

Lemma length_dropBytes n : forall data,
  String.length (dropBytes n data) = (String.length data - n)%nat.
Proof.
  induction n as [|n IH]; intros [|c data]; simpl; try done.
Qed.

Lemma written_app l1 l2 : written (l1 ++ l2) = written l1 +:+ written l2.
Proof.
  induction l1 as [|[data|] l1 IH]; simpl; [done | | done].
  by rewrite IH, append_assoc.
Qed.

Lemma flushedWrites_app size l1 l2 :
  flushedWrites size l1 -> flushedWrites size l2 -> flushedWrites size (l1 ++ l2).
Proof.
  revert l2. induction l1 as [l1 IH] using (induction_ltof1 _ (@length _)).
  intros l2 H1 H2. destruct l1 as [|[data|] [|[data'|] l1]]; simpl in *; try done.
  destruct H1 as [Hd H1]. split; [done|]. apply IH; [|done|done].
  unfold ltof. simpl. lia.
Qed.

(** ** The relay *)

Ltac writer_eq w :=
  unfold Flush, Write, WriteHeader; destruct w as [?h [?c|] ?ev];
  simpl; rewrite <- ?app_assoc, ?app_nil_r; reflexivity.

(** Each pass of the loop of [copyResponse] shortens the stream, so the
    loop ends; what it wrote is what the stream delivered, in pieces of at
    most 1024 bytes, each flushed. *)
Lemma copyLoop_spec fuel : forall body w,
  (readerSize body < fuel)%nat ->
  exists new,
    copyLoop fuel body w =
      Some {| header := header w;
              status := match status w with Some c => Some c | None =>
                          if (0 <? length new)%nat then Some StatusOK else None end;
              events := events w ++ new |} /\
    written new = delivered body /\ flushedWrites 1024 new.
Proof.
  induction fuel as [|fuel IH]; intros body w Hfuel; [lia|].
  destruct body as [|[data err] body]; cbn [copyLoop Read].
  - exists []. split; [writer_eq w | done].
  - destruct (String.length data <=? 1024)%nat eqn:Hfit.
    + apply Nat.leb_le in Hfit.
      destruct (0 <? String.length data)%nat eqn:Hpos.
      * apply Nat.ltb_lt in Hpos. destruct err as [e|].
        -- exists [EvWrite data; EvFlush]. split; [|split].
           ++ writer_eq w.
           ++ simpl. by rewrite append_nil_r.
           ++ simpl. split; [lia | done].
        -- destruct (IH body (Flush (Write data w))) as (new & Heq & Hw & Hf);
             [simpl in Hfuel; lia|].
           exists (EvWrite data :: EvFlush :: new). rewrite Heq. split; [|split].
           ++ writer_eq w.
           ++ simpl. by rewrite Hw.
           ++ simpl. split; [lia | done].
      * apply Nat.ltb_ge in Hpos.
        assert (data = EmptyString) as -> by (destruct data; simpl in *; [done|lia]).
        destruct err as [e|].
        -- exists []. split; [writer_eq w | done].
        -- destruct (IH body w) as (new & Heq & Hw & Hf); [simpl in Hfuel; lia|].
           exists new. by rewrite Heq.
    + apply Nat.leb_gt in Hfit.
      assert (String.length (takeBytes 1024 data) = 1024%nat) as Hlen
        by (apply length_takeBytes; lia).
      rewrite Hlen. change (0 <? 1024)%nat with true. cbv iota.
      destruct (IH ((dropBytes 1024 data, err) :: body)
                   (Flush (Write (takeBytes 1024 data) w))) as (new & Heq & Hw & Hf).
      { cbn [readerSize] in *. rewrite length_dropBytes. lia. }
      exists (EvWrite (takeBytes 1024 data) :: EvFlush :: new). rewrite Heq.
      split; [|split].
      * writer_eq w.
      * cbn [written delivered]. rewrite Hw. cbn [delivered].
        destruct err as [e|]; by rewrite <- ?append_assoc, takeBytes_dropBytes.
      * cbn [flushedWrites]. split; [lia | done].
Qed.

(** The same for the loop of [io.Copy], which does not flush. *)
Lemma Copy_spec fuel : forall src w,
  (readerSize src < fuel)%nat ->
  exists new,
    Copy fuel src w =
      Some {| header := header w;
              status := match status w with Some c => Some c | None =>
                          if (0 <? length new)%nat then Some StatusOK else None end;
              events := events w ++ new |} /\
    written new = delivered src /\ EvFlush ∉ new.
Proof.
  assert (Hsize : (0 < copyBufferSize)%nat) by (unfold copyBufferSize; lia).
  induction fuel as [|fuel IH]; intros src w Hfuel; [lia|].
  destruct src as [|[data err] src]; cbn [Copy Read].
  1: exists []; split; [writer_eq w | split; [done | apply not_elem_of_nil]].
  revert Hsize. generalize copyBufferSize. intros size Hsize.
  destruct (String.length data <=? size)%nat eqn:Hfit.
    + apply Nat.leb_le in Hfit.
      destruct (0 <? String.length data)%nat eqn:Hpos.
      * apply Nat.ltb_lt in Hpos. destruct err as [e|].
        -- exists [EvWrite data]. split; [|split].
           ++ writer_eq w.
           ++ simpl. by rewrite append_nil_r.
           ++ rewrite list_elem_of_singleton. done.
        -- destruct (IH src (Write data w)) as (new & Heq & Hw & Hf);
             [simpl in Hfuel; lia|].
           exists (EvWrite data :: new). rewrite Heq. split; [|split].
           ++ writer_eq w.
           ++ simpl. by rewrite Hw.
           ++ rewrite elem_of_cons. intros [H | H]; done.
      * apply Nat.ltb_ge in Hpos.
        assert (data = EmptyString) as -> by (destruct data; simpl in *; [done|lia]).
        destruct err as [e|].
        -- exists []. split; [writer_eq w | split; [done | apply not_elem_of_nil]].
        -- destruct (IH src w) as (new & Heq & Hw & Hf); [simpl in Hfuel; lia|].
           exists new. by rewrite Heq.
    + apply Nat.leb_gt in Hfit.
      assert (String.length (takeBytes (size) data) = (size)%nat) as Hlen
        by (apply length_takeBytes; lia).
      rewrite Hlen.
      assert ((0 <? size)%nat = true) as -> by (apply Nat.ltb_lt; lia).
      destruct (IH ((dropBytes (size) data, err) :: src)
                   (Write (takeBytes (size) data) w)) as (new & Heq & Hw & Hf).
      { cbn [readerSize] in *. rewrite length_dropBytes. lia. }
      exists (EvWrite (takeBytes (size) data) :: new). rewrite Heq.
      split; [|split].
      * writer_eq w.
      * cbn [written delivered]. rewrite Hw. cbn [delivered].
        destruct err as [e|]; by rewrite <- ?append_assoc, takeBytes_dropBytes.
      * rewrite elem_of_cons. intros [H | H]; done.
Qed.

Lemma copyHeaders_events h w :
  events (copyHeaders h w) = events w /\ status (copyHeaders h w) = status w.
Proof.
  unfold copyHeaders.
  apply (map_fold_weak_ind
           (fun (w' : ResponseWriter) (_ : gmap string (list string)) =>
              events w' = events w /\ status w' = status w)); [done|].
  intros key values m r _ [He Hs]. revert r He Hs.
  induction values as [|value values IH]; intros r He Hs; [done|].
  simpl. apply IH; done.
Qed.

Lemma addHeaders_lookup key values : forall w k,
  header (foldl (fun w value => addHeader key value w) w values) !! k
  = if decide (k = key)
    then match values with
         | [] => header w !! k
         | _ :: _ => Some (default [] (header w !! k) ++ values)
         end
    else header w !! k.
Proof.
  induction values as [|value values IH]; intros w k; simpl.
  - by destruct (decide (k = key)).
  - rewrite IH. unfold addHeader, Header_Add. simpl.
    destruct (decide (k = key)) as [->|Hne].
    + rewrite lookup_insert_eq. simpl. destruct values as [|v vs]; [done|].
      by rewrite <- app_assoc.
    + by rewrite lookup_insert_ne.
Qed.

(** The headers of the upstream are added to those that the writer holds. *)
Lemma copyHeaders_lookup h w k :
  header (copyHeaders h w) !! k
  = match h !! k with
    | Some (value :: values) => Some (default [] (header w !! k) ++ value :: values)
    | _ => header w !! k
    end.
Proof.
  unfold copyHeaders. revert k.
  apply (map_fold_weak_ind
           (fun (w' : ResponseWriter) (m : gmap string (list string)) =>
              forall k, header w' !! k
                        = match m !! k with
                          | Some (value :: values) =>
                              Some (default [] (header w !! k) ++ value :: values)
                          | _ => header w !! k
                          end)).
  - intros k. by rewrite lookup_empty.
  - intros key values m r Hnone IH k. rewrite addHeaders_lookup.
    destruct (decide (k = key)) as [->|Hne].
    + rewrite lookup_insert_eq, IH, Hnone. by destruct values.
    + rewrite lookup_insert_ne by done. apply IH.
Qed.

(** What [copyResponse] does to the writer: it always ends, and leaves the
    status of the upstream (unless one was already written), and after the
    earlier events the new ones, which carry exactly the bytes that the
    upstream body delivered. *)
Lemma copyResponse_spec flusher resp w :
  exists w' new,
    copyResponse flusher resp w = Some w' /\
    events w' = events w ++ new /\
    written new = delivered (RespBody resp) /\
    (if flusher then flushedWrites 1024 new else EvFlush ∉ new) /\
    status w' = match status w with
                | Some c => Some c
                | None => Some (StatusCode resp)
                end /\
    header w' = header (copyHeaders (RespHeader resp) w).
Proof.
  unfold copyResponse.
  destruct (copyHeaders_events (RespHeader resp) w) as [He Hs].
  set (w1 := WriteHeader (StatusCode resp) (copyHeaders (RespHeader resp) w)).
  assert (He1 : events w1 = events w) by done.
  assert (Hs1 : status w1 = match status w with
                            | Some c => Some c
                            | None => Some (StatusCode resp)
                            end).
  { unfold w1, WriteHeader. simpl. by rewrite Hs. }
  destruct flusher.
  - destruct (copyLoop_spec (S (readerSize (RespBody resp))) (RespBody resp) w1)
      as (new & Heq & Hw & Hf); [lia|].
    eexists _, new. split; [exact Heq|]. cbn [events status]. rewrite He1, Hs1.
    repeat split; try done. by destruct (status w).
  - destruct (Copy_spec (S (readerSize (RespBody resp))) (RespBody resp) w1)
      as (new & Heq & Hw & Hf); [lia|].
    eexists _, new. split; [exact Heq|]. cbn [events status]. rewrite He1, Hs1.
    repeat split; try done. by destruct (status w).
Qed.

(** C5 (streaming fidelity).  However the upstream body is cut into reads,
    [copyResponse] comes to an end and the bytes it writes to the caller
    are, in order, the bytes it read from the body.  With a writer that
    can flush, every write is a piece of 1 to 1024 bytes followed at once
    by a flush; with one that cannot, the body goes through [io.Copy] and
    nothing is flushed.  Two bodies that deliver the same bytes in
    different pieces are relayed as the same bytes. *)
Theorem streaming_fidelity (flusher : bool) (resp : Response) (w : ResponseWriter) :
  (exists w' new,
     copyResponse flusher resp w = Some w' /\
     events w' = events w ++ new /\
     written new = delivered (RespBody resp) /\
     written (events w') = written (events w) +:+ delivered (RespBody resp) /\
     (if flusher then flushedWrites 1024 new else EvFlush ∉ new)) /\
  (forall resp2 w1 w2,
     delivered (RespBody resp2) = delivered (RespBody resp) ->
     copyResponse flusher resp w = Some w1 ->
     copyResponse flusher resp2 w = Some w2 ->
     written (events w1) = written (events w2)).
Proof.
  split.
  - destruct (copyResponse_spec flusher resp w) as (w' & new & Heq & He & Hw & Hf & _).
    exists w', new. repeat split; try done. by rewrite He, written_app, Hw.
  - intros resp2 w1 w2 Hd H1 H2.
    destruct (copyResponse_spec flusher resp w) as (w1' & n1 & Heq1 & He1 & Hw1 & _).
    destruct (copyResponse_spec flusher resp2 w) as (w2' & n2 & Heq2 & He2 & Hw2 & _).
    rewrite H1 in Heq1. rewrite H2 in Heq2.
    injection Heq1 as <-. injection Heq2 as <-.
    by rewrite He1, He2, !written_app, Hw1, Hw2, Hd.
Qed.

(** Witness of [streaming_fidelity]: the bytes [abcdef] delivered in one
    read and in two. *)
Lemma streaming_fidelity_witness :
  written (events (default newResponseWriter
                     (copyResponse true examples.wholeResponse newResponseWriter)))
  = written (events (default newResponseWriter
                       (copyResponse true examples.splitResponse newResponseWriter))).
Proof.
  destruct (streaming_fidelity true examples.wholeResponse newResponseWriter)
    as [_ H].
  apply (H examples.splitResponse); reflexivity.
Defined.

(** ** Client sessions *)

Lemma lookup_foldr_delete (m : gmap string ClientInfo) (ks : list string) id :
  foldr delete m ks !! id = if decide (id ∈ ks) then None else m !! id.
Proof.
  induction ks as [|k ks IH]; simpl.
  - destruct (decide (id ∈ [])) as [H|H]; [inversion H | done].
  - rewrite lookup_delete. destruct (decide (k = id)) as [->|Hne].
    + destruct (decide (id ∈ id :: ks)) as [H|H]; [done|].
      exfalso. apply H. apply list_elem_of_here.
    + rewrite IH. destruct (decide (id ∈ ks)) as [H|H].
      * destruct (decide (id ∈ k :: ks)) as [H'|H']; [done|].
        exfalso. apply H'. by apply list_elem_of_further.
      * destruct (decide (id ∈ k :: ks)) as [H'|H']; [|done].
        apply elem_of_cons in H' as [-> | H']; done.
Qed.

Lemma elem_of_toRemove now timeout (m : gmap string ClientInfo) id :
  id ∈ fst <$> map_to_list (filter (fun kv => inactive now timeout (snd kv) = true) m)
  <-> exists client, m !! id = Some client /\ inactive now timeout client = true.
Proof.
  rewrite list_elem_of_fmap. split.
  - intros ([k client] & -> & Hin). apply elem_of_map_to_list in Hin.
    apply map_lookup_filter_Some in Hin as [Hm HP]. by exists client.
  - intros (client & Hm & HP). exists (id, client). split; [done|].
    apply elem_of_map_to_list. by apply map_lookup_filter_Some.
Qed.

(** [now.Sub(t) > timeout] compares the true elapsed time, unless the
    timeout is the largest duration there is. *)
Lemma inactive_elapsed now timeout client :
  minInt64 <= timeout < maxInt64 ->
  inactive now timeout client = true <-> timeout < now - LastPing client.
Proof.
  intros Ht. unfold inactive, Time_Sub. rewrite Z.ltb_lt.
  destruct (maxInt64 <? now - LastPing client) eqn:H1.
  - apply Z.ltb_lt in H1. lia.
  - apply Z.ltb_ge in H1.
    destruct (now - LastPing client <? minInt64) eqn:H2.
    + apply Z.ltb_lt in H2. lia.
    + done.
Qed.

(** C8 (session sweep).  For a timeout that is a duration short of the
    largest one, a sweep at time [now] removes exactly the sessions whose
    last heartbeat is more than the timeout before [now] and keeps the
    others as they are; it returns the number of sessions removed.  If it
    removed at least one session and none is left, it starts the
    registered callback in a goroutine, once; otherwise, and in particular
    when it removed nothing, it starts none. *)
Theorem session_sweep (timeout : Duration) (now : Time) (cm : ClientManager) :
  minInt64 <= timeout < maxInt64 ->
  let cm' := fst (fst (CleanupInactiveClients timeout now cm)) in
  let removed := snd (fst (CleanupInactiveClients timeout now cm)) in
  let spawned := snd (CleanupInactiveClients timeout now cm) in
  (forall id,
     clients cm' !! id =
     match clients cm !! id with
     | Some client =>
         if decide (timeout < now - LastPing client) then None else Some client
     | None => None
     end) /\
  removed = size (filter (fun kv => timeout < now - LastPing (snd kv)) (clients cm)) /\
  onEmpty cm' = onEmpty cm /\
  (forall callback, onEmpty cm = Some callback ->
     clients cm' = ∅ -> (0 < removed)%nat -> spawned = [callback]) /\
  (clients cm' <> ∅ -> spawned = []) /\
  (removed = 0%nat -> spawned = [] /\ clients cm' = clients cm).
Proof.
  intros Ht cm' removed spawned.
  assert (Hlookup : forall id,
     clients cm' !! id =
     match clients cm !! id with
     | Some client =>
         if decide (timeout < now - LastPing client) then None else Some client
     | None => None
     end).
  { intros id. unfold cm'. simpl. rewrite lookup_foldr_delete.
    destruct (decide (id ∈ _)) as [Hin|Hnin].
    - apply elem_of_toRemove in Hin as (client & Hm & HP). rewrite Hm.
      apply inactive_elapsed in HP; [|done]. by rewrite decide_True.
    - destruct (clients cm !! id) as [client|] eqn:Hm; [|done].
      destruct (decide (timeout < now - LastPing client)) as [Hold|Hnew]; [|done].
      exfalso. apply Hnin. apply elem_of_toRemove. exists client.
      split; [done|]. by apply inactive_elapsed. }
  assert (Hremoved : removed =
            size (filter (fun kv => timeout < now - LastPing (snd kv)) (clients cm))).
  { unfold removed. simpl. rewrite length_fmap, length_map_to_list. f_equal.
    apply map_filter_ext. intros id client _. simpl. by apply inactive_elapsed. }
  split; [exact Hlookup|]. split; [exact Hremoved|]. split; [done|].
  assert (Hspawned : spawned =
            goOnEmpty ((size (clients cm') =? 0)%nat && (0 <? removed)%nat) cm') by done.
  split; [|split].
  - intros callback Hcb Hempty Hpos. rewrite Hspawned. unfold goOnEmpty.
    assert (onEmpty cm' = Some callback) as -> by done.
    rewrite Hempty, map_size_empty. simpl.
    apply Nat.ltb_lt in Hpos. by rewrite Hpos.
  - intros Hne. rewrite Hspawned. unfold goOnEmpty.
    destruct (onEmpty cm'); [|done].
    destruct (size (clients cm') =? 0)%nat eqn:H0; [|done].
    apply Nat.eqb_eq, map_size_empty_iff in H0. done.
  - intros H0.
    assert (Hsame : clients cm' = clients cm).
    { apply map_eq. intros id. rewrite Hlookup.
      destruct (clients cm !! id) as [client|] eqn:Hm; [|done].
      destruct (decide (timeout < now - LastPing client)) as [Hold|Hnew]; [|done].
      exfalso. rewrite Hremoved in H0. apply map_size_empty_iff in H0.
      assert (filter (fun kv => timeout < now - LastPing (snd kv)) (clients cm) !! id
              = Some client) as Hf by (by apply map_lookup_filter_Some).
      rewrite H0 in Hf. by rewrite lookup_empty in Hf. }
    split; [|done]. rewrite Hspawned. unfold goOnEmpty.
    destruct (onEmpty cm'); [|done]. rewrite H0. simpl. by rewrite andb_false_r.
Qed.

(** Witness of [session_sweep]: the only session is six minutes old and the
    sweep, with a window of five, removes it and starts the callback. *)
Lemma session_sweep_witness :
  snd (CleanupInactiveClients (300 * Second) (examples.tFail + 6 * Minute)
         examples.sweepManager) = ["shutdown"].
Proof.
  destruct (session_sweep (300 * Second) (examples.tFail + 6 * Minute)
              examples.sweepManager) as (_ & _ & _ & Hcb & _).
  - unfold minInt64, maxInt64, Second. lia.
  - apply (Hcb "shutdown").
    + reflexivity.
    + vm_compute. reflexivity.
    + vm_compute. lia.
Defined.

(** ** Error answers *)

Lemma writeAnthropicError_spec statusCode errorType message w :
  header (writeAnthropicError statusCode errorType message w)
    = <["Content-Type" := ["application/json"]]> (header w) /\
  status (writeAnthropicError statusCode errorType message w)
    = match status w with Some c => Some c | None => Some statusCode end /\
  events (writeAnthropicError statusCode errorType message w)
    = events w ++ [EvWrite (marshalAnthropicErrorResponse
                              {| Type_ := "error"; ErrorType := errorType;
                                 ErrorMessage := "CCENV " +:+ message |})].
Proof.
  unfold writeAnthropicError, Write, WriteHeader, setHeader, Header_Set. simpl.
  by destruct (status w).
Qed.

(** The reply to a selection that found no provider. *)
Lemma overloaded_body :
  marshalAnthropicErrorResponse
    {| Type_ := "error"; ErrorType := "overloaded_error";
       ErrorMessage := "CCENV " +:+ "无可用的服务提供商" |}
  = json.text "{'type':'error','error':{'type':'overloaded_error','message':'CCENV 无可用的服务提供商'}}".
Proof. vm_compute. reflexivity. Qed.

Lemma all_off_NoProviderAvailable now pm :
  (forall ps, ps ∈ provider.providers pm -> config.State (provider.Provider ps) <> "on") ->
  snd (provider.GetNextProvider now pm) = provider.NoProviderAvailable.
Proof.
  intros Hoff. apply provider_theory.GetNextProvider_NoProviderAvailable.
  destruct (provider.getAvailableProviders _) as [|k l] eqn:Hav; [done|].
  assert (k ∈ provider.getAvailableProviders (provider.updateProviderStates now pm))
    as Hin by (rewrite Hav; apply list_elem_of_here).
  apply provider_theory.elem_of_getAvailableProviders in Hin as (ps & Hk & Havail).
  simpl in Hk. rewrite list_lookup_fmap in Hk.
  destruct (provider.providers pm !! k) as [ps0|] eqn:Hk0; [|done].
  simpl in Hk. injection Hk as <-.
  apply provider_theory.isAvailable_updateProviderState in Havail as [Hon _].
  exfalso. apply (Hoff ps0); [|done]. by eapply list_elem_of_lookup_2.
Qed.

(** C6 (no provider).  When the selection reports that no provider is
    available, which it does in particular when no provider is configured
    "on", a POST to [/v1/messages], which the server hands to
    [handleMessages], is answered with the status 503 and the error envelope
    of type "overloaded_error", and nothing is sent upstream: the only call
    made is the selection. *)
Theorem no_provider_scenario (env : Env) (r : Request) (w : ResponseWriter)
    (p : ProxyServer) :
  Path r = "/v1/messages" ->
  Method r = "POST" ->
  snd (provider.GetNextProvider (selectedAt env) (providerManager p))
    = provider.NoProviderAvailable \/
  (forall ps, ps ∈ provider.providers (providerManager p) ->
              config.State (provider.Provider ps) <> "on") ->
  exists w' p',
    ServeHTTP env r w p = Done w' p' /\
    handleMessages env r w p = Done w' p' /\
    (status w = None -> status w' = Some 503) /\
    events w' = events w ++
      [EvWrite (json.text "{'type':'error','error':{'type':'overloaded_error','message':'CCENV 无可用的服务提供商'}}")] /\
    events w' = events w ++
      [EvWrite (marshalAnthropicErrorResponse
                  {| Type_ := "error"; ErrorType := "overloaded_error";
                     ErrorMessage := "CCENV 无可用的服务提供商" |})] /\
    sent p' = sent p /\
    history p' = history p ++ [provider.CallSelect (selectedAt env)].
Proof.
  intros Hpath Hpost Hnone.
  assert (Hsel : snd (provider.GetNextProvider (selectedAt env) (providerManager p))
                 = provider.NoProviderAvailable).
  { destruct Hnone as [H | H]; [done | by apply all_off_NoProviderAvailable]. }
  unfold ServeHTTP. rewrite Hpath. cbn [route String.eqb Ascii.eqb Bool.eqb].
  cbv iota.
  unfold handleMessages, GetNextProvider. rewrite Hpost. simpl (negb _). cbv iota.
  destruct (provider.GetNextProvider (selectedAt env) (providerManager p))
    as [pm pick]. simpl in Hsel. subst pick.
  eexists _, _. split; [reflexivity|]. split; [reflexivity|].
  destruct (writeAnthropicError_spec StatusServiceUnavailable "overloaded_error"
              "无可用的服务提供商" w) as (_ & Hs & He).
  split; [|split; [|split; [|split]]].
  - intros Hw. rewrite Hs, Hw. done.
  - rewrite He, overloaded_body. done.
  - rewrite He. done.
  - done.
  - done.
Qed.

(** Witness of [no_provider_scenario]: every provider is "off". *)
Lemma no_provider_scenario_witness :
  exists w' p',
    handleMessages examples.deafEnv
      (examples.request "POST" "/v1/messages" "{}") newResponseWriter
      (examples.freshServer examples.offManager) = Done w' p' /\
    status w' = Some 503 /\ sent p' = [].
Proof.
  destruct (no_provider_scenario examples.deafEnv
              (examples.request "POST" "/v1/messages" "{}") newResponseWriter
              (examples.freshServer examples.offManager))
    as (w' & p' & _ & Heq & Hs & _ & _ & Hsent & _).
  - reflexivity.
  - reflexivity.
  - left. vm_compute. reflexivity.
  - exists w', p'. split; [exact Heq|]. split; [by apply Hs | exact Hsent].
Defined.

(** ** Forwarding *)

Lemma doAndRelay_spec env req providerName w p w' p' :
  doAndRelay env req providerName w p = Done w' p' ->
  sent p' = sent p ++ [req] /\
  match Do env req with
  | None =>
      w' = writeAnthropicError StatusBadGateway "api_error" "请求转发失败" w /\
      p' = RecordFailure env providerName (send req p)
  | Some resp =>
      copyResponse (isFlusher env) resp w = Some w' /\
      history p' = history p ++ [recording env providerName resp] /\
      providerManager p' =
        provider.step (recording env providerName resp) (providerManager p)
  end.
Proof.
  unfold doAndRelay, recording. destruct (Do env req) as [resp|].
  - destruct (copyResponse (isFlusher env) resp w) as [w1|]; [|done].
    intros [= <- <-]. by destruct (500 <=? StatusCode resp).
  - by intros [= <- <-].
Qed.

(** Once the request is built, the handler always comes to an answer. *)
Lemma doAndRelay_Done env req providerName w p :
  exists w' p', doAndRelay env req providerName w p = Done w' p'.
Proof.
  unfold doAndRelay. destruct (Do env req) as [resp|]; [|by eexists _, _].
  destruct (copyResponse_spec (isFlusher env) resp w) as (w' & new & -> & _).
  by eexists _, _.
Qed.

(** An answer that left the list of upstream requests as it was did not
    forward anything. *)
Ltac not_sent H :=
  exfalso; apply (f_equal (@length UpstreamRequest)) in H;
  rewrite length_app in H; simpl in H; lia.

Lemma relayed env req0 providerName w p w' p' req resp :
  doAndRelay env req0 providerName w p = Done w' p' ->
  sent p' = sent p ++ [req] -> Do env req = Some resp ->
  req0 = req /\
  copyResponse (isFlusher env) resp w = Some w' /\
  history p' = history p ++ [recording env providerName resp] /\
  providerManager p' = provider.step (recording env providerName resp) (providerManager p).
Proof.
  intros Hdo Hsent Hresp. apply doAndRelay_spec in Hdo as [Hs Hrest].
  rewrite Hs in Hsent. apply app_inj_tail in Hsent as [_ ->].
  rewrite Hresp in Hrest. done.
Qed.

Lemma forwardMessages_responded env r providerState body w p w' p' req resp :
  forwardMessages env r providerState body w p = Done w' p' ->
  sent p' = sent p ++ [req] -> Do env req = Some resp ->
  copyResponse (isFlusher env) resp w = Some w' /\
  history p' = history p
               ++ [recording env (config.Name (provider.Provider providerState)) resp] /\
  providerManager p' =
    provider.step (recording env (config.Name (provider.Provider providerState)) resp)
      (providerManager p).
Proof.
  unfold forwardMessages. intros Hdone Hsent Hresp.
  destruct (ReadAll body) as [bodyBytes [e|]].
  { injection Hdone as <- <-. not_sent Hsent. }
  destruct (if negb _ then _ else _) as [modifiedBody| | |]; try done.
  - destruct (newRequestFails env _ _).
    + injection Hdone as <- <-. not_sent Hsent.
    + by destruct (relayed _ _ _ _ _ _ _ _ _ Hdone Hsent Hresp) as (_ & H).
  - injection Hdone as <- <-. not_sent Hsent.
Qed.

Lemma forwardRequest_responded env r targetURL providerState w p w' p' req resp :
  forwardRequest env r targetURL providerState w p = Done w' p' ->
  sent p' = sent p ++ [req] -> Do env req = Some resp ->
  copyResponse (isFlusher env) resp w = Some w' /\
  history p' = history p
               ++ [recording env (config.Name (provider.Provider providerState)) resp] /\
  providerManager p' =
    provider.step (recording env (config.Name (provider.Provider providerState)) resp)
      (providerManager p).
Proof.
  unfold forwardRequest. intros Hdone Hsent Hresp.
  destruct (match Body r with Some body => ReadAll body | None => _ end)
    as [bodyBytes [e|]].
  { injection Hdone as <- <-. not_sent Hsent. }
  destruct (newRequestFails env _ _).
  - injection Hdone as <- <-. not_sent Hsent.
  - by destruct (relayed _ _ _ _ _ _ _ _ _ Hdone Hsent Hresp) as (_ & H).
Qed.

Lemma handleMessages_responded env r w p w' p' req resp :
  handleMessages env r w p = Done w' p' ->
  sent p' = sent p ++ [req] -> Do env req = Some resp ->
  responded env w w' p p' resp.
Proof.
  unfold handleMessages, GetNextProvider, responded. intros Hdone Hsent Hresp.
  destruct (negb _).
  { injection Hdone as <- <-. not_sent Hsent. }
  destruct (provider.GetNextProvider (selectedAt env) (providerManager p))
    as [pm [i| |]]; simpl; [| |done].
  - simpl in Hdone.
    destruct (provider.providers pm !! i) as [providerState|] eqn:Hi; [|done].
    destruct (Body r) as [body|]; [|done].
    apply (forwardMessages_responded _ _ _ _ _ _ _ _ req resp) in Hdone
      as (Hcopy & Hhist & Hpm); [|done|done].
    exists i, providerState. simpl in *. rewrite Hhist, Hpm, <- app_assoc. done.
  - injection Hdone as <- <-. not_sent Hsent.
Qed.

Lemma selectAndForward_responded env r target w p w' p' req resp :
  selectAndForward env r target w p = Done w' p' ->
  sent p' = sent p ++ [req] -> Do env req = Some resp ->
  responded env w w' p p' resp.
Proof.
  unfold selectAndForward, GetNextProvider, responded. intros Hdone Hsent Hresp.
  destruct (provider.GetNextProvider (selectedAt env) (providerManager p))
    as [pm [i| |]]; simpl; [| |done].
  - simpl in Hdone.
    destruct (provider.providers pm !! i) as [providerState|] eqn:Hi; [|done].
    apply (forwardRequest_responded _ _ _ _ _ _ _ _ req resp) in Hdone
      as (Hcopy & Hhist & Hpm); [|done|done].
    exists i, providerState. simpl in *. rewrite Hhist, Hpm, <- app_assoc. done.
  - injection Hdone as <- <-. not_sent Hsent.
Qed.

Lemma quote_prefixed text :
  json.quote ("CCENV " +:+ text)
  = String json.quoteChar ("CCENV " +:+ json.appendString 0 0 text +:+ json.str json.quoteChar).
Proof. reflexivity. Qed.

(** The bytes of an error envelope: the description comes right after the
    prefix. *)
Lemma errorEnvelope_bytes errorType text :
  errorEnvelope errorType text
  = json.text "{'type':'error','error':{'type':" +:+ json.quote errorType
    +:+ json.text ",'message':'CCENV " +:+ json.appendString 0 0 text
    +:+ json.text "'}}".
Proof.
  unfold errorEnvelope, marshalAnthropicErrorResponse. cbn [Type_ ErrorType ErrorMessage].
  rewrite quote_prefixed. unfold json.quote at 6.
  rewrite !append_cons, !append_assoc. reflexivity.
Qed.

Lemma handleV1Routes_responded env r w p w' p' req resp :
  handleV1Routes env r w p = Done w' p' ->
  sent p' = sent p ++ [req] -> Do env req = Some resp ->
  responded env w w' p p' resp.
Proof.
  unfold handleV1Routes. destruct (String.eqb _ _).
  - apply handleMessages_responded.
  - apply selectAndForward_responded.
Qed.

(** The session endpoints send nothing upstream. *)
Lemma session_handlers_sent env r w p w' p' :
  handleClientRegister env r w p = Done w' p' \/
  handleClientUnregister env r w p = Done w' p' \/
  handleClientHeartbeat env r w p = Done w' p' ->
  sent p' = sent p.
Proof.
  unfold handleClientRegister, handleClientUnregister, handleClientHeartbeat.
  intros [H | [H | H]]; destruct (negb _); try (by injection H as <- <-);
    destruct (decodeClientRequest env (Body r)) as [req|err];
    try (by injection H as <- <-).
  - destruct (UnregisterClient _ _) as [[cm success] spawned].
    destruct success; by injection H as <- <-.
  - destruct (UpdateHeartbeat _ _ _) as [cm success].
    destruct success; by injection H as <- <-.
Qed.

Lemma ServeHTTP_responded env r w p w' p' req resp :
  ServeHTTP env r w p = Done w' p' ->
  sent p' = sent p ++ [req] -> Do env req = Some resp ->
  responded env w w' p p' resp.
Proof.
  unfold ServeHTTP. intros Hdone Hsent Hresp.
  destruct (route (Path r)); try done.
  - assert (sent p' = sent p) as Hs by (eapply session_handlers_sent; eauto).
    rewrite Hs in Hsent. not_sent Hsent.
  - assert (sent p' = sent p) as Hs by (eapply session_handlers_sent; eauto).
    rewrite Hs in Hsent. not_sent Hsent.
  - assert (sent p' = sent p) as Hs by (eapply session_handlers_sent; eauto).
    rewrite Hs in Hsent. not_sent Hsent.
  - by eapply handleMessages_responded.
  - by eapply handleV1Routes_responded.
  - by eapply selectAndForward_responded.
  - unfold handleCatchAll in Hdone. injection Hdone as <- <-. not_sent Hsent.
Qed.

Lemma FailureCount_failProviderState now1 now2 ps :
  provider.FailureCount (provider.failProviderState now1 now2 ps)
  = wrap_int (provider.FailureCount ps + 1).
Proof. unfold provider.failProviderState. by destruct (5 <=? _). Qed.

Lemma FailureCount_succeedProviderState ps :
  0 <= provider.FailureCount ps ->
  provider.FailureCount (provider.succeedProviderState ps) = 0.
Proof.
  intros H. unfold provider.succeedProviderState.
  destruct (0 <? provider.FailureCount ps) eqn:Hpos; [done|].
  apply Z.ltb_ge in Hpos. lia.
Qed.

(** C7 (upstream outcome recording).  Let the server, through one of its
    forwarding handlers ([handleMessages], [handleV1Routes], [handleHealth]),
    have sent a request upstream and received a response.  Then the response is relayed as it
    is: its status is the status of the answer and its body bytes are the
    bytes written.  And after the selection exactly one call is made on the
    provider manager, under the name of the selected provider: a failure
    when the status is 500 or more, a success otherwise.  Where that name
    designates the selected provider itself, its failure count is one more
    than before in the first case and 0 in the second. *)
Theorem upstream_outcome_recording (env : Env) (r : Request)
    (w w' : ResponseWriter) (p p' : ProxyServer)
    (req : UpstreamRequest) (resp : Response) :
  ServeHTTP env r w p = Done w' p' \/
  handleMessages env r w p = Done w' p' \/
  handleV1Routes env r w p = Done w' p' \/
  handleHealth env r w p = Done w' p' ->
  sent p' = sent p ++ [req] ->
  Do env req = Some resp ->
  exists i providerState pm1,
    provider.GetNextProvider (selectedAt env) (providerManager p)
      = (pm1, provider.Picked i) /\
    provider.providers pm1 !! i = Some providerState /\
    (status w = None -> status w' = Some (StatusCode resp)) /\
    written (events w') = written (events w) +:+ delivered (RespBody resp) /\
    (forall k,
       header w' !! k
       = match RespHeader resp !! k with
         | Some (value :: values) =>
             Some (default [] (header w !! k) ++ value :: values)
         | _ => header w !! k
         end) /\
    (500 <= StatusCode resp ->
       history p' = history p
         ++ [provider.CallSelect (selectedAt env);
             provider.CallFailure (config.Name (provider.Provider providerState))
               (fst (failedAt env)) (snd (failedAt env))] /\
       providerManager p' =
         provider.RecordFailure (config.Name (provider.Provider providerState))
           (fst (failedAt env)) (snd (failedAt env)) pm1) /\
    (StatusCode resp < 500 ->
       history p' = history p
         ++ [provider.CallSelect (selectedAt env);
             provider.CallSuccess (config.Name (provider.Provider providerState))] /\
       providerManager p' =
         provider.RecordSuccess (config.Name (provider.Provider providerState)) pm1) /\
    (provider.firstNamed (config.Name (provider.Provider providerState))
       (provider.providers pm1) = Some i ->
     exists providerState',
       provider.providers (providerManager p') !! i = Some providerState' /\
       (500 <= StatusCode resp ->
          provider.FailureCount providerState'
          = wrap_int (provider.FailureCount providerState + 1)) /\
       (StatusCode resp < 500 -> 0 <= provider.FailureCount providerState ->
          provider.FailureCount providerState' = 0)).
Proof.
  intros Hdone Hsent Hresp.
  assert (Hr : responded env w w' p p' resp).
  { destruct Hdone as [H | [H | [H | H]]].
    - by eapply ServeHTTP_responded.
    - by eapply handleMessages_responded.
    - by eapply handleV1Routes_responded.
    - by eapply selectAndForward_responded. }
  destruct Hr as (i & providerState & Hpick & Hi & Hcopy & Hhist & Hpm).
  destruct (provider.GetNextProvider (selectedAt env) (providerManager p))
    as [pm1 pick] eqn:Hsel. simpl in Hpick, Hi, Hpm. subst pick.
  exists i, providerState, pm1. split; [done|]. split; [done|].
  destruct (copyResponse_spec (isFlusher env) resp w)
    as (w1 & new & Hcopy1 & Hev & Hwr & _ & Hst & Hhd).
  rewrite Hcopy in Hcopy1. injection Hcopy1 as <-.
  split; [by intros Hw; rewrite Hst, Hw|].
  split; [by rewrite Hev, written_app, Hwr|].
  split; [intros k; rewrite Hhd; apply copyHeaders_lookup|].
  unfold recording in Hhist, Hpm.
  split; [|split].
  - intros H500. apply Z.leb_le in H500. rewrite H500 in Hhist, Hpm. done.
  - intros H500. apply Z.leb_gt in H500. rewrite H500 in Hhist, Hpm. done.
  - intros Hname. destruct (500 <=? StatusCode resp) eqn:H500.
    + exists (provider.failProviderState (fst (failedAt env)) (snd (failedAt env))
                providerState).
      rewrite Hpm. unfold provider.step. simpl.
      rewrite provider_theory.updateFirstNamed_lookup, Hi by done.
      split; [done|]. split.
      * intros _. apply FailureCount_failProviderState.
      * intros Hlt. apply Z.leb_le in H500. lia.
    + exists (provider.succeedProviderState providerState).
      rewrite Hpm. unfold provider.step. simpl.
      rewrite provider_theory.updateFirstNamed_lookup, Hi by done.
      split; [done|]. split.
      * intros Hge. apply Z.leb_gt in H500. lia.
      * intros _. apply FailureCount_succeedProviderState.
Qed.

(** Witness of [upstream_outcome_recording]: the only provider answers
    503. *)
Lemma upstream_outcome_recording_witness :
  history (serverOf (ServeHTTP (examples.answeringEnv examples.failureResponse)
                       (examples.request "POST" "/v1/messages" "{}") newResponseWriter
                       (examples.freshServer examples.soloManager))
             (examples.freshServer examples.soloManager))
  = [provider.CallSelect examples.tFail;
     provider.CallFailure "A" examples.tFail examples.tFail].
Proof.
  set (env := examples.answeringEnv examples.failureResponse).
  set (r := examples.request "POST" "/v1/messages" "{}").
  set (p := examples.freshServer examples.soloManager).
  set (o := ServeHTTP env r newResponseWriter p).
  destruct (upstream_outcome_recording env r newResponseWriter (writerOf o) p
              (serverOf o p)
              {| reqMethod := "POST";
                 reqURL := "https://api.example.com/v1/messages";
                 reqHeader := Header_Set "Content-Length" "2"
                                (Header_Set "Authorization" "Bearer sk-1" ∅);
                 reqBody := "{}" |}
              examples.failureResponse)
    as (i & providerState & pm1 & Hsel & Hi & _ & _ & _ & Hfail & _).
  - left. vm_compute. reflexivity.
  - vm_compute. reflexivity.
  - reflexivity.
  - destruct Hfail as [Hh _]; [vm_compute; discriminate|].
    rewrite Hh.
    assert (Hsel' : provider.GetNextProvider (selectedAt env) (providerManager p)
                    = (provider.updateProviderStates examples.tFail examples.soloManager,
                       provider.Picked 0)) by (vm_compute; reflexivity).
    rewrite Hsel' in Hsel. injection Hsel as <- <-.
    vm_compute in Hi. injection Hi as <-. reflexivity.
Defined.

(** ** The shape of the answers *)

Ltac status_in := rewrite !elem_of_cons; auto 10.

Lemma proxyError_intro statusCode errorType text w :
  statusCode ∈ [400; 404; 405; 500; 502; 503] ->
  proxyError w (writeAnthropicError statusCode errorType text w).
Proof. intros H. by exists statusCode, errorType, text. Qed.

Lemma doAndRelay_answered env req providerName w p w' p' :
  doAndRelay env req providerName w p = Done w' p' ->
  proxyError w w' \/ upstreamRelay env w w' p'.
Proof.
  intros Hdone. apply doAndRelay_spec in Hdone as [Hsent Hrest].
  destruct (Do env req) as [resp|] eqn:Hresp.
  - right. exists req, resp. destruct Hrest as (Hcopy & _).
    split; [by rewrite Hsent, last_snoc | done].
  - left. destruct Hrest as [-> _]. apply proxyError_intro.
    unfold StatusBadGateway. status_in.
Qed.

Lemma forwardMessages_answered env r providerState body w p w' p' :
  forwardMessages env r providerState body w p = Done w' p' ->
  proxyError w w' \/ upstreamRelay env w w' p'.
Proof.
  unfold forwardMessages. intros Hdone.
  destruct (ReadAll body) as [bodyBytes [e|]].
  { injection Hdone as <- <-. left. apply proxyError_intro.
    unfold StatusBadRequest. status_in. }
  destruct (if negb _ then _ else _) as [modifiedBody| | |]; try done.
  - destruct (newRequestFails env _ _).
    + injection Hdone as <- <-. left. apply proxyError_intro.
      unfold StatusInternalServerError. status_in.
    + by eapply doAndRelay_answered.
  - injection Hdone as <- <-. left. apply proxyError_intro.
    unfold StatusInternalServerError. status_in.
Qed.

Lemma forwardRequest_answered env r targetURL providerState w p w' p' :
  forwardRequest env r targetURL providerState w p = Done w' p' ->
  proxyError w w' \/ upstreamRelay env w w' p'.
Proof.
  unfold forwardRequest. intros Hdone.
  destruct (match Body r with Some body => ReadAll body | None => _ end)
    as [bodyBytes [e|]].
  { injection Hdone as <- <-. left. apply proxyError_intro.
    unfold StatusBadRequest. status_in. }
  destruct (newRequestFails env _ _).
  - injection Hdone as <- <-. left. apply proxyError_intro.
    unfold StatusInternalServerError. status_in.
  - by eapply doAndRelay_answered.
Qed.

Lemma handleMessages_answered env r w p w' p' :
  handleMessages env r w p = Done w' p' ->
  proxyError w w' \/ upstreamRelay env w w' p'.
Proof.
  unfold handleMessages, GetNextProvider. intros Hdone.
  destruct (negb _).
  { injection Hdone as <- <-. left. apply proxyError_intro.
    unfold StatusMethodNotAllowed. status_in. }
  destruct (provider.GetNextProvider (selectedAt env) (providerManager p))
    as [pm [i| |]]; simpl in Hdone; [| |done].
  - destruct (provider.providers pm !! i) as [providerState|]; [|done].
    destruct (Body r) as [body|]; [|done].
    by eapply forwardMessages_answered.
  - injection Hdone as <- <-. left. apply proxyError_intro.
    unfold StatusServiceUnavailable. status_in.
Qed.

Lemma selectAndForward_answered env r target w p w' p' :
  selectAndForward env r target w p = Done w' p' ->
  proxyError w w' \/ upstreamRelay env w w' p'.
Proof.
  unfold selectAndForward, GetNextProvider. intros Hdone.
  destruct (provider.GetNextProvider (selectedAt env) (providerManager p))
    as [pm [i| |]]; simpl in Hdone; [| |done].
  - destruct (provider.providers pm !! i) as [providerState|]; [|done].
    by eapply forwardRequest_answered.
  - injection Hdone as <- <-. left. apply proxyError_intro.
    unfold StatusServiceUnavailable. status_in.
Qed.

Lemma refuse_spec statusCode message w :
  status (refuse statusCode message w)
    = match status w with Some c => Some c | None => Some statusCode end /\
  events (refuse statusCode message w)
    = events w ++
      [EvWrite (json.text "{'success':false,'message':" +:+ json.quote message
                +:+ "}" +:+ json.str (json.char 10))].
Proof.
  unfold refuse, encodeClientResponse, Write, WriteHeader, setHeader. simpl.
  split; [by destruct (status w) | reflexivity].
Qed.

(** The body of a session refusal is not an error envelope. *)
Lemma refusal_not_envelope message (e : AnthropicErrorResponse) :
  json.text "{'success':false,'message':" +:+ json.quote message
    +:+ "}" +:+ json.str (json.char 10)
  <> marshalAnthropicErrorResponse e.
Proof. unfold marshalAnthropicErrorResponse. intros H. discriminate H. Qed.

(** C10 (error message prefix), on the routes of the LLM API.  Whatever
    the server answers on these routes, through [handleMessages],
    [handleV1Routes], [handleHealth] and [handleCatchAll], is either an error
    of the proxy's own or the relay of an upstream response.  The first is written with one of the statuses 400,
    404, 405, 500, 502, 503 and its body is the JSON envelope whose message
    is the literal "CCENV " followed by the description.  The second
    carries the bytes of the upstream body and nothing else.  The session
    endpoints refuse a wrong method or a malformed body in their own shape,
    with a "success" flag and a bare message. *)
Theorem error_message_prefix :
  (forall env r w p w' p',
     apiRoute (Path r) = true /\ ServeHTTP env r w p = Done w' p' \/
     handleMessages env r w p = Done w' p' \/
     handleV1Routes env r w p = Done w' p' \/
     handleHealth env r w p = Done w' p' \/
     handleCatchAll env r w p = Done w' p' ->
     (exists statusCode errorType text,
        statusCode ∈ [400; 404; 405; 500; 502; 503] /\
        (status w = None -> status w' = Some statusCode) /\
        events w' = events w ++ [EvWrite (errorEnvelope errorType text)] /\
        errorEnvelope errorType text
        = marshalAnthropicErrorResponse
            {| Type_ := "error"; ErrorType := errorType;
               ErrorMessage := "CCENV " +:+ text |} /\
        errorEnvelope errorType text
        = json.text "{'type':'error','error':{'type':" +:+ json.quote errorType
          +:+ json.text ",'message':'CCENV " +:+ json.appendString 0 0 text
          +:+ json.text "'}}") \/
     (exists req resp new,
        last (sent p') = Some req /\ Do env req = Some resp /\
        (status w = None -> status w' = Some (StatusCode resp)) /\
        events w' = events w ++ new /\
        written new = delivered (RespBody resp))) /\
  (forall env r w p,
     Method r <> "POST" ->
     forall handler,
       handler ∈ [handleClientRegister; handleClientUnregister; handleClientHeartbeat] ->
       handler env r w p = Done (refuse StatusMethodNotAllowed "仅支持 POST 请求" w) p) /\
  (forall env r w p err,
     Method r = "POST" ->
     decodeClientRequest env (Body r) = inr err ->
     forall handler,
       handler ∈ [handleClientRegister; handleClientUnregister; handleClientHeartbeat] ->
       handler env r w p
       = Done (refuse StatusBadRequest ("请求数据格式错误: " +:+ err) w) p) /\
  (forall statusCode message w,
     events (refuse statusCode message w)
     = events w ++
       [EvWrite (json.text "{'success':false,'message':" +:+ json.quote message
                 +:+ "}" +:+ json.str (json.char 10))] /\
     forall e : AnthropicErrorResponse,
       json.text "{'success':false,'message':" +:+ json.quote message
         +:+ "}" +:+ json.str (json.char 10)
       <> marshalAnthropicErrorResponse e).
Proof.
  split; [|split; [|split]].
  - intros env r w p w' p' Hdone.
    assert (Hans : proxyError w w' \/ upstreamRelay env w w' p').
    { assert (Hv1 : handleV1Routes env r w p = Done w' p' ->
                    proxyError w w' \/ upstreamRelay env w w' p').
      { unfold handleV1Routes. destruct (String.eqb _ _).
        - apply handleMessages_answered.
        - apply selectAndForward_answered. }
      assert (Hall : handleCatchAll env r w p = Done w' p' ->
                     proxyError w w' \/ upstreamRelay env w w' p').
      { unfold handleCatchAll. intros [= <- <-]. left.
        apply proxyError_intro. unfold StatusNotFound. status_in. }
      destruct Hdone as [[Hapi H] | [H | [H | [H | H]]]].
      - unfold apiRoute in Hapi. unfold ServeHTTP in H.
        destruct (route (Path r)); try done.
        + by eapply handleMessages_answered.
        + by apply Hv1.
        + by eapply selectAndForward_answered.
        + by apply Hall.
      - by eapply handleMessages_answered.
      - by apply Hv1.
      - by eapply selectAndForward_answered.
      - by apply Hall. }
    destruct Hans as [(statusCode & errorType & text & Hin & ->)
                     | (req & resp & Hlast & Hresp & Hcopy)].
    + left. exists statusCode, errorType, text.
      destruct (writeAnthropicError_spec statusCode errorType text w) as (_ & Hs & He).
      split; [done|]. split; [by intros Hw; rewrite Hs, Hw|].
      split; [done|]. split; [done | apply errorEnvelope_bytes].
    + right.
      destruct (copyResponse_spec (isFlusher env) resp w)
        as (w1 & new & Hcopy1 & Hev & Hwr & _ & Hst & _).
      rewrite Hcopy in Hcopy1. injection Hcopy1 as <-.
      exists req, resp, new. repeat split; try done.
      intros Hw. by rewrite Hst, Hw.
  - intros env r w p Hm handler Hin. apply String.eqb_neq in Hm.
    rewrite !elem_of_cons in Hin.
    destruct Hin as [-> | [-> | [-> | Hin]]]; [| | |inversion Hin].
    + unfold handleClientRegister. by rewrite Hm.
    + unfold handleClientUnregister. by rewrite Hm.
    + unfold handleClientHeartbeat. by rewrite Hm.
  - intros env r w p err Hm Hdec handler Hin.
    rewrite !elem_of_cons in Hin.
    destruct Hin as [-> | [-> | [-> | Hin]]]; [| | |inversion Hin].
    + unfold handleClientRegister. by rewrite Hm, Hdec.
    + unfold handleClientUnregister. by rewrite Hm, Hdec.
    + unfold handleClientHeartbeat. by rewrite Hm, Hdec.
  - intros statusCode message w. split; [apply refuse_spec|].
    apply refusal_not_envelope.
Qed.

(** C10 as stated fails on the session endpoints: a GET of
    [/ccenv/register] is refused by the proxy itself with the status 405,
    and the body of the refusal is not an error envelope and does not
    carry the prefix. *)
Lemma session_refusal_counterexample :
  let o := ServeHTTP examples.deafEnv
             (examples.request "GET" "/ccenv/register" EmptyString)
             newResponseWriter (examples.freshServer examples.soloManager) in
  status (writerOf o) = Some 405 /\
  events (writerOf o)
    = [EvWrite (json.text "{'success':false,'message':'仅支持 POST 请求'}"
                +:+ json.str (json.char 10))] /\
  forall e : AnthropicErrorResponse,
    written (events (writerOf o)) <> marshalAnthropicErrorResponse e.
Proof.
  split; [vm_compute; reflexivity|]. split; [vm_compute; reflexivity|].
  intros e H. vm_compute in H. discriminate H.
Qed.

(** Witness of [error_message_prefix]: a GET of [/v1/messages]. *)
Lemma error_message_prefix_witness :
  exists text,
    events (writerOf (handleMessages examples.deafEnv
                        (examples.request "GET" "/v1/messages" EmptyString)
                        newResponseWriter (examples.freshServer examples.soloManager)))
    = [EvWrite (json.text "{'type':'error','error':{'type':'invalid_request_error','message':'CCENV "
                +:+ text +:+ json.text "'}}")].
Proof.
  destruct error_message_prefix as [H _].
  destruct (H examples.deafEnv (examples.request "GET" "/v1/messages" EmptyString)
              newResponseWriter (examples.freshServer examples.soloManager)
              (writeAnthropicError StatusMethodNotAllowed "invalid_request_error"
                 "仅支持 POST 请求" newResponseWriter)
              (examples.freshServer examples.soloManager))
    as [(statusCode & errorType & text & _ & _ & Hev & _ & Hbytes)
       | (req & resp & new & Hlast & _)].
  - right. left. reflexivity.
  - exists "仅支持 POST 请求". vm_compute. reflexivity.
  - vm_compute in Hlast. discriminate Hlast.
Defined.

(** ** The model rewrite *)

Lemma mapGet_mapSet_eq k v m : json.mapGet k (json.mapSet k v m) = Some v.
Proof.
  induction m as [|[k' v'] m IH]; simpl.
  - by rewrite String.eqb_refl.
  - destruct (String.eqb k' k) eqn:Hk; simpl.
    + by rewrite String.eqb_refl.
    + by rewrite Hk.
Qed.

Lemma mapGet_mapSet_ne k k' v m :
  k' <> k -> json.mapGet k' (json.mapSet k v m) = json.mapGet k' m.
Proof.
  intros Hne. induction m as [|[k0 v0] m IH]; simpl.
  - apply not_eq_sym in Hne. apply String.eqb_neq in Hne. by rewrite Hne.
  - destruct (String.eqb k0 k) eqn:Hk; simpl.
    + apply String.eqb_eq in Hk as ->.
      apply not_eq_sym in Hne. apply String.eqb_neq in Hne. by rewrite Hne.
    + by rewrite IH.
Qed.

Lemma insertByKey_Permutation e l : json.insertByKey e l ≡ₚ e :: l.
Proof.
  induction l as [|e' l IH]; simpl; [done|].
  destruct (String.leb (fst e) (fst e')); [done|].
  rewrite IH. apply Permutation_swap.
Qed.

Lemma sortByKey_Permutation l : json.sortByKey l ≡ₚ l.
Proof.
  induction l as [|e l IH]; simpl; [done|].
  by rewrite insertByKey_Permutation, IH.
Qed.

Lemma insertByKey_Sorted e l :
  Sorted json.keyLe l -> Sorted json.keyLe (json.insertByKey e l).
Proof.
  induction 1 as [|e' l Hl IH Hhd]; simpl.
  - by repeat constructor.
  - destruct (String.leb (fst e) (fst e')) eqn:Hle.
    + constructor; [by constructor | by constructor].
    + constructor; [exact IH|].
      assert (Hge : json.keyLe e' e).
      { unfold json.keyLe. destruct (String.leb_total (fst e) (fst e')); congruence. }
      destruct l as [|e2 l]; simpl; [by constructor|].
      destruct (String.leb (fst e) (fst e2)); constructor; [done|].
      by inversion Hhd.
Qed.

Lemma sortByKey_Sorted l : Sorted json.keyLe (json.sortByKey l).
Proof.
  induction l as [|e l IH]; simpl; [constructor | by apply insertByKey_Sorted].
Qed.

(** The text of an object: its entries, marshalled, sorted by key. *)
Lemma Marshal_Object m :
  json.Marshal (json.Object m)
  = "{" +:+ json.join (json.entryText <$> json.sortByKey (json.marshalEntries m)) +:+ "}".
Proof.
  simpl. do 4 f_equal. unfold json.marshalEntries.
  induction m as [|[k v] m IH]; [done|]. rewrite fmap_cons. simpl. by rewrite IH.
Qed.

(** C4 (model rewrite), on the document.  When the body parses as a JSON
    object, [modifyRequestModel] answers with the serialization of that
    object in which "model" holds the target model, as a string, and every
    other key holds the value it was parsed to.  The serialization is
    [json.Marshal]'s: the entries of the object, each value marshalled in
    turn, in the increasing order of their keys and without white space.
    [handleMessages] sends exactly these bytes upstream, with their length as
    the content length. *)
Theorem model_rewrite_preservation (bodyBytes targetModel : string)
    (requestBody : list (string * json.Value)) :
  json.Unmarshal bodyBytes = json.StoredMap requestBody ->
  let rewritten := json.mapSet "model" (json.Str targetModel) requestBody in
  modifyRequestModel bodyBytes targetModel
    = ModifiedBody (json.Marshal (json.Object rewritten)) /\
  json.mapGet "model" rewritten = Some (json.Str targetModel) /\
  (forall k, k <> "model" -> json.mapGet k rewritten = json.mapGet k requestBody) /\
  (exists entries,
     json.Marshal (json.Object rewritten)
       = "{" +:+ json.join (json.entryText <$> entries) +:+ "}" /\
     entries ≡ₚ json.marshalEntries rewritten /\
     Sorted json.keyLe entries) /\
  (forall env r providerState body w p,
     ReadAll body = (bodyBytes, None) ->
     map_get (config.Env (provider.Provider providerState)) "ANTHROPIC_MODEL"
       = targetModel ->
     targetModel <> EmptyString ->
     newRequestFails env "POST"
       (map_get (config.Env (provider.Provider providerState)) "ANTHROPIC_BASE_URL"
        +:+ "/v1/messages") = false ->
     exists w' p' req,
       forwardMessages env r providerState body w p = Done w' p' /\
       sent p' = sent p ++ [req] /\
       reqBody req = json.Marshal (json.Object rewritten) /\
       reqHeader req !! "Content-Length"
         = Some [json.itoa (Z.of_nat (String.length (reqBody req)))]).
Proof.
  intros Hparse rewritten.
  assert (Hmod : modifyRequestModel bodyBytes targetModel
                 = ModifiedBody (json.Marshal (json.Object rewritten))).
  { unfold modifyRequestModel. by rewrite Hparse. }
  split; [exact Hmod|]. split; [apply mapGet_mapSet_eq|].
  split; [intros k Hk; by apply mapGet_mapSet_ne|].
  split.
  { exists (json.sortByKey (json.marshalEntries rewritten)).
    split; [apply Marshal_Object|].
    split; [apply sortByKey_Permutation | apply sortByKey_Sorted]. }
  intros env r providerState body w p Hread Htarget Hne Hnew.
  unfold forwardMessages. rewrite Hread, Htarget.
  apply String.eqb_neq in Hne. rewrite Hne. simpl (negb false). cbv iota.
  rewrite Hmod, Hnew.
  match goal with
  | |- context [doAndRelay env ?req ?name w p] =>
      destruct (doAndRelay_Done env req name w p) as (w' & p' & Hdone);
      exists w', p', req; split; [exact Hdone|];
      apply doAndRelay_spec in Hdone as [Hsent _]
  end.
  split; [exact Hsent|]. split; [reflexivity|].
  cbn [reqHeader reqBody]. unfold Header_Set. by rewrite lookup_insert_eq.
Qed.

(** Witness of [model_rewrite_preservation]: the example of the design
    document. *)
Lemma model_rewrite_preservation_witness :
  modifyRequestModel examples.chatBody examples.targetModel
  = ModifiedBody (json.text "{'messages':[],'model':'deepseek-ai/DeepSeek-V3'}") /\
  json.Unmarshal (json.text "{'messages':[],'model':'deepseek-ai/DeepSeek-V3'}")
  = json.StoredMap [("messages", json.Array []); ("model", json.Str examples.targetModel)].
Proof.
  destruct (model_rewrite_preservation examples.chatBody examples.targetModel
              [("model", json.Str "claude-3-5-sonnet"); ("messages", json.Array [])])
    as [H _].
  - vm_compute. reflexivity.
  - split; [rewrite H|]; vm_compute; reflexivity.
Defined.

(** C4 as stated fails on the example of the design document: the body
    sent upstream has its keys in another order than the body received, so
    it is not that body with the model replaced; and a body laid out with
    spaces loses them. *)
Lemma model_rewrite_counterexample :
  modifyRequestModel examples.chatBody examples.targetModel
    = ModifiedBody (json.text "{'messages':[],'model':'deepseek-ai/DeepSeek-V3'}") /\
  ModifiedBody (json.text "{'messages':[],'model':'deepseek-ai/DeepSeek-V3'}")
    <> ModifiedBody examples.expectedBody /\
  modifyRequestModel examples.spacedBody examples.targetModel
    = ModifiedBody
        (json.text "{'max_tokens':1024,'model':'deepseek-ai/DeepSeek-V3','stream':true}").
Proof.
  split; [vm_compute; reflexivity|]. split; [|vm_compute; reflexivity].
  vm_compute. discriminate.
Qed.

End proxy_theory.

(** * Properties of the configuration *)

Module config_theory.
Import go config proxy_theory.

(** X23.  [SetDefaults] leaves a configuration in normal form: the host,
    the port, the logging level and the timeout are set, the strategy is
    "default" or "robin", being "robin" exactly when the file said "robin",
    and the API proxy is empty or starts with [http://] or [https://].  It
    does not touch the providers, and applying it again changes nothing. *)
Theorem SetDefaults_normalises (c : Settings) :
  let c' := SetDefaults c in
  CCEnvHost c' <> EmptyString /\
  CCEnvPort c' <> 0 /\
  LoggingLevel c' <> EmptyString /\
  APITimeoutMS c' <> 0 /\
  (Strategy (routing (router c')) = "default" \/
   Strategy (routing (router c')) = "robin") /\
  (Strategy (routing (router c')) = "robin" <->
   Strategy (routing (router c)) = "robin") /\
  (APIProxy c' = EmptyString \/
   HasPrefix (APIProxy c') "http://" = true \/
   HasPrefix (APIProxy c') "https://" = true) /\
  Providers (router c') = Providers (router c) /\
  SetDefaults c' = c'.
Proof.
  destruct c as [version apiKey host port apiProxy level timeout [providers [strategy]]].
  unfold SetDefaults. cbn [Version APIKey CCEnvHost CCEnvPort APIProxy LoggingLevel
                           APITimeoutMS router Providers routing Strategy].
  set (host' := if String.eqb host EmptyString then "localhost" else host).
  set (port' := if port =? 0 then 9999 else port).
  set (level' := if String.eqb level EmptyString then "INFO" else level).
  set (timeout' := if timeout =? 0 then 600000 else timeout).
  set (strategy' := if negb (String.eqb strategy "default")
                       && negb (String.eqb strategy "robin")
                    then "default" else strategy).
  set (apiProxy' := if negb (String.eqb apiProxy EmptyString)
                    then if negb (HasPrefix apiProxy "http://")
                            && negb (HasPrefix apiProxy "https://")
                         then EmptyString else apiProxy
                    else apiProxy).
  assert (Hhost : String.eqb host' EmptyString = false).
  { unfold host'. destruct (String.eqb host EmptyString) eqn:H; done. }
  assert (Hport : (port' =? 0) = false).
  { unfold port'. destruct (port =? 0) eqn:H; done. }
  assert (Hlevel : String.eqb level' EmptyString = false).
  { unfold level'. destruct (String.eqb level EmptyString) eqn:H; done. }
  assert (Htimeout : (timeout' =? 0) = false).
  { unfold timeout'. destruct (timeout =? 0) eqn:H; done. }
  assert (Hstrategy : negb (String.eqb strategy' "default")
                      && negb (String.eqb strategy' "robin") = false).
  { unfold strategy'. destruct (String.eqb strategy "default") eqn:H1; simpl.
    - by rewrite H1.
    - destruct (String.eqb strategy "robin") eqn:H2; simpl; [|done].
      by rewrite H1, H2. }
  assert (Hproxy : (if negb (String.eqb apiProxy' EmptyString)
                    then if negb (HasPrefix apiProxy' "http://")
                            && negb (HasPrefix apiProxy' "https://")
                         then EmptyString else apiProxy'
                    else apiProxy') = apiProxy').
  { unfold apiProxy'. destruct (String.eqb apiProxy EmptyString) eqn:H0; simpl.
    - by rewrite H0.
    - destruct (negb (HasPrefix apiProxy "http://")
                && negb (HasPrefix apiProxy "https://")) eqn:H1; [done|].
      by rewrite H0, H1. }
  split; [by apply String.eqb_neq|].
  split; [by apply Z.eqb_neq|].
  split; [by apply String.eqb_neq|].
  split; [by apply Z.eqb_neq|].
  split; [|split; [|split; [|split; [done|]]]].
  - unfold strategy'. destruct (String.eqb strategy "default") eqn:H1; simpl.
    + left. by apply String.eqb_eq.
    + destruct (String.eqb strategy "robin") eqn:H2; simpl; [|by left].
      right. by apply String.eqb_eq.
  - unfold strategy'. destruct (String.eqb strategy "default") eqn:H1; simpl; [done|].
    destruct (String.eqb strategy "robin") eqn:H2; simpl; [done|].
    apply String.eqb_neq in H2. split; [done|]. by intros ->.
  - unfold apiProxy'. destruct (String.eqb apiProxy EmptyString) eqn:H0; cbn [negb].
    + left. by apply String.eqb_eq.
    + destruct (HasPrefix apiProxy "http://") eqn:H1; cbn [negb andb];
        [by right; left|].
      destruct (HasPrefix apiProxy "https://") eqn:H2; cbn [negb andb];
        [by right; right | by left].
  - rewrite Hhost, Hport, Hlevel, Htimeout, Hstrategy, Hproxy. done.
Qed.

(** ** Masking *)

Lemma length_append (s t : string) :
  String.length (s +:+ t) = (String.length s + String.length t)%nat.
Proof.
  induction s as [|c s IH]; [reflexivity|]. rewrite append_cons. simpl. by rewrite IH.
Qed.

Lemma Repeat_succ n : Repeat "*" (S n) = String "*"%char (Repeat "*" n).
Proof. reflexivity. Qed.

Lemma length_Repeat_star n : String.length (Repeat "*" n) = n.
Proof. induction n as [|n IH]; [done|]. rewrite Repeat_succ. simpl. by rewrite IH. Qed.

Lemma Repeat_add a b : Repeat "*" (a + b) = Repeat "*" a +:+ Repeat "*" b.
Proof.
  induction a as [|a IH]; [reflexivity|].
  change (S a + b)%nat with (S (a + b)). by rewrite !Repeat_succ, IH, append_cons.
Qed.

Lemma length_substring s : forall n m,
  String.length (substring n m s) = (m `min` (String.length s - n))%nat.
Proof.
  induction s as [|c s IH]; intros [|n] [|m]; simpl;
    rewrite ?IH, ?Nat.sub_0_r; done.
Qed.

Lemma substring_0_append a k t :
  String.length a = k -> substring 0 k (a +:+ t) = a.
Proof.
  intros <-. revert t. induction a as [|c a IH]; intros t.
  - rewrite append_nil_l. by destruct t.
  - rewrite append_cons. simpl. by rewrite IH.
Qed.

Lemma substring_skip_append a j k m t :
  String.length a = j -> substring (j + k) m (a +:+ t) = substring k m t.
Proof.
  intros <-. induction a as [|c a IH]; [reflexivity|].
  rewrite append_cons. simpl. apply IH.
Qed.

Lemma substring_whole b k : String.length b = k -> substring 0 k b = b.
Proof. intros <-. induction b as [|c b IH]; [done|]. simpl. by rewrite IH. Qed.

Lemma maskSensitiveValue_Repeat n :
  maskSensitiveValue (Repeat "*" n) = Repeat "*" n.
Proof.
  unfold maskSensitiveValue. rewrite length_Repeat_star.
  destruct n as [|n]; [done|]. rewrite Repeat_succ at 1. simpl (String.eqb _ _).
  destruct (S n <=? 8)%nat eqn:Hn; [done|].
  apply Nat.leb_gt in Hn.
  set (m := (S n - 8)%nat).
  replace (S n - 4)%nat with (4 + (m + 0))%nat by lia.
  replace (S n) with (4 + (m + 4))%nat by lia.
  rewrite !Repeat_add.
  rewrite (substring_0_append _ 4) by apply length_Repeat_star.
  rewrite (substring_skip_append _ 4) by apply length_Repeat_star.
  rewrite (substring_skip_append _ m) by apply length_Repeat_star.
  by rewrite (substring_whole _ 4) by apply length_Repeat_star.
Qed.

(** X24.  The masked form of a secret has the length of the secret.  A
    secret of at most eight bytes is replaced by asterisks altogether; a
    longer one keeps its first four and its last four bytes, so that of a
    secret of nine bytes a single byte is hidden.  Masking a masked value
    changes nothing. *)
Theorem maskSensitiveValue_keeps_length (value : string) :
  String.length (maskSensitiveValue value) = String.length value /\
  ((String.length value <= 8)%nat ->
   maskSensitiveValue value = Repeat "*" (String.length value)) /\
  ((8 < String.length value)%nat ->
   substring 0 4 (maskSensitiveValue value) = substring 0 4 value /\
   substring (String.length value - 4) 4 (maskSensitiveValue value)
     = substring (String.length value - 4) 4 value /\
   substring 4 (String.length value - 8) (maskSensitiveValue value)
     = Repeat "*" (String.length value - 8)) /\
  maskSensitiveValue (maskSensitiveValue value) = maskSensitiveValue value.
Proof.
  assert (Hshort : (String.length value <= 8)%nat ->
                   maskSensitiveValue value = Repeat "*" (String.length value)).
  { intros Hle. unfold maskSensitiveValue.
    destruct (String.eqb value EmptyString) eqn:He.
    - apply String.eqb_eq in He. by subst.
    - apply Nat.leb_le in Hle. by rewrite Hle. }
  assert (Hlong : (8 < String.length value)%nat ->
                  maskSensitiveValue value
                  = substring 0 4 value
                    +:+ Repeat "*" (String.length value - 8)
                    +:+ substring (String.length value - 4) 4 value).
  { intros Hgt. unfold maskSensitiveValue.
    destruct (String.eqb value EmptyString) eqn:He.
    - apply String.eqb_eq in He. subst. simpl in Hgt. lia.
    - apply Nat.leb_gt in Hgt. by rewrite Hgt. }
  assert (Hlen4 : (8 < String.length value)%nat ->
                  String.length (substring 0 4 value) = 4%nat).
  { intros Hgt. rewrite length_substring. lia. }
  assert (Hlen4' : (8 < String.length value)%nat ->
                   String.length (substring (String.length value - 4) 4 value) = 4%nat).
  { intros Hgt. rewrite length_substring. lia. }
  assert (Hparts : (8 < String.length value)%nat ->
     substring 0 4 (maskSensitiveValue value) = substring 0 4 value /\
     substring (String.length value - 4) 4 (maskSensitiveValue value)
       = substring (String.length value - 4) 4 value /\
     substring 4 (String.length value - 8) (maskSensitiveValue value)
       = Repeat "*" (String.length value - 8)).
  { intros Hgt. rewrite (Hlong Hgt).
    set (a := substring 0 4 value) in *.
    set (b := substring (String.length value - 4) 4 value) in *.
    set (n := (String.length value - 8)%nat).
    specialize (Hlen4 Hgt). specialize (Hlen4' Hgt).
    split; [|split].
    - by apply substring_0_append.
    - replace (String.length value - 4)%nat with (4 + (n + 0))%nat by (unfold n; lia).
      rewrite (substring_skip_append _ 4) by done.
      rewrite (substring_skip_append _ n) by apply length_Repeat_star.
      by apply substring_whole.
    - replace 4%nat with (4 + 0)%nat at 1 by lia.
      rewrite (substring_skip_append _ 4) by done.
      apply substring_0_append, length_Repeat_star. }
  split; [|split; [exact Hshort|split; [exact Hparts|]]].
  - destruct (le_gt_dec (String.length value) 8) as [Hle|Hgt].
    + rewrite (Hshort Hle). apply length_Repeat_star.
    + rewrite (Hlong Hgt), !length_append, length_Repeat_star.
      rewrite (Hlen4 Hgt), (Hlen4' Hgt). lia.
  - destruct (le_gt_dec (String.length value) 8) as [Hle|Hgt].
    + rewrite (Hshort Hle). apply maskSensitiveValue_Repeat.
    + assert (Hmlen : String.length (maskSensitiveValue value) = String.length value).
      { rewrite (Hlong Hgt), !length_append, length_Repeat_star.
        rewrite (Hlen4 Hgt), (Hlen4' Hgt). lia. }
      destruct (Hparts Hgt) as (Ha & Hb & _).
      unfold maskSensitiveValue at 1.
      destruct (String.eqb (maskSensitiveValue value) EmptyString) eqn:He.
      { apply String.eqb_eq in He. rewrite He in Hmlen. simpl in Hmlen. lia. }
      rewrite Hmlen. apply Nat.leb_gt in Hgt. rewrite Hgt.
      apply Nat.leb_gt in Hgt. rewrite Ha, Hb. symmetry. by apply Hlong.
Qed.

End config_theory.

(** * Properties of the configuration watcher *)

Module watcher_theory.
Import go config.

Lemma reloads_spaced (cw : ConfigWatcher) name write create now1 now2 result :
  reloads cw (FileEvent name write create now1 now2 result) = true ->
  now1 <= now2 ->
  lastReloadTime cw + 1 * Second <= now2.
Proof.
  unfold reloads. rewrite !andb_true_iff, negb_true_iff, Z.ltb_ge.
  intros [_ Hsub] Hclock. revert Hsub. unfold Time_Sub, maxInt64, minInt64, Second.
  repeat case_match; lia.
Qed.

Lemma watcherOf_sendError (err : string) (cw : ConfigWatcher) :
  lastReloadTime (watcherOf (sendError err cw)) = lastReloadTime cw /\
  reloadChan (watcherOf (sendError err cw)) = reloadChan cw.
Proof. unfold sendError. by destruct (errorChan cw). Qed.

(** An iteration that does not get to [LoadConfig] leaves [lastReloadTime]
    and the reload channel as they are. *)
Lemma watchLoopBody_idle (cw : ConfigWatcher) (received : Received) :
  reloads cw received = false ->
  lastReloadTime (watcherOf (watchLoopBody cw received)) = lastReloadTime cw /\
  reloadChan (watcherOf (watchLoopBody cw received)) = reloadChan cw.
Proof.
  destruct received as [name write create now1 now2 result| |err| |]; try done.
  - unfold reloads, watchLoopBody.
    destruct (String.eqb name (configPath cw) && (write || create)); [|done].
    cbn [andb]. rewrite negb_false_iff. by intros ->.
  - intros _. apply watcherOf_sendError.
Qed.

(** An iteration that gets to [LoadConfig] sets [lastReloadTime] to the
    reading of the clock, and offers what it loaded to the reload channel. *)
Lemma watchLoopBody_reloads (cw : ConfigWatcher) name write create now1 now2 result :
  let received := FileEvent name write create now1 now2 result in
  reloads cw received = true ->
  lastReloadTime (watcherOf (watchLoopBody cw received)) = now2 /\
  reloadChan (watcherOf (watchLoopBody cw received)) =
    match reloadChan cw, result with
    | None, inl newConfig => Some newConfig
    | held, _ => held
    end.
Proof.
  unfold reloads, watchLoopBody.
  destruct (String.eqb name (configPath cw) && (write || create)); [|done].
  cbn [andb]. rewrite negb_true_iff. intros ->.
  destruct result as [newConfig|err]; cbn [reloadChan].
  - by destruct (reloadChan cw).
  - destruct (watcherOf_sendError ("重新加载配置失败: " +:+ err)
      {| configPath := configPath cw; reloadChan := reloadChan cw;
         errorChan := errorChan cw; lastReloadTime := now2 |}) as [-> ->].
    by destruct (reloadChan cw).
Qed.

(** What an action does to [lastReloadTime]: nothing when it calls no
    [LoadConfig], and the reading of the clock otherwise. *)
Lemma act_lastReloadTime (a : Action) (l : Loop) :
  clockAdvances a ->
  (loadsAt a l = [] /\
   lastReloadTime (watcherOf (act a l)) = lastReloadTime (watcherOf l)) \/
  (exists t, loadsAt a l = [t] /\ lastReloadTime (watcherOf (act a l)) = t /\
             lastReloadTime (watcherOf l) + 1 * Second <= t).
Proof.
  intros Hclock. destruct l as [cw|err cw|cw].
  - destruct a as [received| |]; [|by left..].
    destruct (reloads cw received) eqn:Hr.
    + destruct received as [name write create now1 now2 result| | | |]; try done.
      right. exists now2. cbn [loadsAt act watcherOf]. rewrite Hr.
      split; [done|]. split.
      * by apply watchLoopBody_reloads.
      * by apply (reloads_spaced _ _ _ _ _ _ _ Hr).
    + left. split.
      * destruct received; try done. cbn [loadsAt]. by rewrite Hr.
      * by apply watchLoopBody_idle.
  - left. split; [by destruct a as [[]| |]|by destruct a].
  - left. split; [by destruct a as [[]| |]|by destruct a].
Qed.

(** What an action other than a reading of the reload channel does to that
    channel: it fills it with what it loaded, when it was empty. *)
Lemma act_reloadChan (a : Action) (l : Loop) :
  a <> TakeReload ->
  reloadChan (watcherOf (act a l)) =
    match reloadChan (watcherOf l) with
    | Some held => Some held
    | None => head (loadedAt a l)
    end.
Proof.
  intros Ha. destruct l as [cw|err cw|cw].
  - destruct a as [received| |]; [|done|].
    + cbn [act watcherOf]. destruct (reloads cw received) eqn:Hr.
      * destruct received as [name write create now1 now2 result| | | |]; try done.
        destruct (watchLoopBody_reloads cw _ _ _ _ _ _ Hr) as [_ ->].
        cbn [loadedAt]. destruct (reloadChan cw); [done|].
        destruct result; [by rewrite Hr|done].
      * destruct (watchLoopBody_idle cw _ Hr) as [_ ->].
        destruct (reloadChan cw); [done|].
        destruct received as [? ? ? ? ? [?|?]| | | |]; try done.
        cbn [loadedAt]. by rewrite Hr.
    + cbn. by destruct (reloadChan cw).
  - destruct a as [[]| |]; try done; cbn; by destruct (reloadChan cw).
  - destruct a as [[]| |]; try done; cbn; by destruct (reloadChan cw).
Qed.

(** X26.  The watcher reloads the configuration at most once a second:
    whatever its loop receives and whenever its channels are read, as long
    as the clock does not go back within an iteration, each call of
    [LoadConfig] comes at least one second after the one before it, and
    after the value that [lastReloadTime] had at the start. *)
Theorem reloads_are_a_second_apart (actions : list Action) (l : Loop) :
  Forall clockAdvances actions ->
  Sorted (fun t1 t2 => t1 + 1 * Second <= t2)
         (lastReloadTime (watcherOf l) :: snd (runLoop actions l)).
Proof.
  intros Hclock. revert l.
  induction Hclock as [|a rest Ha _ IH]; intros l.
  { repeat constructor. }
  cbn [runLoop]. specialize (IH (act a l)).
  destruct (runLoop rest (act a l)) as [l' times]. cbn [snd] in *.
  destruct (act_lastReloadTime a l Ha) as [[-> Ht]|(t & -> & Ht & Hle)].
  - by rewrite Ht in IH.
  - rewrite Ht in IH. cbn [app]. constructor; [done|]. by constructor.
Qed.

Lemma reloads_are_a_second_apart_witness :
  let actions := [examples.written (5 * Second) "1"; examples.written (5 * Second + 500) "2";
                  TakeReload; examples.written (7 * Second) "3"] in
  Forall clockAdvances actions /\
  snd (runLoop actions (Running examples.freshWatcher)) = [5 * Second + 1; 7 * Second + 1] /\
  Sorted (fun t1 t2 => t1 + 1 * Second <= t2)
         (lastReloadTime (watcherOf (Running examples.freshWatcher))
            :: snd (runLoop actions (Running examples.freshWatcher))).
Proof.
  assert (Hclock : Forall clockAdvances
            [examples.written (5 * Second) "1"; examples.written (5 * Second + 500) "2";
             TakeReload; examples.written (7 * Second) "3"]).
  { repeat constructor; vm_compute; discriminate. }
  split; [exact Hclock|]. split; [reflexivity|].
  exact (reloads_are_a_second_apart _ (Running examples.freshWatcher) Hclock).
Defined.

(** X27.  The reload channel keeps the oldest configuration that was not
    taken from it: while nobody reads the channel, a configuration that it
    holds stays, every configuration loaded meanwhile is dropped, and an
    empty channel ends up with the first configuration loaded. *)
Theorem reload_channel_keeps_the_oldest (actions : list Action) (l : Loop) :
  TakeReload ∉ actions ->
  reloadChan (watcherOf (fst (runLoop actions l))) =
    match reloadChan (watcherOf l) with
    | Some held => Some held
    | None => head (loadedConfigs actions l)
    end.
Proof.
  revert l. induction actions as [|a rest IH]; intros l Hnot.
  { cbn. by destruct (reloadChan (watcherOf l)). }
  apply not_elem_of_cons in Hnot as [Ha Hrest].
  cbn [runLoop loadedConfigs]. specialize (IH (act a l) Hrest).
  destruct (runLoop rest (act a l)) as [l' times]. cbn [fst] in *.
  rewrite IH, (act_reloadChan a l) by done.
  destruct (reloadChan (watcherOf l)); [done|].
  by destruct (loadedAt a l).
Qed.

Lemma reload_channel_keeps_the_oldest_witness :
  let actions := [examples.written (5 * Second) "1"; examples.written (7 * Second) "2"] in
  (TakeReload ∉ actions) /\
  loadedConfigs actions (Running examples.freshWatcher) =
    [examples.settingsOf "1"; examples.settingsOf "2"] /\
  reloadChan (watcherOf (fst (runLoop actions (Running examples.freshWatcher)))) =
    Some (examples.settingsOf "1").
Proof.
  assert (Hnot : TakeReload ∉
            [examples.written (5 * Second) "1"; examples.written (7 * Second) "2"]).
  { rewrite !not_elem_of_cons. repeat split; [discriminate..|apply not_elem_of_nil]. }
  split; [exact Hnot|]. split; [reflexivity|].
  exact (reload_channel_keeps_the_oldest _ (Running examples.freshWatcher) Hnot).
Defined.

End watcher_theory.

(** * Further properties of the provider router *)

Module router_theory.
Import go provider provider_theory.

(** ** What a selection depends on *)

Lemma availableFrom_ext l1 : forall l2 i,
  isAvailable <$> l1 = isAvailable <$> l2 -> availableFrom i l1 = availableFrom i l2.
Proof.
  induction l1 as [|a l1 IH]; intros [|b l2] i H; try done.
  rewrite !fmap_cons in H. injection H as Hab Hl.
  simpl. rewrite Hab, (IH l2 (S i) Hl). done.
Qed.

Lemma defaultScan_length l1 : forall l2 i av,
  length l1 = length l2 -> defaultScan i l1 av = defaultScan i l2 av.
Proof.
  induction l1 as [|a l1 IH]; intros [|b l2] i av H; try done.
  simpl in *. destruct (existsb _ _); [done|]. apply IH. lia.
Qed.

(** The pick is a function of the strategy, of the cursor and of which
    providers are available once the cooldowns are reconciled. *)
Lemma GetNextProvider_ext now pm1 pm2 :
  routingStrategy pm1 = routingStrategy pm2 ->
  robinIndex pm1 = robinIndex pm2 ->
  isAvailable <$> (updateProviderState now <$> providers pm1)
    = isAvailable <$> (updateProviderState now <$> providers pm2) ->
  snd (GetNextProvider now pm1) = snd (GetNextProvider now pm2).
Proof.
  intros Hs Hk Hav.
  assert (Hlen : length (updateProviderState now <$> providers pm1)
                 = length (updateProviderState now <$> providers pm2)).
  { apply (f_equal length) in Hav. by rewrite !(length_fmap isAvailable) in Hav. }
  unfold GetNextProvider, getAvailableProviders. simpl.
  rewrite (availableFrom_ext _ _ 0%nat Hav), Hs.
  destruct (length _ =? 0)%nat; [done|].
  destruct (String.eqb _ _).
  - unfold getNextRobin. simpl. rewrite Hk.
    destruct (length _ =? 1)%nat; [done|]. by destruct (index _ _).
  - simpl. unfold getNextDefault. simpl.
    by rewrite (defaultScan_length _ _ _ _ Hlen).
Qed.

Lemma fmap_updateFirstNamed {A} (g : ProviderState -> A) name f l :
  (forall ps, g (f ps) = g ps) -> g <$> updateFirstNamed name f l = g <$> l.
Proof.
  intros Hg. induction l as [|ps l IH]; [done|]. simpl.
  destruct (String.eqb _ _).
  - by rewrite !fmap_cons, Hg.
  - by rewrite !fmap_cons, IH.
Qed.

Lemma isAvailable_succeedProviderState now ps :
  isAvailable (updateProviderState now (succeedProviderState ps))
  = isAvailable (updateProviderState now ps).
Proof.
  unfold succeedProviderState. destruct (0 <? _); [|done].
  unfold updateProviderState. simpl. by destruct (_ && _).
Qed.

(** X1.  A recorded success resets a counter and nothing else: it leaves
    every provider as disabled as it was, with the deadline it had, so a
    selection made afterwards, at any time, picks what it would have picked
    without the recording.  In particular a success never lifts a
    cooldown. *)
Theorem success_leaves_selection_unchanged
    (providerName : string) (now : Time) (pm : ProviderManager) :
  snd (GetNextProvider now (RecordSuccess providerName pm))
    = snd (GetNextProvider now pm) /\
  IsDisabled <$> providers (RecordSuccess providerName pm)
    = IsDisabled <$> providers pm /\
  DisabledUntil <$> providers (RecordSuccess providerName pm)
    = DisabledUntil <$> providers pm.
Proof.
  split; [|split].
  - apply GetNextProvider_ext; [done | done |]. simpl.
    rewrite <- !list_fmap_compose.
    apply fmap_updateFirstNamed. intros ps. simpl.
    apply isAvailable_succeedProviderState.
  - simpl. apply fmap_updateFirstNamed. intros ps.
    unfold succeedProviderState. by destruct (0 <? _).
  - simpl. apply fmap_updateFirstNamed. intros ps.
    unfold succeedProviderState. by destruct (0 <? _).
Qed.

(** ** Names that no provider bears *)

Lemma updateFirstNamed_unknown name f l :
  (forall ps, ps ∈ l -> config.Name (Provider ps) <> name) ->
  updateFirstNamed name f l = l.
Proof.
  induction l as [|ps l IH]; intros H; [done|]. simpl.
  destruct (String.eqb _ _) eqn:He.
  - apply String.eqb_eq in He. exfalso. eapply H; [|exact He]. apply list_elem_of_here.
  - rewrite IH; [done|]. intros ps' Hin. apply H. by apply list_elem_of_further.
Qed.

(** X2.  A recording under a name that no provider bears is ignored: the
    manager is left as it was. *)
Theorem unknown_provider_ignored
    (providerName : string) (now1 now2 : Time) (pm : ProviderManager) :
  (forall ps, ps ∈ providers pm -> config.Name (Provider ps) <> providerName) ->
  RecordFailure providerName now1 now2 pm = pm /\
  RecordSuccess providerName pm = pm.
Proof.
  intros H. unfold RecordFailure, RecordSuccess.
  rewrite !updateFirstNamed_unknown by done. by destruct pm.
Qed.

Lemma unknown_provider_ignored_witness :
  RecordFailure "B" examples.tFail examples.tFail examples.soloManager
    = examples.soloManager /\
  RecordSuccess "B" examples.soloManager = examples.soloManager.
Proof.
  apply unknown_provider_ignored.
  intros ps Hin. apply list_elem_of_singleton in Hin. subst ps.
  vm_compute. discriminate.
Defined.

(** ** Failures are counted since the last success *)

Lemma recordFailures_below_threshold name i d u readings : forall pm k,
  0 <= k -> k + Z.of_nat (length readings) <= 4 ->
  designated name i
    (fun ps => FailureCount ps = k /\ IsDisabled ps = d /\ DisabledUntil ps = u) pm ->
  designated name i
    (fun ps => FailureCount ps = k + Z.of_nat (length readings) /\
               IsDisabled ps = d /\ DisabledUntil ps = u)
    (recordFailures name readings pm).
Proof.
  induction readings as [|[a b] readings IH]; intros pm k Hk Hle Hinv.
  - simpl. by rewrite Z.add_0_r.
  - rewrite length_cons, Nat2Z.inj_succ in *.
    change (recordFailures name ((a, b) :: readings) pm)
      with (recordFailures name readings (RecordFailure name a b pm)).
    replace (k + Z.succ (Z.of_nat (length readings)))
      with ((k + 1) + Z.of_nat (length readings)) by lia.
    apply IH; [lia | lia |].
    eapply designated_RecordFailure; [|exact Hinv]. simpl. intros ps (Hc & Hd & Hu).
    unfold failProviderState. rewrite Hc.
    rewrite wrap_int_small by (unfold minInt64, maxInt64; lia).
    destruct (5 <=? k + 1) eqn:H5; [lia|]. done.
Qed.

Lemma designated_RecordSuccess name i (P Q : ProviderState -> Prop) pm :
  (forall ps, P ps -> Q (succeedProviderState ps)) ->
  designated name i P pm -> designated name i Q (RecordSuccess name pm).
Proof.
  intros HPQ [Hf (ps & Hi & Hps)]. unfold designated, RecordSuccess. simpl.
  rewrite firstNamed_updateFirstNamed by apply Provider_succeedProviderState.
  split; [done|]. exists (succeedProviderState ps).
  rewrite updateFirstNamed_lookup, Hi by done. split; [done|]. by apply HPQ.
Qed.

(** X3.  The counter counts the failures since the last success.  Whatever
    the count before it, a success brings it back to zero, so that up to
    four failures recorded afterwards leave the provider as it was, enabled
    if it was enabled: only a fifth failure in a row disables it. *)
Theorem failures_count_since_last_success
    (pm : ProviderManager) (providerName : string) (i : nat) (ps : ProviderState)
    (later : list (Time * Time)) :
  firstNamed providerName (providers pm) = Some i ->
  providers pm !! i = Some ps ->
  0 <= FailureCount ps ->
  (length later <= 4)%nat ->
  exists ps',
    providers (recordFailures providerName later (RecordSuccess providerName pm)) !! i
      = Some ps' /\
    FailureCount ps' = Z.of_nat (length later) /\
    IsDisabled ps' = IsDisabled ps /\
    DisabledUntil ps' = DisabledUntil ps.
Proof.
  intros Hf Hi Hc Hlen.
  assert (H0 : designated providerName i
                 (fun ps' => FailureCount ps' = 0 /\ IsDisabled ps' = IsDisabled ps /\
                             DisabledUntil ps' = DisabledUntil ps)
                 (RecordSuccess providerName pm)).
  { apply (designated_RecordSuccess _ _ (fun ps' => ps' = ps)).
    - intros ? ->. unfold succeedProviderState.
      destruct (0 <? FailureCount ps) eqn:Hpos; [done|].
      repeat split. lia.
    - split; [done|]. by exists ps. }
  apply (recordFailures_below_threshold _ _ _ _ later) in H0; [|lia|lia].
  destruct H0 as [_ (ps' & Hi' & Hc' & Hd' & Hu')].
  exists ps'. rewrite Z.add_0_l in Hc'. done.
Qed.

(** Witness of [failures_count_since_last_success]: four failures, a
    success, four failures; the provider is still enabled. *)
Lemma failures_count_since_last_success_witness :
  exists ps',
    providers
      (recordFailures "A" [(1, 1); (2, 2); (3, 3); (4, 4)]
         (RecordSuccess "A"
            (recordFailures "A" [(1, 1); (2, 2); (3, 3); (4, 4)] examples.soloManager)))
      !! 0%nat = Some ps' /\
    FailureCount ps' = 4 /\ IsDisabled ps' = false /\ DisabledUntil ps' = Time_zero.
Proof.
  apply (failures_count_since_last_success
           (recordFailures "A" [(1, 1); (2, 2); (3, 3); (4, 4)] examples.soloManager)
           "A" 0
           {| Provider := examples.tokenProvider "A"; FailureCount := 4;
              LastFailureTime := 4; IsDisabled := false; DisabledUntil := Time_zero |}
           [(1, 1); (2, 2); (3, 3); (4, 4)]).
  - vm_compute. reflexivity.
  - vm_compute. reflexivity.
  - simpl. lia.
  - simpl. lia.
Defined.

(** ** The cursor of the rotation stays in range *)

Lemma length_availableFrom l : forall i, (length (availableFrom i l) <= length l)%nat.
Proof.
  induction l as [|ps l IH]; intros i; simpl; [lia|].
  destruct (isAvailable ps); simpl; specialize (IH (S i)); lia.
Qed.

Lemma GetNextProvider_in_range now pm :
  Z.of_nat (length (providers pm)) <= maxInt64 ->
  0 <= robinIndex pm <= Z.of_nat (length (providers pm)) ->
  snd (GetNextProvider now pm) <> IndexPanic /\
  0 <= robinIndex (fst (GetNextProvider now pm)) <= Z.of_nat (length (providers pm)).
Proof.
  intros Hmax Hk. unfold GetNextProvider.
  pose proof (length_availableFrom (providers (updateProviderStates now pm)) 0) as Hlen.
  simpl in Hlen. rewrite length_fmap in Hlen.
  destruct (length _ =? 0)%nat eqn:H0; [done|].
  apply Nat.eqb_neq in H0.
  destruct (String.eqb _ _).
  - unfold getNextRobin, getAvailableProviders in *. simpl in *.
    destruct (length _ =? 1)%nat eqn:H1.
    + simpl. split; [|done]. unfold index. simpl.
      destruct (availableFrom _ _); [done|]. done.
    + apply Nat.eqb_neq in H1.
      set (av := availableFrom 0 (updateProviderState now <$> providers pm)) in *.
      pose proof (Z.rem_bound_pos (robinIndex pm) (Z.of_nat (length av))) as Hrem.
      destruct Hrem as [Hr0 Hr1]; [lia | lia |].
      unfold index. destruct (_ <? 0) eqn:Hneg; [lia|].
      destruct (av !! Z.to_nat _) as [j|] eqn:Hj.
      * simpl. split; [done|].
        rewrite wrap_int_small by (unfold minInt64, maxInt64 in *; lia). lia.
      * apply lookup_ge_None in Hj. lia.
  - simpl. split; [|done].
    pose proof (getNextDefault_spec (updateProviderStates now pm)) as Hs.
    destruct (getNextDefault _ _); [done|exfalso|exfalso];
      apply H0, Nat.eqb_eq, length_getAvailableProviders_0, Hs.
Qed.

Lemma length_updateFirstNamed name f l :
  length (updateFirstNamed name f l) = length l.
Proof.
  induction l as [|ps l IH]; [done|]. simpl.
  destruct (String.eqb _ _); simpl; [done | by rewrite IH].
Qed.

Lemma run_in_range calls : forall pm,
  Z.of_nat (length (providers pm)) <= maxInt64 ->
  0 <= robinIndex pm <= Z.of_nat (length (providers pm)) ->
  (IndexPanic ∉ snd (run calls pm)) /\
  length (providers (fst (run calls pm))) = length (providers pm) /\
  0 <= robinIndex (fst (run calls pm)) <= Z.of_nat (length (providers pm)).
Proof.
  induction calls as [|c calls IH]; intros pm Hmax Hk.
  - simpl. split; [apply not_elem_of_nil | done].
  - rewrite run_cons. cbn [fst snd].
    assert (Hstep : snd (run [c] pm) = [] \/
                    exists pick, snd (run [c] pm) = [pick] /\ pick <> IndexPanic).
    { destruct c as [now | n a b | n]; [right | by left | by left].
      rewrite run_select. eexists. split; [done|].
      by apply GetNextProvider_in_range. }
    assert (Hlen : length (providers (step c pm)) = length (providers pm)).
    { destruct c as [now | n a b | n].
      - by rewrite step_select, providers_GetNextProvider, length_fmap.
      - unfold step. simpl. apply length_updateFirstNamed.
      - unfold step. simpl. apply length_updateFirstNamed. }
    assert (Hk' : 0 <= robinIndex (step c pm) <= Z.of_nat (length (providers pm))).
    { destruct c as [now | n a b | n]; [|done|done].
      rewrite step_select. by apply GetNextProvider_in_range. }
    destruct (IH (step c pm)) as (Hno & Hl & Hr); [by rewrite Hlen | by rewrite Hlen |].
    rewrite Hlen in Hl, Hr. split; [|done].
    rewrite elem_of_app. intros [Hin | Hin]; [|done].
    destruct Hstep as [Hnil | (pick & Hp & Hne)].
    + rewrite Hnil in Hin. by apply not_elem_of_nil in Hin.
    + rewrite Hp in Hin. apply list_elem_of_singleton in Hin. congruence.
Qed.

(** X4.  A router built from a configuration never panics on an index
    expression, whatever the strategy and whatever selections and recordings
    it has served: the cursor of the rotation stays between zero and the
    number of providers. *)
Theorem selection_never_panics (cfg : config.Config) (calls : list Call) :
  Z.of_nat (length (config.Providers cfg)) <= maxInt64 ->
  (IndexPanic ∉ snd (run calls (NewProviderManager cfg))) /\
  0 <= robinIndex (fst (run calls (NewProviderManager cfg)))
    <= Z.of_nat (length (config.Providers cfg)).
Proof.
  intros Hmax.
  destruct (run_in_range calls (NewProviderManager cfg)) as (Hno & _ & Hr).
  - simpl. by rewrite length_fmap.
  - simpl. lia.
  - simpl in Hr. rewrite length_fmap in Hr. done.
Qed.

(** Witness of [selection_never_panics]: a rotation over three providers,
    one of which fails five times. *)
Lemma selection_never_panics_witness :
  IndexPanic ∉
    snd (run [CallSelect 1; CallSelect 2; CallFailure "B" 3 3; CallFailure "B" 3 3;
              CallFailure "B" 3 3; CallFailure "B" 3 3; CallFailure "B" 3 3;
              CallSelect 4; CallSelect 5; CallSelect 6]
           (NewProviderManager examples.robinConfig)).
Proof.
  apply selection_never_panics. vm_compute. discriminate.
Defined.

(** ** What no call changes *)

Lemma Provider_step c pm :
  Provider <$> providers (step c pm) = Provider <$> providers pm /\
  routingStrategy (step c pm) = routingStrategy pm.
Proof.
  destruct c as [now | n a b | n].
  - rewrite step_select, providers_GetNextProvider, routingStrategy_GetNextProvider.
    split; [|done]. rewrite <- list_fmap_compose. apply list_fmap_ext.
    intros ? ps _. simpl. apply Provider_updateProviderState.
  - unfold step. simpl. split; [|done].
    apply fmap_updateFirstNamed, Provider_failProviderState.
  - unfold step. simpl. split; [|done].
    apply fmap_updateFirstNamed, Provider_succeedProviderState.
Qed.

(** X5.  Selections and recordings work on the run-time state only: the
    configurations of the providers, their order and their number, and the
    strategy, are after any history what [NewProviderManager] was given. *)
Theorem configuration_is_never_changed (calls : list Call) (pm : ProviderManager) :
  Provider <$> providers (fst (run calls pm)) = Provider <$> providers pm /\
  length (providers (fst (run calls pm))) = length (providers pm) /\
  routingStrategy (fst (run calls pm)) = routingStrategy pm.
Proof.
  assert (H : Provider <$> providers (fst (run calls pm)) = Provider <$> providers pm /\
              routingStrategy (fst (run calls pm)) = routingStrategy pm).
  { revert pm. induction calls as [|c calls IH]; intros pm; [done|].
    rewrite run_cons. cbn [fst].
    destruct (IH (step c pm)) as [-> ->]. apply Provider_step. }
  destruct H as [Hp Hs]. split; [done|]. split; [|done].
  apply (f_equal length) in Hp. by rewrite !length_fmap in Hp.
Qed.

(** X6.  Whatever the strategy and the history, a selection only returns a
    provider whose configured state is "on"; a provider that is "off" is
    never selected. *)
Theorem only_on_providers_are_selected
    (calls : list Call) (pm : ProviderManager) (i : nat) :
  Picked i ∈ snd (run calls pm) ->
  exists ps, providers pm !! i = Some ps /\ config.State (Provider ps) = "on".
Proof.
  revert pm. induction calls as [|c calls IH]; intros pm Hin.
  - by apply not_elem_of_nil in Hin.
  - rewrite run_cons in Hin. cbn [snd] in Hin. apply elem_of_app in Hin as [Hin | Hin].
    + destruct c as [now | n a b | n]; [|inversion Hin|inversion Hin].
      rewrite run_select in Hin. apply list_elem_of_singleton in Hin. symmetry in Hin.
      apply GetNextProvider_Picked in Hin as (ps & Hi & Hon & _). by exists ps.
    + apply IH in Hin as (ps' & Hi' & Hon').
      destruct (Provider_step c pm) as [Hp _].
      apply (f_equal (fun l => l !! i)) in Hp. rewrite !list_lookup_fmap, Hi' in Hp.
      destruct (providers pm !! i) as [ps|]; [|done]. simpl in Hp.
      injection Hp as Hp. exists ps. split; [done|]. by rewrite <- Hp.
Qed.

Lemma only_on_providers_are_selected_witness :
  exists ps, providers (examples.trioManager "robin") !! 1%nat = Some ps /\
             config.State (Provider ps) = "on".
Proof.
  apply (only_on_providers_are_selected [CallSelect examples.tFail]).
  vm_compute. apply list_elem_of_here.
Defined.

(** X7.  Under every strategy, a selection reports that no provider is
    available exactly when none is: when every provider is "off" or, the
    cooldowns once reconciled against the clock, disabled. *)
Theorem no_provider_exactly_when_none_is_available (now : Time) (pm : ProviderManager) :
  snd (GetNextProvider now pm) = NoProviderAvailable <->
  forall ps, ps ∈ providers pm -> ~ availableAt now ps.
Proof.
  rewrite GetNextProvider_NoProviderAvailable.
  rewrite <- length_zero_iff_nil, <- Nat.eqb_eq, length_getAvailableProviders_0.
  simpl. split.
  - intros H ps Hin Hav. apply isAvailable_updateProviderState in Hav.
    rewrite H in Hav; [done|]. by apply list_elem_of_fmap_2.
  - intros H ps' Hin. apply list_elem_of_fmap in Hin as (ps & -> & Hin).
    apply not_true_is_false. intros Hav.
    apply isAvailable_updateProviderState in Hav. by apply (H ps).
Qed.

(** ** The rotation over the long run *)

(** One selection of the rotation in a state that the reconciliation leaves
    alone: with [m >= 2] providers available and the cursor at [k], the pick
    is the available provider of rank [k mod m], and the cursor moves to
    [k mod m + 1]. *)
Lemma GetNextProvider_robin_stable now pm (k : nat) :
  routingStrategy pm = "robin" ->
  updateProviderStates now pm = pm ->
  (2 <= length (getAvailableProviders pm))%nat ->
  Z.of_nat (length (providers pm)) <= maxInt64 ->
  robinIndex pm = Z.of_nat k ->
  exists i,
    getAvailableProviders pm !! (k mod length (getAvailableProviders pm))%nat = Some i /\
    GetNextProvider now pm
    = (setRobinIndex pm (Z.of_nat (S (k mod length (getAvailableProviders pm)))),
       Picked i).
Proof.
  intros Hs Hstable Hm Hmax Hk.
  pose proof (length_availableFrom (providers pm) 0) as Hle.
  fold (getAvailableProviders pm) in Hle.
  set (av := getAvailableProviders pm) in *.
  pose proof (Nat.mod_upper_bound k (length av)) as Hlt.
  destruct (av !! (k mod length av)%nat) as [i|] eqn:Hi;
    [|apply lookup_ge_None in Hi; lia].
  exists i. split; [done|].
  unfold GetNextProvider. rewrite Hstable. fold av.
  destruct (length av =? 0)%nat eqn:H0; [apply Nat.eqb_eq in H0; lia|].
  rewrite Hs. simpl (String.eqb _ _). cbv iota.
  unfold getNextRobin.
  destruct (length av =? 1)%nat eqn:H1; [apply Nat.eqb_eq in H1; lia|].
  rewrite Hk, Z.rem_mod_nonneg by lia.
  rewrite <- Nat2Z.inj_mod.
  unfold index. destruct (Z.of_nat _ <? 0) eqn:Hneg; [lia|].
  rewrite Nat2Z.id, Hi.
  rewrite wrap_int_small by (unfold minInt64, maxInt64 in *; lia).
  do 2 f_equal. lia.
Qed.

Lemma updateProviderStates_setRobinIndex now pm k :
  updateProviderStates now pm = pm ->
  updateProviderStates now (setRobinIndex pm k) = setRobinIndex pm k.
Proof.
  destruct pm as [l s c]. unfold updateProviderStates, setRobinIndex. simpl.
  intros [= H]. by rewrite H.
Qed.

Lemma run_selects_robin_stable times : forall pm (k : nat),
  routingStrategy pm = "robin" ->
  Forall (fun now => updateProviderStates now pm = pm) times ->
  (2 <= length (getAvailableProviders pm))%nat ->
  Z.of_nat (length (providers pm)) <= maxInt64 ->
  robinIndex pm = Z.of_nat k ->
  Some <$> snd (run (CallSelect <$> times) pm)
  = (fun j => Picked <$> getAvailableProviders pm
                           !! ((k + j) mod length (getAvailableProviders pm))%nat)
    <$> seq 0 (length times).
Proof.
  induction times as [|now times IH]; intros pm k Hs Hstable Hm Hmax Hk; [done|].
  inversion Hstable as [|? ? Hnow Hrest]; subst.
  destruct (GetNextProvider_robin_stable now pm k) as (i & Hi & Hpick); try done.
  cbn [fmap list_fmap run]. rewrite Hpick.
  set (m := length (getAvailableProviders pm)) in *.
  specialize (IH (setRobinIndex pm (Z.of_nat (S (k mod m)))) (S (k mod m))).
  destruct (run _ _) as [pm2 picks]. cbn [snd fmap list_fmap length seq] in *.
  rewrite Nat.add_0_r, Hi. cbn [fmap option_fmap option_map]. f_equal.
  change (list_fmap Pick (option Pick) Some picks) with (Some <$> picks).
  rewrite IH; try done.
  - change (getAvailableProviders (setRobinIndex pm (Z.of_nat (S (k mod m)))))
      with (getAvailableProviders pm). fold m.
    rewrite <- fmap_S_seq, <- list_fmap_compose.
    apply list_fmap_ext. intros _ j _. simpl. do 2 f_equal.
    replace (k + S j)%nat with (k + (1 + j))%nat by lia.
    rewrite <- (Nat.Div0.add_mod_idemp_l k). f_equal. lia.
  - eapply Forall_impl; [exact Hrest|]. intros t Ht.
    by apply updateProviderStates_setRobinIndex.
Qed.

(** X8.  The rotation runs over the providers that are available and over
    them only.  As long as no cooldown ends, so that the same [m >= 2]
    providers stay available, the selections of a router with strategy
    "robin" return them in turn and wrap around: from the cursor [k], the
    selection of rank [j] returns the available provider of rank
    [(k + j) mod m].  A provider that is "off" or disabled takes no turn. *)
Theorem round_robin_rotates_over_the_available
    (pm : ProviderManager) (times : list Time) (k : nat) :
  routingStrategy pm = "robin" ->
  Forall (fun now => updateProviderStates now pm = pm) times ->
  (2 <= length (getAvailableProviders pm))%nat ->
  Z.of_nat (length (providers pm)) <= maxInt64 ->
  robinIndex pm = Z.of_nat k ->
  Some <$> snd (run (CallSelect <$> times) pm)
  = (fun j => Picked <$> getAvailableProviders pm
                           !! ((k + j) mod length (getAvailableProviders pm))%nat)
    <$> seq 0 (length times).
Proof. apply run_selects_robin_stable. Qed.

(** Witness of [round_robin_rotates_over_the_available]: [A] is "off", and
    five selections return [B], [C], [B], [C], [B]. *)
Lemma round_robin_rotates_over_the_available_witness :
  Some <$> snd (run [CallSelect 1; CallSelect 2; CallSelect 3; CallSelect 4; CallSelect 5]
                    (examples.trioManager "robin"))
  = [Some (Picked 1); Some (Picked 2); Some (Picked 1); Some (Picked 2);
     Some (Picked 1)].
Proof.
  apply (round_robin_rotates_over_the_available (examples.trioManager "robin")
           [1; 2; 3; 4; 5] 0).
  - reflexivity.
  - repeat constructor.
  - vm_compute. lia.
  - vm_compute. discriminate.
  - reflexivity.
Defined.

(** ** The providers that a fresh router offers *)

Lemma isAvailable_newProviderState p :
  isAvailable (newProviderState p)
  = String.eqb (config.State p) "on"
    && negb (String.eqb (map_get (config.Env p) "ANTHROPIC_AUTH_TOKEN") EmptyString
             && String.eqb (map_get (config.Env p) "ANTHROPIC_API_KEY") EmptyString).
Proof.
  unfold isAvailable, newProviderState. simpl.
  destruct (String.eqb (config.State p) "on"); simpl; [|done].
  by destruct (_ && _).
Qed.

Lemma availableFrom_fresh l : forall pre,
  (fun i => (pre ++ l) !! i) <$> availableFrom (length pre) (newProviderState <$> l)
  = Some <$> filter (fun p =>
                       map_get (config.Env p) "ANTHROPIC_AUTH_TOKEN" <> EmptyString \/
                       map_get (config.Env p) "ANTHROPIC_API_KEY" <> EmptyString)
                    (config.activeProviders l).
Proof.
  induction l as [|p l IH]; intros pre; [done|].
  specialize (IH (pre ++ [p])).
  rewrite <- app_assoc, length_app in IH. simpl in IH.
  rewrite Nat.add_1_r in IH.
  rewrite fmap_cons. cbn [availableFrom config.activeProviders].
  rewrite isAvailable_newProviderState.
  destruct (String.eqb (config.State p) "on"); cbn [andb]; [|done].
  destruct (String.eqb (map_get (config.Env p) "ANTHROPIC_AUTH_TOKEN") EmptyString)
    eqn:Ht;
    [destruct (String.eqb (map_get (config.Env p) "ANTHROPIC_API_KEY") EmptyString)
       eqn:Hk|];
    cbn [andb negb].
  - apply String.eqb_eq in Ht, Hk.
    rewrite filter_cons_False; [done|]. intros [H | H]; congruence.
  - apply String.eqb_neq in Hk.
    rewrite filter_cons_True by (by right). rewrite !fmap_cons, IH. f_equal.
    by rewrite list_lookup_middle.
  - apply String.eqb_neq in Ht.
    rewrite filter_cons_True by (by left). rewrite !fmap_cons, IH. f_equal.
    by rewrite list_lookup_middle.
Qed.

(** X9.  The providers that a freshly built router can select are, in the
    order of the configuration, the active providers of the configuration
    ([GetActiveProviders]) that carry a token or a key. *)
Theorem fresh_router_offers_active_providers_with_credentials (cfg : config.Config) :
  (fun i => config.Providers cfg !! i) <$> getAvailableProviders (NewProviderManager cfg)
  = Some <$> filter (fun p =>
                       map_get (config.Env p) "ANTHROPIC_AUTH_TOKEN" <> EmptyString \/
                       map_get (config.Env p) "ANTHROPIC_API_KEY" <> EmptyString)
                    (config.GetActiveProviders cfg).
Proof. apply (availableFrom_fresh (config.Providers cfg) []). Qed.

(** ** What a recording touches *)

(** X10.  A recording touches one provider at most, the first in the order
    of the configuration that bears the name.  Every other provider keeps
    its state, and so does a later provider of the same name. *)
Theorem recording_touches_first_bearer_only
    (providerName : string) (now1 now2 : Time) (pm : ProviderManager) (j : nat) :
  firstNamed providerName (providers pm) <> Some j ->
  providers (RecordFailure providerName now1 now2 pm) !! j = providers pm !! j /\
  providers (RecordSuccess providerName pm) !! j = providers pm !! j /\
  robinIndex (RecordFailure providerName now1 now2 pm) = robinIndex pm /\
  robinIndex (RecordSuccess providerName pm) = robinIndex pm.
Proof.
  intros Hj. simpl. by rewrite !updateFirstNamed_lookup_ne.
Qed.

(** Witness of [recording_touches_first_bearer_only]: two providers named
    "x"; a failure of "x" leaves the second as it was. *)
Lemma recording_touches_first_bearer_only_witness :
  providers (RecordFailure "x" examples.tFail examples.tFail examples.sharedNameManager)
    !! 1%nat
  = providers examples.sharedNameManager !! 1%nat.
Proof.
  apply recording_touches_first_bearer_only. vm_compute. discriminate.
Defined.

End router_theory.

(** * Further properties of the client sessions *)

Module session_theory.
Import go http proxy proxy_theory.

(** X11.  Registration and lookup.  After [RegisterClient] the session is
    found under its id with the data given and both its times at the clock
    reading; the other sessions are untouched.  Registering an id that is
    already registered replaces that session and leaves the count as it is;
    a new id adds one to the count. *)
Theorem register_then_lookup
    (clientID : string) (pid : Z) (hostname : string) (now : Time)
    (cm : ClientManager) :
  let cm' := RegisterClient clientID pid hostname now cm in
  GetClientInfo clientID cm'
    = Some {| ID := clientID; RegisterAt := now; LastPing := now;
              PID := pid; Hostname := hostname |} /\
  (forall other, other <> clientID ->
     GetClientInfo other cm' = GetClientInfo other cm) /\
  GetClientCount cm'
    = match GetClientInfo clientID cm with
      | Some _ => GetClientCount cm
      | None => S (GetClientCount cm)
      end /\
  onEmpty cm' = onEmpty cm.
Proof.
  unfold GetClientInfo, GetClientCount, RegisterClient. simpl.
  split; [apply lookup_insert_eq|]. split; [|split; [|done]].
  - intros other Hne. by apply lookup_insert_ne.
  - rewrite map_size_insert. by destruct (clients cm !! clientID).
Qed.

(** X12.  [UnregisterClient] succeeds exactly when the id is registered.  It
    then removes that session and no other, and starts the callback exactly
    when one is set and the session was the last one.  For an id that is not
    registered it changes nothing and starts nothing, so that the callback
    is not started again by a repeated request. *)
Theorem unregister_removes_one_session (clientID : string) (cm : ClientManager) :
  let cm' := fst (fst (UnregisterClient clientID cm)) in
  let success := snd (fst (UnregisterClient clientID cm)) in
  let spawned := snd (UnregisterClient clientID cm) in
  (success = true <-> is_Some (GetClientInfo clientID cm)) /\
  GetClientInfo clientID cm' = None /\
  (forall other, other <> clientID ->
     GetClientInfo other cm' = GetClientInfo other cm) /\
  onEmpty cm' = onEmpty cm /\
  (forall callback,
     spawned = [callback] <->
     onEmpty cm = Some callback /\
     exists client, clients cm = {[clientID := client]}) /\
  (spawned = [] \/ exists callback, spawned = [callback]) /\
  (success = false -> cm' = cm /\ spawned = []) /\
  UnregisterClient clientID cm' = (cm', false, []).
Proof.
  unfold GetClientInfo, UnregisterClient.
  destruct (clients cm !! clientID) as [client|] eqn:Hc; simpl.
  - split; [by split; [eauto | ]|].
    split; [apply lookup_delete_eq|].
    split; [by intros other Hne; apply lookup_delete_ne|].
    split; [done|].
    assert (Hlast : size (delete clientID (clients cm)) = 0%nat <->
                    clients cm = {[clientID := client]}).
    { rewrite map_size_empty_iff. split.
      - intros He. rewrite <- (insert_delete_id (clients cm) clientID client Hc), He.
        done.
      - intros ->. apply delete_singleton_eq. }
    split; [|split; [|split]].
    + intros callback. unfold goOnEmpty. simpl.
      destruct (onEmpty cm) as [cb|].
      * destruct (size _ =? 0)%nat eqn:H0.
        -- apply Nat.eqb_eq, Hlast in H0. split.
           ++ intros [= ->]. split; [done|]. by exists client.
           ++ by intros [[= ->] _].
        -- apply Nat.eqb_neq in H0. split; [done|].
           intros [_ (client' & He)]. exfalso. apply H0.
           rewrite He. rewrite delete_singleton_eq. apply map_size_empty.
      * split; [done|]. by intros [? _].
    + unfold goOnEmpty. simpl. destruct (onEmpty cm); [|by left].
      destruct (size _ =? 0)%nat; [right; eauto | by left].
    + done.
    + by rewrite lookup_delete_eq.
  - split; [by split; [|intros [? ?]]|].
    split; [done|]. split; [done|]. split; [done|].
    split; [|split; [by left|split; [done|]]].
    + intros callback. split; [done|]. intros [_ (client & He)].
      rewrite He, lookup_singleton_eq in Hc. done.
    + by rewrite Hc.
Qed.

(** X13.  A heartbeat for an id that is not registered is refused and does
    not register it.  A heartbeat for a registered id moves the time of its
    last heartbeat to the clock reading and changes nothing else: the other
    fields of the session, the other sessions and the count stay as they
    are. *)
Theorem heartbeat_updates_last_ping_only
    (clientID : string) (now : Time) (cm : ClientManager) :
  let cm' := fst (UpdateHeartbeat clientID now cm) in
  let success := snd (UpdateHeartbeat clientID now cm) in
  (success = true <-> is_Some (GetClientInfo clientID cm)) /\
  (success = false -> cm' = cm) /\
  GetClientInfo clientID cm'
    = (fun client => {| ID := ID client; RegisterAt := RegisterAt client;
                        LastPing := now; PID := PID client;
                        Hostname := Hostname client |})
      <$> GetClientInfo clientID cm /\
  (forall other, other <> clientID ->
     GetClientInfo other cm' = GetClientInfo other cm) /\
  GetClientCount cm' = GetClientCount cm /\
  onEmpty cm' = onEmpty cm.
Proof.
  unfold GetClientInfo, GetClientCount, UpdateHeartbeat.
  destruct (clients cm !! clientID) as [client|] eqn:Hc; simpl.
  - split; [by split; [eauto|]|]. split; [done|].
    split; [apply lookup_insert_eq|].
    split; [by intros other Hne; apply lookup_insert_ne|].
    split; [|done]. apply map_size_insert_Some. by rewrite Hc.
  - rewrite Hc. split; [by split; [|intros [? ?]]|]. done.
Qed.

Lemma inactive_recent now timeout client :
  minInt64 <= timeout <= maxInt64 ->
  now - LastPing client <= timeout ->
  inactive now timeout client = false.
Proof.
  intros Ht Hrecent. unfold inactive, Time_Sub. apply Z.ltb_ge.
  destruct (maxInt64 <? now - LastPing client) eqn:H1.
  - apply Z.ltb_lt in H1. lia.
  - destruct (now - LastPing client <? minInt64) eqn:H2; lia.
Qed.

Lemma cleanupTick_eq now p :
  cleanupTick now p
  = setClientManager
      (fst (fst (CleanupInactiveClients (300 * Second) now (clientManager p))))
      (snd (CleanupInactiveClients (300 * Second) now (clientManager p))) p.
Proof.
  unfold cleanupTick. by destruct (CleanupInactiveClients _ _ _) as [[cm removed] spawned].
Qed.

Lemma CleanupInactiveClients_nonempty timeout now cm :
  clients (fst (fst (CleanupInactiveClients timeout now cm))) <> ∅ ->
  snd (CleanupInactiveClients timeout now cm) = [].
Proof.
  simpl. intros Hne. unfold goOnEmpty. simpl. destruct (onEmpty cm); [|done].
  destruct (size _ =? 0)%nat eqn:H0; [|done].
  by apply Nat.eqb_eq, map_size_empty_iff in H0.
Qed.

(** X14.  A session whose last heartbeat is at most 300 seconds old
    survives the periodic clean-up unchanged, and as long as such a session
    exists the clean-up does not start the shutdown callback. *)
Theorem recent_heartbeat_survives_cleanup
    (clientID : string) (t now : Time) (p : ProxyServer) (client : ClientInfo) :
  GetClientInfo clientID (clientManager p) = Some client ->
  now - t <= 300 * Second ->
  let p1 := setClientManager
              (fst (UpdateHeartbeat clientID t (clientManager p))) [] p in
  GetClientInfo clientID (clientManager (cleanupTick now p1))
    = Some {| ID := ID client; RegisterAt := RegisterAt client;
              LastPing := t; PID := PID client; Hostname := Hostname client |} /\
  goroutines (cleanupTick now p1) = goroutines p.
Proof.
  intros Hc Hrecent p1.
  set (client' := {| ID := ID client; RegisterAt := RegisterAt client;
                     LastPing := t; PID := PID client; Hostname := Hostname client |}).
  assert (Hc1 : clients (clientManager p1) !! clientID = Some client').
  { unfold p1, UpdateHeartbeat. unfold GetClientInfo in Hc. rewrite Hc. simpl.
    apply lookup_insert_eq. }
  assert (Hkept : clients (fst (fst (CleanupInactiveClients (300 * Second) now
                                       (clientManager p1)))) !! clientID
                  = Some client').
  { cbn [CleanupInactiveClients fst snd clients]. rewrite lookup_foldr_delete.
    destruct (decide (clientID ∈ _)) as [Hin|Hnin]; [|done].
    apply elem_of_toRemove in Hin as (c & Hm & HP).
    assert (Some c = Some client') as [= ->] by (rewrite <- Hm; exact Hc1).
    rewrite inactive_recent in HP; [done | |done].
    unfold minInt64, maxInt64, Second. lia. }
  rewrite cleanupTick_eq. unfold GetClientInfo.
  split; [exact Hkept|].
  rewrite CleanupInactiveClients_nonempty.
  - unfold p1. simpl. by rewrite !app_nil_r.
  - intros He. rewrite He, lookup_empty in Hkept. done.
Qed.

Lemma recent_heartbeat_survives_cleanup_witness :
  GetClientInfo "X"
    (clientManager
       (cleanupTick (examples.tFail + 6 * Minute)
          (setClientManager
             (fst (UpdateHeartbeat "X" (examples.tFail + 2 * Minute) examples.sweepManager))
             []
             {| providerManager := examples.soloManager;
                clientManager := examples.sweepManager;
                history := []; sent := []; goroutines := [] |})))
  = Some {| ID := "X"; RegisterAt := examples.tFail;
            LastPing := examples.tFail + 2 * Minute;
            PID := 4242; Hostname := "localhost" |}.
Proof.
  apply (recent_heartbeat_survives_cleanup "X" (examples.tFail + 2 * Minute)
           (examples.tFail + 6 * Minute)
           {| providerManager := examples.soloManager;
              clientManager := examples.sweepManager;
              history := []; sent := []; goroutines := [] |}
           {| ID := "X"; RegisterAt := examples.tFail; LastPing := examples.tFail;
              PID := 4242; Hostname := "localhost" |}).
  - vm_compute. reflexivity.
  - unfold Minute, Second. lia.
Defined.

(** X15.  A sweep repeated at once finds nothing left to remove: it returns
    zero, keeps every session and does not start the callback a second
    time. *)
Theorem sweep_is_idempotent (timeout : Duration) (now : Time) (cm : ClientManager) :
  let cm1 := fst (fst (CleanupInactiveClients timeout now cm)) in
  CleanupInactiveClients timeout now cm1 = (cm1, 0%nat, []).
Proof.
  intros cm1.
  assert (Hnone : filter (fun kv => inactive now timeout (snd kv) = true) (clients cm1)
                  = ∅).
  { apply map_eq. intros id. rewrite lookup_empty.
    apply map_lookup_filter_None. right. intros client Hm HP. simpl in HP.
    unfold cm1 in Hm. simpl in Hm. rewrite lookup_foldr_delete in Hm.
    destruct (decide (id ∈ _)) as [Hin|Hnin]; [done|].
    apply Hnin, elem_of_toRemove. by exists client. }
  unfold CleanupInactiveClients at 1. rewrite Hnone, map_to_list_empty. simpl.
  unfold goOnEmpty. simpl. rewrite andb_false_r.
  assert (match onEmpty cm with Some _ | _ => [] end = @nil Callback) as ->
    by (by destruct (onEmpty cm)).
  reflexivity.
Qed.

Lemma encodeClientResponse_spec resp w :
  status (encodeClientResponse resp w)
    = match status w with Some c => Some c | None => Some StatusOK end /\
  header (encodeClientResponse resp w) = header w /\
  exists body, events (encodeClientResponse resp w) = events w ++ [EvWrite body].
Proof. unfold encodeClientResponse, Write, WriteHeader. simpl. eauto. Qed.

(** X16.  A heartbeat or an unregistration for an id that is not registered
    is not an HTTP error: the answer has the status 200, and only its body
    tells, with [success] false; no session is created or removed and no
    callback is started. *)
Theorem unknown_session_is_answered_200
    (env : Env) (r : Request) (w : ResponseWriter) (p : ProxyServer)
    (req : ClientRequest) :
  Method r = "POST" ->
  decodeClientRequest env (Body r) = inl req ->
  GetClientInfo (ClientID req) (clientManager p) = None ->
  status w = None ->
  exists w1 p1 w2 p2,
    handleClientHeartbeat env r w p = Done w1 p1 /\
    handleClientUnregister env r w p = Done w2 p2 /\
    status w1 = Some 200 /\ status w2 = Some 200 /\
    events w1 = events w ++
      [EvWrite (json.text "{'success':false,'message':'客户端未注册，请先注册'}"
                +:+ json.str (json.char 10))] /\
    events w2 = events w ++
      [EvWrite (json.text "{'success':false,'message':'客户端未找到或已注销'}"
                +:+ json.str (json.char 10))] /\
    clientManager p1 = clientManager p /\ clientManager p2 = clientManager p /\
    goroutines p1 = goroutines p /\ goroutines p2 = goroutines p.
Proof.
  intros Hm Hd Hc Hw. unfold GetClientInfo in Hc.
  unfold handleClientHeartbeat, handleClientUnregister.
  rewrite Hm, Hd. simpl (negb _). cbv iota.
  unfold UpdateHeartbeat, UnregisterClient. rewrite Hc.
  do 4 eexists. split; [reflexivity|]. split; [reflexivity|].
  unfold encodeClientResponse, Write, WriteHeader, setHeader. simpl.
  rewrite Hw, !app_nil_r. repeat split.
Qed.

Lemma unknown_session_is_answered_200_witness :
  exists w1 p1,
    handleClientHeartbeat (examples.sessionEnv examples.sessionRequest)
      (examples.request "POST" "/ccenv/heartbeat" "{}") newResponseWriter
      (examples.freshServer examples.soloManager) = Done w1 p1 /\
    status w1 = Some 200.
Proof.
  destruct (unknown_session_is_answered_200
              (examples.sessionEnv examples.sessionRequest)
              (examples.request "POST" "/ccenv/heartbeat" "{}") newResponseWriter
              (examples.freshServer examples.soloManager) examples.sessionRequest)
    as (w1 & p1 & _ & _ & H1 & _ & Hs & _); try reflexivity.
  by exists w1, p1.
Defined.

(** X25.  The session endpoints are apart from the routing: whatever they
    answer, they select no provider, send nothing upstream and record no
    outcome. *)
Theorem session_endpoints_leave_router_alone
    (env : Env) (r : Request) (w w' : ResponseWriter) (p p' : ProxyServer) :
  handleClientRegister env r w p = Done w' p' \/
  handleClientUnregister env r w p = Done w' p' \/
  handleClientHeartbeat env r w p = Done w' p' ->
  providerManager p' = providerManager p /\
  history p' = history p /\
  sent p' = sent p.
Proof.
  unfold handleClientRegister, handleClientUnregister, handleClientHeartbeat.
  destruct (negb _).
  { intros [H | [H | H]]; by injection H as <- <-. }
  destruct (decodeClientRequest env (Body r)) as [req|err].
  2:{ intros [H | [H | H]]; by injection H as <- <-. }
  intros [H | [H | H]].
  - by injection H as <- <-.
  - destruct (UnregisterClient _ _) as [[cm success] spawned].
    destruct success; by injection H as <- <-.
  - destruct (UpdateHeartbeat _ _ _) as [cm success].
    destruct success; by injection H as <- <-.
Qed.

Lemma session_endpoints_leave_router_alone_witness :
  history (serverOf (handleClientRegister (examples.sessionEnv examples.sessionRequest)
                       (examples.request "POST" "/ccenv/register" "{}")
                       newResponseWriter (examples.freshServer examples.soloManager))
             (examples.freshServer examples.soloManager)) = [].
Proof.
  destruct (handleClientRegister (examples.sessionEnv examples.sessionRequest)
              (examples.request "POST" "/ccenv/register" "{}")
              newResponseWriter (examples.freshServer examples.soloManager))
    as [w' p'| |] eqn:H;
    [|vm_compute in H; discriminate|vm_compute in H; discriminate].
  destruct (session_endpoints_leave_router_alone
              (examples.sessionEnv examples.sessionRequest)
              (examples.request "POST" "/ccenv/register" "{}") newResponseWriter w'
              (examples.freshServer examples.soloManager) p') as (_ & Hh & _).
  - by left.
  - exact Hh.
Defined.

End session_theory.

(** * Further properties of the forwarder *)

Module forwarding_theory.
Import go http proxy proxy_theory.

(** ** The course of a request *)

Lemma doAndRelay_cases env req providerName w p w' p' :
  doAndRelay env req providerName w p = Done w' p' ->
  (Do env req = None /\
   w' = writeAnthropicError StatusBadGateway "api_error" "请求转发失败" w /\
   p' = RecordFailure env providerName (send req p)) \/
  (exists resp,
     Do env req = Some resp /\
     copyResponse (isFlusher env) resp w = Some w' /\
     p' = if 500 <=? StatusCode resp
          then RecordFailure env providerName (send req p)
          else RecordSuccess providerName (send req p)).
Proof.
  unfold doAndRelay. destruct (Do env req) as [resp|].
  - destruct (copyResponse (isFlusher env) resp w) as [w1|] eqn:Hcopy; [|done].
    intros [= <- <-]. right. exists resp. by rewrite Hcopy.
  - intros [= <- <-]. by left.
Qed.

Lemma doAndRelay_attempted env req providerName w p w' p' :
  doAndRelay env req providerName w p = Done w' p' ->
  attempted env providerName w w' p p'.
Proof.
  intros H. apply doAndRelay_cases in H as [(Hdo & Hw & Hp) | (resp & Hdo & Hw & Hp)].
  - right. left. by exists req.
  - right. right. by exists req, resp.
Qed.

Lemma rejected_attempted env providerName statusCode errorType text w p :
  statusCode ∈ [400; 500] ->
  attempted env providerName w (writeAnthropicError statusCode errorType text w) p
    (RecordFailure env providerName p).
Proof. intros H. left. by exists statusCode, errorType, text. Qed.

(** What [forwardMessages] sends, when it sends. *)
Lemma forwardMessages_cases env r providerState body w p w' p' :
  forwardMessages env r providerState body w p = Done w' p' ->
  (sent p' = sent p /\
   exists statusCode errorType text,
     statusCode ∈ [400; 500] /\
     w' = writeAnthropicError statusCode errorType text w /\
     p' = RecordFailure env (config.Name (provider.Provider providerState)) p) \/
  (exists bodyBytes modifiedBody,
     ReadAll body = (bodyBytes, None) /\
     (if negb (String.eqb
                 (map_get (config.Env (provider.Provider providerState))
                    "ANTHROPIC_MODEL") EmptyString)
      then modifyRequestModel bodyBytes
             (map_get (config.Env (provider.Provider providerState)) "ANTHROPIC_MODEL")
      else ModifiedBody bodyBytes) = ModifiedBody modifiedBody /\
     doAndRelay env
       {| reqMethod := "POST";
          reqURL := map_get (config.Env (provider.Provider providerState))
                      "ANTHROPIC_BASE_URL" +:+ "/v1/messages";
          reqHeader := Header_Set "Content-Length"
                         (json.itoa (Z.of_nat (String.length modifiedBody)))
                         (setCredential
                            (config.Env (provider.Provider providerState))
                            (Header r));
          reqBody := modifiedBody |}
       (config.Name (provider.Provider providerState)) w p = Done w' p').
Proof.
  unfold forwardMessages. intros Hdone.
  destruct (ReadAll body) as [bodyBytes [e|]].
  { injection Hdone as <- <-. left. split; [done|].
    eexists _, _, _. split; [|done]. unfold StatusBadRequest. status_in. }
  destruct (if negb _ then _ else _) as [modifiedBody| | |] eqn:Hmod; try done.
  - destruct (newRequestFails env _ _).
    + injection Hdone as <- <-. left. split; [done|].
      eexists _, _, _. split; [|done]. unfold StatusInternalServerError. status_in.
    + right. by exists bodyBytes, modifiedBody.
  - injection Hdone as <- <-. left. split; [done|].
    eexists _, _, _. split; [|done]. unfold StatusInternalServerError. status_in.
Qed.

(** What [forwardRequest] sends, when it sends. *)
Lemma forwardRequest_cases env r targetURL providerState w p w' p' :
  forwardRequest env r targetURL providerState w p = Done w' p' ->
  (sent p' = sent p /\
   exists statusCode errorType text,
     statusCode ∈ [400; 500] /\
     w' = writeAnthropicError statusCode errorType text w /\
     p' = RecordFailure env (config.Name (provider.Provider providerState)) p) \/
  (exists bodyBytes,
     match Body r with
     | Some body => ReadAll body
     | None => (EmptyString, None)
     end = (bodyBytes, None) /\
     doAndRelay env
       {| reqMethod := Method r;
          reqURL := targetURL;
          reqHeader := if (0 <? String.length bodyBytes)%nat
                       then Header_Set "Content-Length"
                              (json.itoa (Z.of_nat (String.length bodyBytes)))
                              (setCredential
                                 (config.Env (provider.Provider providerState))
                                 (Header r))
                       else setCredential
                              (config.Env (provider.Provider providerState))
                              (Header r);
          reqBody := bodyBytes |}
       (config.Name (provider.Provider providerState)) w p = Done w' p').
Proof.
  unfold forwardRequest. intros Hdone.
  destruct (match Body r with Some body => ReadAll body | None => _ end)
    as [bodyBytes [e|]].
  { injection Hdone as <- <-. left. split; [done|].
    eexists _, _, _. split; [|done]. unfold StatusBadRequest. status_in. }
  destruct (newRequestFails env _ _).
  - injection Hdone as <- <-. left. split; [done|].
    eexists _, _, _. split; [|done]. unfold StatusInternalServerError. status_in.
  - right. by exists bodyBytes.
Qed.

Lemma handleMessages_cases env r w p w' p' :
  handleMessages env r w p = Done w' p' ->
  (Method r <> "POST" /\ p' = p /\
   w' = writeAnthropicError StatusMethodNotAllowed "invalid_request_error"
          "仅支持 POST 请求" w) \/
  (Method r = "POST" /\
   snd (GetNextProvider env p) = provider.NoProviderAvailable /\
   p' = fst (GetNextProvider env p) /\
   w' = writeAnthropicError StatusServiceUnavailable "overloaded_error"
          "无可用的服务提供商" w) \/
  (Method r = "POST" /\
   exists i providerState body,
     snd (GetNextProvider env p) = provider.Picked i /\
     provider.providers (providerManager (fst (GetNextProvider env p))) !! i
       = Some providerState /\
     Body r = Some body /\
     forwardMessages env r providerState body w (fst (GetNextProvider env p))
       = Done w' p').
Proof.
  unfold handleMessages. intros Hdone.
  destruct (String.eqb (Method r) "POST") eqn:Hm; simpl in Hdone.
  2:{ injection Hdone as <- <-. left. by apply String.eqb_neq in Hm. }
  apply String.eqb_eq in Hm. right.
  destruct (GetNextProvider env p) as [p1 [i| |]]; simpl; [| |done].
  - right. split; [done|].
    destruct (provider.providers (providerManager p1) !! i) as [providerState|] eqn:Hi;
      [|done].
    destruct (Body r) as [body|]; [|done].
    by exists i, providerState, body.
  - injection Hdone as <- <-. by left.
Qed.

Lemma selectAndForward_cases env r target w p w' p' :
  selectAndForward env r target w p = Done w' p' ->
  (snd (GetNextProvider env p) = provider.NoProviderAvailable /\
   p' = fst (GetNextProvider env p) /\
   w' = writeAnthropicError StatusServiceUnavailable "overloaded_error"
          "无可用的服务提供商" w) \/
  (exists i providerState,
     snd (GetNextProvider env p) = provider.Picked i /\
     provider.providers (providerManager (fst (GetNextProvider env p))) !! i
       = Some providerState /\
     forwardRequest env r
       (target (map_get (config.Env (provider.Provider providerState))
                  "ANTHROPIC_BASE_URL"))
       providerState w (fst (GetNextProvider env p)) = Done w' p').
Proof.
  unfold selectAndForward. intros Hdone.
  destruct (GetNextProvider env p) as [p1 [i| |]]; simpl; [| |done].
  - right.
    destruct (provider.providers (providerManager p1) !! i) as [providerState|] eqn:Hi;
      [|done].
    by exists i, providerState.
  - injection Hdone as <- <-. by left.
Qed.

Lemma GetNextProvider_effects env p :
  history (fst (GetNextProvider env p))
    = history p ++ [provider.CallSelect (selectedAt env)] /\
  sent (fst (GetNextProvider env p)) = sent p /\
  clientManager (fst (GetNextProvider env p)) = clientManager p /\
  goroutines (fst (GetNextProvider env p)) = goroutines p /\
  providerManager (fst (GetNextProvider env p))
    = fst (provider.GetNextProvider (selectedAt env) (providerManager p)) /\
  snd (GetNextProvider env p)
    = snd (provider.GetNextProvider (selectedAt env) (providerManager p)).
Proof.
  unfold GetNextProvider.
  by destruct (provider.GetNextProvider (selectedAt env) (providerManager p)).
Qed.

(** The three handlers of the LLM routes, as one. *)
Lemma handler_cases env r w p w' p' :
  handleMessages env r w p = Done w' p' \/
  handleV1Routes env r w p = Done w' p' \/
  handleHealth env r w p = Done w' p' ->
  (p' = p /\
   w' = writeAnthropicError StatusMethodNotAllowed "invalid_request_error"
          "仅支持 POST 请求" w) \/
  (snd (GetNextProvider env p) = provider.NoProviderAvailable /\
   p' = fst (GetNextProvider env p) /\
   w' = writeAnthropicError StatusServiceUnavailable "overloaded_error"
          "无可用的服务提供商" w) \/
  (exists i providerState,
     snd (GetNextProvider env p) = provider.Picked i /\
     provider.providers (providerManager (fst (GetNextProvider env p))) !! i
       = Some providerState /\
     attempted env (config.Name (provider.Provider providerState)) w w'
       (fst (GetNextProvider env p)) p').
Proof.
  match goal with |- _ -> ?G =>
    assert (Hm : handleMessages env r w p = Done w' p' -> G) end.
  { intros H. apply handleMessages_cases in H
      as [(_ & -> & ->) | [(_ & Hp & -> & ->) | (_ & i & ps & body & Hp & Hi & _ & Hf)]].
    - left. split; reflexivity.
    - right. left. by repeat split.
    - right. right. exists i, ps. split; [done|]. split; [done|].
      apply forwardMessages_cases in Hf
        as [(_ & sc & et & text & Hin & -> & ->) | (bb & mb & _ & _ & Hdo)].
      + by apply rejected_attempted.
      + by apply doAndRelay_attempted in Hdo. }
  match goal with |- _ -> ?G =>
    assert (Hs : forall target, selectAndForward env r target w p = Done w' p' -> G) end.
  { intros target H. apply selectAndForward_cases in H
      as [(Hp & -> & ->) | (i & ps & Hp & Hi & Hf)].
    - right. left. by repeat split.
    - right. right. exists i, ps. split; [done|]. split; [done|].
      apply forwardRequest_cases in Hf
        as [(_ & sc & et & text & Hin & -> & ->) | (bb & _ & Hdo)].
      + by apply rejected_attempted.
      + by apply doAndRelay_attempted in Hdo. }
  intros [H | [H | H]].
  - by apply Hm.
  - unfold handleV1Routes in H. destruct (String.eqb _ _).
    + by apply Hm.
    + by eapply Hs.
  - unfold handleHealth in H. by eapply Hs.
Qed.

(** X17.  No retry and no failover inside one request.  A request to an LLM
    route makes at most one selection, sends at most one request to the
    upstream and records at most one outcome, in that order; it leaves the
    client sessions alone. *)
Theorem one_attempt_per_request
    (env : Env) (r : Request) (w w' : ResponseWriter) (p p' : ProxyServer) :
  handleMessages env r w p = Done w' p' \/
  handleV1Routes env r w p = Done w' p' \/
  handleHealth env r w p = Done w' p' ->
  clientManager p' = clientManager p /\
  goroutines p' = goroutines p /\
  (history p' = history p /\ sent p' = sent p \/
   history p' = history p ++ [provider.CallSelect (selectedAt env)] /\
   sent p' = sent p \/
   exists recorded,
     history p' = history p ++ [provider.CallSelect (selectedAt env); recorded] /\
     (forall now, recorded <> provider.CallSelect now) /\
     (sent p' = sent p \/ exists req, sent p' = sent p ++ [req])).
Proof.
  intros H. apply handler_cases in H
    as [(-> & _) | [(_ & -> & _) | (i & ps & _ & _ & Hat)]].
  - split; [done|]. split; [done|]. by left.
  - destruct (GetNextProvider_effects env p) as (Hh & Hs & Hc & Hg & _).
    split; [done|]. split; [done|]. right. by left.
  - destruct (GetNextProvider_effects env p) as (Hh & Hs & Hc & Hg & _).
    destruct Hat as [(sc & et & text & _ & _ & ->)
                    | [(req & _ & _ & ->) | (req & resp & _ & _ & ->)]].
    + simpl. split; [done|]. split; [done|]. right. right.
      eexists. rewrite Hh, <- app_assoc. split; [done|]. split; [done|]. by left.
    + simpl. split; [done|]. split; [done|]. right. right.
      eexists. rewrite Hh, <- app_assoc. split; [done|]. split; [done|].
      right. exists req. by rewrite Hs.
    + destruct (500 <=? StatusCode resp); simpl.
      * split; [done|]. split; [done|]. right. right.
        eexists. rewrite Hh, <- app_assoc. split; [done|]. split; [done|].
        right. exists req. by rewrite Hs.
      * split; [done|]. split; [done|]. right. right.
        eexists. rewrite Hh, <- app_assoc. split; [done|]. split; [done|].
        right. exists req. by rewrite Hs.
Qed.

Lemma one_attempt_per_request_witness :
  goroutines (serverOf (handleMessages examples.deafEnv
                          (examples.request "POST" "/v1/messages" "{}") newResponseWriter
                          (examples.freshServer examples.soloManager))
                (examples.freshServer examples.soloManager)) = [].
Proof.
  destruct (handleMessages examples.deafEnv
              (examples.request "POST" "/v1/messages" "{}") newResponseWriter
              (examples.freshServer examples.soloManager)) as [w' p'| |] eqn:H;
    [|vm_compute in H; discriminate|vm_compute in H; discriminate].
  destruct (one_attempt_per_request examples.deafEnv
              (examples.request "POST" "/v1/messages" "{}") newResponseWriter w'
              (examples.freshServer examples.soloManager) p') as (_ & Hg & _).
  - by left.
  - exact Hg.
Defined.

(** X18.  An error that the proxy answers after it has selected a provider
    is counted as a failure of that provider, whether or not the provider
    was contacted: a request body that cannot be read or rewritten, sent by
    a client, moves the provider towards its cooldown like an upstream
    failure does. *)
Theorem proxy_error_is_blamed_on_selected_provider
    (env : Env) (r : Request) (w w' : ResponseWriter) (p p' : ProxyServer)
    (i : nat) :
  handleMessages env r w p = Done w' p' \/
  handleV1Routes env r w p = Done w' p' \/
  handleHealth env r w p = Done w' p' ->
  snd (provider.GetNextProvider (selectedAt env) (providerManager p))
    = provider.Picked i ->
  history p' <> history p ->
  (forall req resp, sent p' = sent p ++ [req] -> Do env req <> Some resp) ->
  exists providerState,
    provider.providers
      (fst (provider.GetNextProvider (selectedAt env) (providerManager p))) !! i
      = Some providerState /\
    history p' = history p
      ++ [provider.CallSelect (selectedAt env);
          provider.CallFailure (config.Name (provider.Provider providerState))
            (fst (failedAt env)) (snd (failedAt env))] /\
    providerManager p'
      = provider.RecordFailure (config.Name (provider.Provider providerState))
          (fst (failedAt env)) (snd (failedAt env))
          (fst (provider.GetNextProvider (selectedAt env) (providerManager p))) /\
    exists statusCode errorType text,
      statusCode ∈ [400; 500; 502] /\
      w' = writeAnthropicError statusCode errorType text w.
Proof.
  intros H Hpick Hhist Hnone.
  destruct (GetNextProvider_effects env p) as (Hh & Hs & Hc & Hg & Hpm & Hp).
  apply handler_cases in H
    as [(-> & _) | [(Hno & _) | (j & ps & Hj & Hlk & Hat)]].
  - done.
  - rewrite Hp, Hpick in Hno. done.
  - rewrite Hp, Hpick in Hj. injection Hj as <-. rewrite Hpm in Hlk.
    exists ps. split; [done|].
    destruct Hat as [(sc & et & text & Hin & -> & ->)
                    | [(req & _ & -> & ->) | (req & resp & Hdo & _ & ->)]].
    + simpl. rewrite Hh, <- app_assoc, Hpm. split; [done|]. split; [done|].
      exists sc, et, text. split; [|done].
      revert Hin. rewrite !elem_of_cons. tauto.
    + simpl. rewrite Hh, <- app_assoc, Hpm. split; [done|]. split; [done|].
      eexists _, _, _. split; [|done]. unfold StatusBadGateway. status_in.
    + exfalso. apply (Hnone req resp); [|done].
      destruct (500 <=? StatusCode resp); simpl; by rewrite Hs.
Qed.

(** Witness of [proxy_error_is_blamed_on_selected_provider]: the provider
    rewrites the model and the body of the request is not JSON. *)
Lemma proxy_error_is_blamed_on_selected_provider_witness :
  history
    (serverOf
       (handleMessages (examples.answeringEnv examples.wholeResponse)
          (examples.request "POST" "/v1/messages" "not json") newResponseWriter
          (examples.freshServer
             (provider.NewProviderManager
                (examples.configOf "default" [examples.rewritingProvider]))))
       (examples.freshServer
          (provider.NewProviderManager
             (examples.configOf "default" [examples.rewritingProvider]))))
  = [provider.CallSelect examples.tFail;
     provider.CallFailure "siliconflow" examples.tFail examples.tFail].
Proof.
  set (p := examples.freshServer
              (provider.NewProviderManager
                 (examples.configOf "default" [examples.rewritingProvider]))).
  destruct (handleMessages (examples.answeringEnv examples.wholeResponse)
              (examples.request "POST" "/v1/messages" "not json") newResponseWriter p)
    as [w' p'| |] eqn:H;
    [|vm_compute in H; discriminate|vm_compute in H; discriminate].
  destruct (proxy_error_is_blamed_on_selected_provider
              (examples.answeringEnv examples.wholeResponse)
              (examples.request "POST" "/v1/messages" "not json") newResponseWriter w'
              p p' 0) as (ps & Hlk & Hh & _).
  - by left.
  - vm_compute. reflexivity.
  - vm_compute in H. injection H as _ <-. vm_compute. discriminate.
  - intros req resp Hsent _. vm_compute in H. injection H as _ <-.
    vm_compute in Hsent. discriminate.
  - simpl. rewrite Hh. vm_compute in Hlk. injection Hlk as <-. reflexivity.
Defined.

(** ** The request that goes upstream *)

Lemma setCredential_lookup providerEnv h k :
  setCredential providerEnv h !! k
  = if negb (String.eqb (map_get providerEnv "ANTHROPIC_AUTH_TOKEN") EmptyString)
    then if decide (k = "Authorization")
         then Some ["Bearer " +:+ map_get providerEnv "ANTHROPIC_AUTH_TOKEN"]
         else h !! k
    else if negb (String.eqb (map_get providerEnv "ANTHROPIC_API_KEY") EmptyString)
         then if decide (k = "X-Api-Key")
              then Some [map_get providerEnv "ANTHROPIC_API_KEY"]
              else h !! k
         else h !! k.
Proof.
  unfold setCredential, Header_Set.
  destruct (negb (String.eqb (map_get providerEnv "ANTHROPIC_AUTH_TOKEN") _)).
  - destruct (decide (k = "Authorization")) as [->|Hne].
    + apply lookup_insert_eq.
    + by apply lookup_insert_ne.
  - destruct (negb (String.eqb (map_get providerEnv "ANTHROPIC_API_KEY") _)); [|done].
    destruct (decide (k = "X-Api-Key")) as [->|Hne].
    + apply lookup_insert_eq.
    + by apply lookup_insert_ne.
Qed.

Lemma sent_by_doAndRelay env req0 providerName w p w' p' req :
  doAndRelay env req0 providerName w p = Done w' p' ->
  sent p' = sent p ++ [req] -> req = req0.
Proof.
  intros Hdo Hsent. apply doAndRelay_spec in Hdo as [Hs _].
  rewrite Hs in Hsent. by apply app_inj_tail in Hsent as [_ ->].
Qed.

(** The header of a request that one of the three handlers sent: the
    header of the client under the credential of the provider, and under
    the length of the body when there is one. *)
Lemma sent_header env r w p w' p' req :
  handleMessages env r w p = Done w' p' \/
  handleV1Routes env r w p = Done w' p' \/
  handleHealth env r w p = Done w' p' ->
  sent p' = sent p ++ [req] ->
  exists i providerState,
    snd (GetNextProvider env p) = provider.Picked i /\
    provider.providers (providerManager (fst (GetNextProvider env p))) !! i
      = Some providerState /\
    forall k, k <> "Content-Length" ->
      reqHeader req !! k
      = setCredential (config.Env (provider.Provider providerState)) (Header r) !! k.
Proof.
  destruct (GetNextProvider_effects env p) as (Hh & Hs & _).
  match goal with |- _ -> _ -> ?G =>
    assert (Hm : handleMessages env r w p = Done w' p' ->
                 sent p' = sent p ++ [req] -> G) end.
  { intros H Hsent. apply handleMessages_cases in H
      as [(_ & -> & _) | [(_ & _ & -> & _) | (_ & i & ps & body & Hp & Hi & _ & Hf)]].
    - not_sent Hsent.
    - rewrite Hs in Hsent. not_sent Hsent.
    - exists i, ps. split; [done|]. split; [done|].
      apply forwardMessages_cases in Hf
        as [(Hsame & _) | (bb & mb & _ & _ & Hdo)].
      + rewrite Hsame, Hs in Hsent. not_sent Hsent.
      + rewrite <- Hs in Hsent. apply (sent_by_doAndRelay _ _ _ _ _ _ _ _ Hdo) in Hsent.
        subst req. simpl. intros k Hk. unfold Header_Set. by rewrite lookup_insert_ne. }
  match goal with |- _ -> _ -> ?G =>
    assert (Hf : forall target, selectAndForward env r target w p = Done w' p' ->
                   sent p' = sent p ++ [req] -> G) end.
  { intros target H Hsent. apply selectAndForward_cases in H
      as [(_ & -> & _) | (i & ps & Hp & Hi & Hf)].
    - rewrite Hs in Hsent. not_sent Hsent.
    - exists i, ps. split; [done|]. split; [done|].
      apply forwardRequest_cases in Hf as [(Hsame & _) | (bb & _ & Hdo)].
      + rewrite Hsame, Hs in Hsent. not_sent Hsent.
      + rewrite <- Hs in Hsent. apply (sent_by_doAndRelay _ _ _ _ _ _ _ _ Hdo) in Hsent.
        subst req. simpl. intros k Hk.
        destruct (0 <? String.length bb)%nat; [|done].
        unfold Header_Set. by rewrite lookup_insert_ne. }
  intros [H | [H | H]] Hsent.
  - by apply Hm.
  - unfold handleV1Routes in H. destruct (String.eqb _ _).
    + by apply Hm.
    + by eapply Hf.
  - unfold handleHealth in H. by eapply Hf.
Qed.

(** X19.  The credential of the selected provider goes upstream in the
    place of the client's.  With a token the request carries
    [Authorization: Bearer <token>], whatever the client sent under that
    name; without a token but with a key it carries [X-Api-Key: <key>].
    Every other header except [Content-Length] is forwarded as the client
    sent it, and that includes the client's own header of the other kind:
    its [X-Api-Key] next to the token, its [Authorization] next to the
    key. *)
Theorem provider_credential_goes_upstream
    (env : Env) (r : Request) (w w' : ResponseWriter) (p p' : ProxyServer)
    (req : UpstreamRequest) :
  handleMessages env r w p = Done w' p' \/
  handleV1Routes env r w p = Done w' p' \/
  handleHealth env r w p = Done w' p' ->
  sent p' = sent p ++ [req] ->
  exists i providerState,
    snd (provider.GetNextProvider (selectedAt env) (providerManager p))
      = provider.Picked i /\
    provider.providers
      (fst (provider.GetNextProvider (selectedAt env) (providerManager p))) !! i
      = Some providerState /\
    let authToken :=
      map_get (config.Env (provider.Provider providerState)) "ANTHROPIC_AUTH_TOKEN" in
    let apiKey :=
      map_get (config.Env (provider.Provider providerState)) "ANTHROPIC_API_KEY" in
    (authToken <> EmptyString ->
       reqHeader req !! "Authorization" = Some ["Bearer " +:+ authToken] /\
       reqHeader req !! "X-Api-Key" = Header r !! "X-Api-Key") /\
    (authToken = EmptyString -> apiKey <> EmptyString ->
       reqHeader req !! "X-Api-Key" = Some [apiKey] /\
       reqHeader req !! "Authorization" = Header r !! "Authorization") /\
    (forall k, k <> "Authorization" -> k <> "X-Api-Key" -> k <> "Content-Length" ->
       reqHeader req !! k = Header r !! k).
Proof.
  intros H Hsent.
  destruct (sent_header env r w p w' p' req H Hsent) as (i & ps & Hp & Hi & Hk).
  destruct (GetNextProvider_effects env p) as (_ & _ & _ & _ & Hpm & Hpick).
  rewrite Hpick in Hp. rewrite Hpm in Hi.
  exists i, ps. split; [done|]. split; [done|]. simpl.
  split; [|split].
  - intros Ht. apply String.eqb_neq in Ht.
    rewrite !Hk, !setCredential_lookup, Ht by done. simpl.
    by split.
  - intros Ht Ha. apply String.eqb_neq in Ha.
    rewrite !Hk, !setCredential_lookup, Ht, Ha by done. simpl.
    by split.
  - intros k H1 H2 H3. rewrite Hk, setCredential_lookup by done.
    destruct (negb _); [by rewrite decide_False|].
    destruct (negb _); [by rewrite decide_False | done].
Qed.

(** Witness of [provider_credential_goes_upstream]: the provider holds the
    token [sk-1]. *)
Lemma provider_credential_goes_upstream_witness :
  (fun req => reqHeader req !! "Authorization")
    <$> sent (serverOf (handleMessages (examples.answeringEnv examples.wholeResponse)
                          (examples.request "POST" "/v1/messages" "{}")
                          newResponseWriter
                          (examples.freshServer examples.soloManager))
                (examples.freshServer examples.soloManager))
  = [Some ["Bearer sk-1"]].
Proof.
  destruct (handleMessages (examples.answeringEnv examples.wholeResponse)
              (examples.request "POST" "/v1/messages" "{}") newResponseWriter
              (examples.freshServer examples.soloManager)) as [w' p'| |] eqn:H;
    [|vm_compute in H; discriminate|vm_compute in H; discriminate].
  assert (Hsent : exists req,
            sent p' = sent (examples.freshServer examples.soloManager) ++ [req]).
  { vm_compute in H. injection H as _ <-. eexists. reflexivity. }
  destruct Hsent as [req Hsent].
  destruct (provider_credential_goes_upstream
              (examples.answeringEnv examples.wholeResponse)
              (examples.request "POST" "/v1/messages" "{}") newResponseWriter w'
              (examples.freshServer examples.soloManager) p' req)
    as (i & ps & Hp & Hi & Ht & _).
  - by left.
  - exact Hsent.
  - vm_compute in Hp. injection Hp as <-. vm_compute in Hi. injection Hi as <-.
    destruct Ht as [Ht _]; [vm_compute; discriminate|].
    cbn [serverOf]. rewrite Hsent. cbn [fmap list_fmap app examples.freshServer sent].
    by rewrite Ht.
Defined.

(** X20.  What [handleMessages] sends is a POST to the base URL of the
    selected provider followed by [/v1/messages]: the query string of the
    client's request is not forwarded.  When the provider names no model,
    the body goes upstream byte for byte as the client sent it, and the
    [Content-Length] sent is the length of the body sent. *)
Theorem messages_request_upstream
    (env : Env) (r : Request) (w w' : ResponseWriter) (p p' : ProxyServer)
    (req : UpstreamRequest) :
  handleMessages env r w p = Done w' p' ->
  sent p' = sent p ++ [req] ->
  exists i providerState body bodyBytes,
    snd (provider.GetNextProvider (selectedAt env) (providerManager p))
      = provider.Picked i /\
    provider.providers
      (fst (provider.GetNextProvider (selectedAt env) (providerManager p))) !! i
      = Some providerState /\
    Body r = Some body /\
    ReadAll body = (bodyBytes, None) /\
    reqMethod req = "POST" /\
    reqURL req
      = map_get (config.Env (provider.Provider providerState)) "ANTHROPIC_BASE_URL"
        +:+ "/v1/messages" /\
    (map_get (config.Env (provider.Provider providerState)) "ANTHROPIC_MODEL"
       = EmptyString -> reqBody req = bodyBytes) /\
    reqHeader req !! "Content-Length"
      = Some [json.itoa (Z.of_nat (String.length (reqBody req)))].
Proof.
  intros H Hsent.
  destruct (GetNextProvider_effects env p) as (_ & Hs & _ & _ & Hpm & Hpick).
  apply handleMessages_cases in H
    as [(_ & -> & _) | [(_ & _ & -> & _) | (_ & i & ps & body & Hp & Hi & Hb & Hf)]].
  - not_sent Hsent.
  - rewrite Hs in Hsent. not_sent Hsent.
  - rewrite Hpick in Hp. rewrite Hpm in Hi.
    apply forwardMessages_cases in Hf as [(Hsame & _) | (bb & mb & Hread & Hmod & Hdo)].
    + rewrite Hsame, Hs in Hsent. not_sent Hsent.
    + rewrite <- Hs in Hsent. apply (sent_by_doAndRelay _ _ _ _ _ _ _ _ Hdo) in Hsent.
      subst req. exists i, ps, body, bb. simpl.
      repeat (split; [done|]). split.
      * intros Hnone. rewrite Hnone in Hmod. simpl in Hmod. by injection Hmod as ->.
      * unfold Header_Set. apply lookup_insert_eq.
Qed.

(** Witness of [messages_request_upstream]: the provider names no model. *)
Lemma messages_request_upstream_witness :
  (fun req => (reqURL req, reqBody req))
    <$> sent (serverOf (handleMessages (examples.answeringEnv examples.wholeResponse)
                          (examples.request "POST" "/v1/messages" "{ }")
                          newResponseWriter
                          (examples.freshServer examples.soloManager))
                (examples.freshServer examples.soloManager))
  = [("https://api.example.com/v1/messages", "{ }")].
Proof.
  destruct (handleMessages (examples.answeringEnv examples.wholeResponse)
              (examples.request "POST" "/v1/messages" "{ }") newResponseWriter
              (examples.freshServer examples.soloManager)) as [w' p'| |] eqn:H;
    [|vm_compute in H; discriminate|vm_compute in H; discriminate].
  assert (Hsent : exists req,
            sent p' = sent (examples.freshServer examples.soloManager) ++ [req]).
  { vm_compute in H. injection H as _ <-. eexists. reflexivity. }
  destruct Hsent as [req Hsent].
  destruct (messages_request_upstream
              (examples.answeringEnv examples.wholeResponse)
              (examples.request "POST" "/v1/messages" "{ }") newResponseWriter w'
              (examples.freshServer examples.soloManager) p' req H Hsent)
    as (i & ps & body & bb & Hp & Hi & Hb & Hr & _ & Hu & Hbody & _).
  vm_compute in Hp. injection Hp as <-. vm_compute in Hi. injection Hi as <-.
  injection Hb as <-. vm_compute in Hr. injection Hr as <-.
  cbn [serverOf]. rewrite Hsent. cbn [fmap list_fmap app examples.freshServer sent].
  rewrite Hu, Hbody by reflexivity. reflexivity.
Defined.

(** X21.  The other routes under [/v1/] are passed through: the request
    goes upstream with the method of the client, to the base URL of the
    selected provider followed by the path and, when there is one, the
    query string of the client, and with the body of the client byte for
    byte. *)
Theorem v1_request_is_passed_through
    (env : Env) (r : Request) (w w' : ResponseWriter) (p p' : ProxyServer)
    (req : UpstreamRequest) :
  Path r <> "/v1/messages" ->
  handleV1Routes env r w p = Done w' p' ->
  sent p' = sent p ++ [req] ->
  exists i providerState bodyBytes,
    snd (provider.GetNextProvider (selectedAt env) (providerManager p))
      = provider.Picked i /\
    provider.providers
      (fst (provider.GetNextProvider (selectedAt env) (providerManager p))) !! i
      = Some providerState /\
    match Body r with
    | Some body => ReadAll body
    | None => (EmptyString, None)
    end = (bodyBytes, None) /\
    reqMethod req = Method r /\
    reqURL req
      = map_get (config.Env (provider.Provider providerState)) "ANTHROPIC_BASE_URL"
        +:+ Path r
        +:+ (if String.eqb (RawQuery r) EmptyString then EmptyString
             else "?" +:+ RawQuery r) /\
    reqBody req = bodyBytes.
Proof.
  intros Hpath H Hsent.
  destruct (GetNextProvider_effects env p) as (_ & Hs & _ & _ & Hpm & Hpick).
  unfold handleV1Routes in H. apply String.eqb_neq in Hpath. rewrite Hpath in H.
  apply selectAndForward_cases in H as [(_ & -> & _) | (i & ps & Hp & Hi & Hf)].
  - rewrite Hs in Hsent. not_sent Hsent.
  - rewrite Hpick in Hp. rewrite Hpm in Hi.
    apply forwardRequest_cases in Hf as [(Hsame & _) | (bb & Hread & Hdo)].
    + rewrite Hsame, Hs in Hsent. not_sent Hsent.
    + rewrite <- Hs in Hsent. apply (sent_by_doAndRelay _ _ _ _ _ _ _ _ Hdo) in Hsent.
      subst req. exists i, ps, bb. simpl.
      repeat (split; [done|]). split; [|done].
      destruct (String.eqb (RawQuery r) EmptyString); simpl.
      * by rewrite append_nil_r.
      * by rewrite append_assoc.
Qed.

(** Witness of [v1_request_is_passed_through]: a GET with a query. *)
Lemma v1_request_is_passed_through_witness :
  reqURL
    <$> sent (serverOf (handleV1Routes (examples.answeringEnv examples.wholeResponse)
                          {| Method := "GET"; Path := "/v1/models";
                             RawQuery := "limit=5"; Header := ∅; Body := None |}
                          newResponseWriter
                          (examples.freshServer examples.soloManager))
                (examples.freshServer examples.soloManager))
  = ["https://api.example.com/v1/models?limit=5"].
Proof.
  set (r := {| Method := "GET"; Path := "/v1/models"; RawQuery := "limit=5";
               Header := ∅; Body := None |}).
  destruct (handleV1Routes (examples.answeringEnv examples.wholeResponse) r
              newResponseWriter (examples.freshServer examples.soloManager))
    as [w' p'| |] eqn:H;
    [|vm_compute in H; discriminate|vm_compute in H; discriminate].
  assert (Hsent : exists req,
            sent p' = sent (examples.freshServer examples.soloManager) ++ [req]).
  { vm_compute in H. injection H as _ <-. eexists. reflexivity. }
  destruct Hsent as [req Hsent].
  destruct (v1_request_is_passed_through
              (examples.answeringEnv examples.wholeResponse) r newResponseWriter w'
              (examples.freshServer examples.soloManager) p' req)
    as (i & ps & bb & Hp & Hi & _ & _ & Hu & _).
  - vm_compute. discriminate.
  - exact H.
  - exact Hsent.
  - vm_compute in Hp. injection Hp as <-. vm_compute in Hi. injection Hi as <-.
    cbn [serverOf]. rewrite Hsent. cbn [fmap list_fmap app examples.freshServer sent].
    by rewrite Hu.
Defined.

(** X22.  A body that is the JSON value [null] makes [handleMessages]
    panic when the selected provider names a model: the decoder leaves the
    map nil and the handler assigns to its "model" entry.  Nothing has been
    written to the client and nothing is sent upstream; the selection is
    the only call that the provider manager has seen. *)
Theorem null_body_panics
    (env : Env) (r : Request) (w : ResponseWriter) (p : ProxyServer)
    (i : nat) (providerState : provider.ProviderState) (body : Reader)
    (bodyBytes : string) :
  Method r = "POST" ->
  snd (provider.GetNextProvider (selectedAt env) (providerManager p))
    = provider.Picked i ->
  provider.providers
    (fst (provider.GetNextProvider (selectedAt env) (providerManager p))) !! i
    = Some providerState ->
  map_get (config.Env (provider.Provider providerState)) "ANTHROPIC_MODEL"
    <> EmptyString ->
  Body r = Some body ->
  ReadAll body = (bodyBytes, None) ->
  json.Unmarshal bodyBytes = json.LeftNil ->
  exists p',
    handleMessages env r w p = Panicked w p' /\
    sent p' = sent p /\
    history p' = history p ++ [provider.CallSelect (selectedAt env)].
Proof.
  intros Hm Hp Hi Hmodel Hb Hread Hnull.
  destruct (GetNextProvider_effects env p) as (Hh & Hs & _ & _ & Hpm & Hpick).
  unfold handleMessages. rewrite Hm. simpl (negb _). cbv iota.
  destruct (GetNextProvider env p) as [p1 pick]. simpl in *.
  rewrite Hpick, Hp. rewrite Hpm, Hi, Hb.
  unfold forwardMessages. rewrite Hread.
  apply String.eqb_neq in Hmodel. rewrite Hmodel. simpl (negb _). cbv iota.
  unfold modifyRequestModel. rewrite Hnull. by exists p1.
Qed.

Lemma null_body_panics_witness :
  exists p',
    handleMessages (examples.answeringEnv examples.wholeResponse)
      (examples.request "POST" "/v1/messages" " null ") newResponseWriter
      (examples.freshServer
         (provider.NewProviderManager
            (examples.configOf "default" [examples.rewritingProvider])))
    = Panicked newResponseWriter p' /\
    sent p' = [].
Proof.
  destruct (null_body_panics (examples.answeringEnv examples.wholeResponse)
              (examples.request "POST" "/v1/messages" " null ") newResponseWriter
              (examples.freshServer
                 (provider.NewProviderManager
                    (examples.configOf "default" [examples.rewritingProvider])))
              0 (provider.newProviderState examples.rewritingProvider)
              [(" null ", Some EOF)] " null ")
    as (p' & H & Hs & _); try (vm_compute; reflexivity).
  - vm_compute. discriminate.
  - by exists p'.
Defined.

End forwarding_theory.
